(** * langgraph-kusto: memory store and checkpoint saver on an append-only store

    A shallow embedding of the translation layer of [langgraph_kusto]:
    - [store/kql_builder.py]   literal encoder and query builder,
    - [store/memory_layer.py]  JSON-path field extraction, embedding
                               enrichment and the memory execution engine,
    - [store/translator.py]    result translation,
    - [checkpoint/checkpoint.py] the checkpoint saver,
    - [setup_environment.py]   the raw tables and their live views.

    Python values are an inductive type, exceptions are a sum type, the
    remote store is a record of raw tables, and time is an integer tick
    that every operation receives where the source reads the clock. *)

From Stdlib Require Import String Ascii List ZArith QArith Bool Lia Sorted.
From Stdlib Require Import DecimalString DecimalZ DecimalPos DecimalN.
Import ListNotations.

Local Open Scope string_scope.
Local Open Scope Z_scope.

(* ===================================================================== *)
(** * Python values and exceptions *)
(* ===================================================================== *)

(** The values that flow through the layer: what [json], the store's
    [dynamic] columns and the runtime's checkpoints are made of.  A float
    is only carried and compared, never computed on; it is kept as a
    rational.  A [datetime] is a tick count.  A [dict] keeps its insertion
    order and has string keys. *)
#[local] Unset Elimination Schemes.
Inductive pyval : Type :=
| PNone
| PBool (b : bool)
| PInt (z : Z)
| PFloat (q : Q)
| PStr (s : string)
| PDatetime (t : Z)
| PList (l : list pyval)
| PTuple (l : list pyval)
| PDict (d : list (string * pyval)).
#[local] Set Elimination Schemes.

(** The exceptions the modelled code raises. *)
Inductive exn : Type :=
| ValueError
| KeyError
| TypeError.

Inductive result (A : Type) : Type :=
| Ok (a : A)
| Raise (e : exn).
Arguments Ok {A} a.
Arguments Raise {A} e.

Definition rbind {A B} (r : result A) (k : A -> result B) : result B :=
  match r with
  | Ok a => k a
  | Raise e => Raise e
  end.

Declare Scope result_scope.
Delimit Scope result_scope with result.
Notation "x <- c ;; k" := (rbind c (fun x => k))
  (at level 61, c at next level, right associativity) : result_scope.

(** Python truthiness ([if v], [not v], [a or b]). *)
Definition py_truthy (v : pyval) : bool :=
  match v with
  | PNone => false
  | PBool b => b
  | PInt z => negb (z =? 0)
  | PFloat q => negb (Qeq_bool q 0)
  | PStr s => negb (String.eqb s "")
  | PDatetime _ => true
  | PList l => match l with [] => false | _ => true end
  | PTuple l => match l with [] => false | _ => true end
  | PDict d => match d with [] => false | _ => true end
  end.

(** [d.get(k)] / [k in d] / [d[k]] on an insertion-ordered dict. *)
Fixpoint dict_get {A} (d : list (string * A)) (k : string) : option A :=
  match d with
  | [] => None
  | (k', v) :: d' => if String.eqb k' k then Some v else dict_get d' k
  end.

(** [l[i]] for a Python list: a negative index counts from the end, and an
    index outside [-len, len) raises [IndexError] ([None] here). *)
Definition py_list_getitem {A} (l : list A) (i : Z) : option A :=
  let n := Z.of_nat (List.length l) in
  let j := if i <? 0 then i + n else i in
  if (0 <=? j) && (j <? n) then nth_error l (Z.to_nat j) else None.

(** [l[a:b]] for a Python list, with the clamping of negative and
    over-long bounds that slicing does. *)
Definition py_slice_bound (n i : Z) : Z :=
  if i <? 0 then Z.max (i + n) 0 else Z.min i n.

Definition py_slice {A} (l : list A) (a b : Z) : list A :=
  let n := Z.of_nat (List.length l) in
  let lo := py_slice_bound n a in
  let hi := py_slice_bound n b in
  firstn (Z.to_nat (hi - lo)) (skipn (Z.to_nat lo) l).

(* ===================================================================== *)
(** * Strings *)
(* ===================================================================== *)

Module Str.

Definition newline : ascii := ascii_of_nat 10.
Definition carriage_return : ascii := ascii_of_nat 13.
Definition backslash : ascii := ascii_of_nat 92.
Definition quote : ascii := ascii_of_nat 39.
Definition dquote : ascii := ascii_of_nat 34.

(** [c in s] for a one-character [c]. *)
Fixpoint contains (c : ascii) (s : string) : bool :=
  match s with
  | EmptyString => false
  | String a r => Ascii.eqb a c || contains c r
  end.

(** [s.replace(c, new)] for a one-character [c]. *)
Fixpoint replace (c : ascii) (new : string) (s : string) : string :=
  match s with
  | EmptyString => EmptyString
  | String a r =>
      if Ascii.eqb a c then new ++ replace c new r
      else String a (replace c new r)
  end.

(** [s.split(c)] for a one-character separator: never the empty list. *)
Fixpoint split (c : ascii) (s : string) : list string :=
  match s with
  | EmptyString => [EmptyString]
  | String a r =>
      if Ascii.eqb a c then EmptyString :: split c r
      else match split c r with
           | [] => [String a EmptyString]
           | x :: xs => String a x :: xs
           end
  end.

(** [sep.join(parts)]. *)
Fixpoint join (sep : string) (parts : list string) : string :=
  match parts with
  | [] => EmptyString
  | [x] => x
  | x :: xs => x ++ sep ++ join sep xs
  end.

(** Split at the last occurrence of [c]: the text before and after it. *)
Fixpoint rsplit_once (c : ascii) (s : string) : option (string * string) :=
  match s with
  | EmptyString => None
  | String a r =>
      match rsplit_once c r with
      | Some (pre, post) => Some (String a pre, post)
      | None => if Ascii.eqb a c then Some (EmptyString, r) else None
      end
  end.

(** Drop the last character, when it is [c]. *)
Fixpoint strip_last (c : ascii) (s : string) : option string :=
  match s with
  | EmptyString => None
  | String a EmptyString => if Ascii.eqb a c then Some EmptyString else None
  | String a r => option_map (String a) (strip_last c r)
  end.

End Str.

(* ===================================================================== *)
(** * JSON paths ([KustoMemoryLayer._parse_json_path] and
      [_traverse_json_path]) *)
(* ===================================================================== *)

Module JsonPath.

(** A parsed path is a list of [str | int]; the wildcard is the string
    of one star, exactly as the parser appends it. *)
Inductive key : Type :=
| KStr (s : string)
| KInt (i : Z).

Definition is_wildcard (k : key) : bool :=
  match k with
  | KStr s => String.eqb s "*"
  | KInt _ => false
  end.

(** [re.match] of the segment against the pattern of the source: a
    greedy non-empty group, an opening bracket, a greedy group, a closing
    bracket, end of text.  Returns the groups [(name, index)].
    [.] does not match a newline and [$] also matches just before a final
    newline, so one trailing newline is set aside, the rest must be free
    of newlines and end with a closing bracket; the greedy [(.+)] then
    stops at the last opening bracket, which must not be the first
    character. *)
Definition match_segment (segment : string) : option (string * string) :=
  let t := match Str.strip_last Str.newline segment with
           | Some t => t
           | None => segment
           end in
  match Str.strip_last "]" t with
  | None => None
  | Some body =>
      if Str.contains Str.newline body then None
      else match Str.rsplit_once "[" body with
           | Some (String a name, index) => Some (String a name, index)
           | _ => None
           end
  end.

(** The characters [int()] skips around an ASCII numeral. *)
Definition is_space (c : ascii) : bool :=
  let n := nat_of_ascii c in
  ((9 <=? n) && (n <=? 13))%nat || (n =? 32)%nat.

Definition is_digit (c : ascii) : bool :=
  let n := nat_of_ascii c in ((48 <=? n) && (n <=? 57))%nat.

Fixpoint lstrip (s : string) : string :=
  match s with
  | String a r => if is_space a then lstrip r else s
  | EmptyString => EmptyString
  end.

Fixpoint all_space (s : string) : bool :=
  match s with
  | EmptyString => true
  | String a r => is_space a && all_space r
  end.

(** The numeral proper: digits with single underscores between them.
    Returns the digits (underscores dropped) and the text after the
    numeral; [None] when an underscore is leading, doubled or trailing.
    [prev_digit] tells whether the previous character was a digit. *)
Fixpoint scan_digits (prev_digit : bool) (s : string) : option (string * string) :=
  match s with
  | EmptyString => if prev_digit then Some (EmptyString, EmptyString) else None
  | String a r =>
      if is_digit a then
        match scan_digits true r with
        | Some (ds, rest) => Some (String a ds, rest)
        | None => None
        end
      else if Ascii.eqb a "_" then
        if prev_digit then
          match r with
          | String b _ => if is_digit b then scan_digits false r else None
          | EmptyString => None
          end
        else None
      else if prev_digit then Some (EmptyString, s) else None
  end.

(** [int(text)] on ASCII text, base ten: optional surrounding white
    space, an optional sign, then the numeral.  [None] is [ValueError].
    [int] also reads the decimal digits and the white space of other
    scripts; on a text with a character outside ASCII the definition does
    not follow it, and the statements that a parse fails are made for
    ASCII text. *)
Definition py_int (text : string) : option Z :=
  let t := lstrip text in
  let '(negative, u) :=
    match t with
    | String "-" r => (true, r)
    | String "+" r => (false, r)
    | _ => (false, t)
    end in
  match scan_digits false u with
  | Some (ds, rest) =>
      if all_space rest then
        match NilEmpty.uint_of_string ds with
        | Some d => Some (if negative then - Z.of_uint d else Z.of_uint d)
        | None => None
        end
      else None
  | None => None
  end.

(** The keys one dot-separated segment contributes. *)
Definition parse_segment (segment : string) : result (list key) :=
  match match_segment segment with
  | Some (name, index) =>
      if String.eqb index "*" then Ok [KStr name; KStr "*"]
      else match py_int index with
           | Some i => Ok [KStr name; KInt i]
           | None => Raise ValueError
           end
  | None => Ok [KStr segment]
  end.

Fixpoint parse_segments (segments : list string) : result (list key) :=
  match segments with
  | [] => Ok []
  | s :: rest =>
      (ks <- parse_segment s ;;
       more <- parse_segments rest ;;
       Ok (ks ++ more)%list)%result
  end.

Definition _parse_json_path (path : string) : result (list key) :=
  parse_segments (Str.split "." path).

(** The traversal recurses on the remaining keys. *)
Fixpoint _traverse_json_path (data : pyval) (keys : list key) {struct keys}
  : list pyval :=
  match keys with
  | [] => [data]
  | k :: remaining =>
      if is_wildcard k then
        match data with
        | PList items =>
            flat_map (fun item => _traverse_json_path item remaining) items
        | _ => []
        end
      else
        match k with
        | KInt i =>
            match data with
            | PList items =>
                match py_list_getitem items i with
                | Some item => _traverse_json_path item remaining
                | None => []
                end
            | _ => []
            end
        | KStr name =>
            match data with
            | PDict d =>
                match dict_get d name with
                | Some v => _traverse_json_path v remaining
                | None => []
                end
            | _ => []
            end
        end
  end.

End JsonPath.

(* ===================================================================== *)
(** * The literal encoder and the query builder ([store/kql_builder.py]) *)
(* ===================================================================== *)

Module Kql.

(** [repr] of an integer. *)
Definition repr_int (z : Z) : string := NilZero.string_of_int (Z.to_int z).

Section Encoder.

(** [repr] of the values the encoder has no case for (floats,
    timestamps): the interpreter's text for them. *)
Variable py_repr : pyval -> string.
(** [datetime.isoformat]. *)
Variable isoformat : Z -> string.

Definition SPECIAL_CHARS : list ascii := [Str.backslash].

(** The [str] case of [_kusto_literal]. *)
Definition _kusto_literal_str (value : string) : string :=
  if Str.contains Str.newline value
     || Str.contains Str.carriage_return value
     || existsb (fun c => Str.contains c value) SPECIAL_CHARS
  then "```" ++ value ++ "```"
  else
    let escaped := Str.replace Str.quote "''" value in
    "'" ++ escaped ++ "'".

Fixpoint _kusto_literal (value : pyval) : string :=
  match value with
  | PNone => "null"
  | PBool b => if b then "true" else "false"
  | PStr s => _kusto_literal_str s
  | PDict d =>
      let inner :=
        Str.join ", "
          ((fix items (d : list (string * pyval)) : list string :=
              match d with
              | [] => []
              | (k, v) :: d' =>
                  (_kusto_literal_str k ++ ": " ++ _kusto_literal v) :: items d'
              end) d) in
      "{" ++ inner ++ "}"
  | PList l =>
      let body := Str.join ", " (List.map _kusto_literal l) in
      "[" ++ body ++ "]"
  | PTuple l =>
      let body := Str.join ", " (List.map _kusto_literal l) in
      let body := if (List.length l =? 1)%nat then body ++ "," else body in
      "(" ++ body ++ ")"
  | PInt z => repr_int z
  | other => py_repr other
  end.

Definition escape_kql_string (value : string) : string :=
  Str.replace Str.quote "''" value.

Definition serialize_value (value : pyval) : string :=
  match value with
  | PStr s => String Str.dquote (escape_kql_string s) ++ String Str.dquote ""
  | PBool b => if b then "true" else "false"
  | PList _ | PDict _ => "dynamic(" ++ _kusto_literal value ++ ")"
  | PDatetime t =>
      "datetime(" ++ String Str.dquote (isoformat t) ++ String Str.dquote ")"
  | _ => _kusto_literal value
  end.

End Encoder.

End Kql.

(* ===================================================================== *)
(** * The remote store ([setup_environment.py]) *)
(* ===================================================================== *)

(** The store is reached only through query and command text.  It is
    modelled by what that text denotes: four raw append-only tables, the
    live views [initialize_kusto] declares over them, and the filters and
    projections of the queries the builder emits.  A command is the row it
    appends.  The table names carried by the operations select nothing in
    the model: there is one table per role.

    The code writes an identifier into a query between single quotes
    without escaping it, and into a command through [serialize_value],
    between double quotes with single quotes doubled.  Text and denotation
    agree for the identifiers that both forms carry as they are
    ([plain_text] below: printable ASCII without quote, double quote and
    backslash); for any other identifier the text is another query, or no
    query at all, and the model does not describe what the store answers.
    The statements about lookups and appended rows are therefore made for
    plain identifiers. *)
Module Kusto.

(** Memory raw: Namespace, Key, Value, CreatedAt, UpdatedAt, Tags,
    Deleted. *)
Record memory_row : Type := MemoryRow {
  m_Namespace : string;
  m_Key : string;
  m_Value : pyval;
  m_CreatedAt : Z;
  m_UpdatedAt : Z;
  m_Tags : pyval;
  m_Deleted : bool
}.

(** Embedding raw: Namespace, ParentKey, ChunkOrdinal, ChunkString,
    Embedding, EmbeddingUri, CreatedAt, Deleted. *)
Record embedding_row : Type := EmbeddingRow {
  e_Namespace : string;
  e_ParentKey : string;
  e_ChunkOrdinal : Z;
  e_ChunkString : string;
  e_Embedding : list Q;
  e_EmbeddingUri : string;
  e_CreatedAt : Z;
  e_Deleted : bool
}.

(** Checkpoint raw: ThreadId, CheckpointNamespace, CheckpointId,
    ParentCheckpointId, Snapshot, CreatedAt, Deleted. *)
Record checkpoint_row : Type := CheckpointRow {
  c_ThreadId : string;
  c_CheckpointNamespace : string;
  c_CheckpointId : string;
  c_ParentCheckpointId : string;
  c_Snapshot : pyval;
  c_CreatedAt : Z;
  c_Deleted : bool
}.

(** Checkpoint-writes raw: ThreadId, CheckpointNamespace, CheckpointId,
    TaskId, Writes, CreatedAt. *)
Record writes_row : Type := WritesRow {
  w_ThreadId : string;
  w_CheckpointNamespace : string;
  w_CheckpointId : string;
  w_TaskId : string;
  w_Writes : pyval;
  w_CreatedAt : Z
}.

Record database : Type := Database {
  store_raw : list memory_row;
  embeddings_raw : list embedding_row;
  checkpoints_raw : list checkpoint_row;
  checkpoint_writes_raw : list writes_row
}.

Definition empty : database := Database [] [] [] [].

(** The four [.set-or-append] targets. *)
Definition append_store (rs : list memory_row) (db : database) : database :=
  Database (store_raw db ++ rs) (embeddings_raw db)
           (checkpoints_raw db) (checkpoint_writes_raw db).

Definition append_embeddings (rs : list embedding_row) (db : database) : database :=
  Database (store_raw db) (embeddings_raw db ++ rs)
           (checkpoints_raw db) (checkpoint_writes_raw db).

Definition append_checkpoint (r : checkpoint_row) (db : database) : database :=
  Database (store_raw db) (embeddings_raw db)
           (checkpoints_raw db ++ [r]) (checkpoint_writes_raw db).


Section Summarize.

(** [summarize arg_max] of a metric by a key: one row per key, a row of the
    greatest metric.  Among rows that tie, and for the order of the groups,
    the store promises nothing; here the earliest row of the greatest metric
    stands for its group, and groups come in order of first appearance. *)
Context {A : Type}.
Variable same_key : A -> A -> bool.
Variable metric : A -> Z.

Fixpoint upsert_max (r : A) (reps : list A) : list A :=
  match reps with
  | [] => [r]
  | x :: xs =>
      if same_key x r
      then (if metric x <? metric r then r else x) :: xs
      else x :: upsert_max r xs
  end.

Definition summarize_arg_max (rows : list A) : list A :=
  fold_left (fun reps r => upsert_max r reps) rows [].

End Summarize.

(** The views of [initialize_kusto]. *)
Definition store_view (db : database) : list memory_row :=
  filter (fun r => negb (m_Deleted r))
    (summarize_arg_max
       (fun a b => String.eqb (m_Namespace a) (m_Namespace b)
                   && String.eqb (m_Key a) (m_Key b))
       m_UpdatedAt (store_raw db)).

Definition embeddings_view (db : database) : list embedding_row :=
  filter (fun r => negb (e_Deleted r))
    (summarize_arg_max
       (fun a b => String.eqb (e_Namespace a) (e_Namespace b)
                   && String.eqb (e_ParentKey a) (e_ParentKey b)
                   && (e_ChunkOrdinal a =? e_ChunkOrdinal b))
       e_CreatedAt (embeddings_raw db)).

Definition checkpoints_view (db : database) : list checkpoint_row :=
  filter (fun r => negb (c_Deleted r))
    (summarize_arg_max
       (fun a b => String.eqb (c_ThreadId a) (c_ThreadId b)
                   && String.eqb (c_CheckpointNamespace a) (c_CheckpointNamespace b)
                   && String.eqb (c_CheckpointId a) (c_CheckpointId b))
       c_CreatedAt (checkpoints_raw db)).

Definition checkpoint_writes_view (db : database) : list writes_row :=
  checkpoint_writes_raw db.

(** The string operators [startswith] and [endswith] of the query
    language ignore letter case; [==] does not. *)
Definition lower (c : ascii) : ascii :=
  let n := nat_of_ascii c in
  if ((65 <=? n) && (n <=? 90))%nat then ascii_of_nat (n + 32) else c.

Fixpoint startswith (s pre : string) : bool :=
  match pre, s with
  | EmptyString, _ => true
  | String p pre', String a s' => Ascii.eqb (lower a) (lower p) && startswith s' pre'
  | String _ _, EmptyString => false
  end.

Fixpoint rev_string (s : string) : string :=
  match s with
  | EmptyString => EmptyString
  | String a r => rev_string r ++ String a EmptyString
  end.

Definition endswith (s suf : string) : bool :=
  startswith (rev_string s) (rev_string suf).

(** [top 1 by CreatedAt desc]: a row of the greatest [CreatedAt]. *)
Fixpoint top1_by_CreatedAt (rows : list checkpoint_row) : list checkpoint_row :=
  match rows with
  | [] => []
  | r :: rest =>
      match top1_by_CreatedAt rest with
      | [] => [r]
      | best :: _ => if c_CreatedAt r <? c_CreatedAt best then [best] else [r]
      end
  end.

End Kusto.

(* ===================================================================== *)
(** * The memory operation model ([store/memory_ops.py]) *)
(* ===================================================================== *)

(** [Literal["prefix", "suffix"]]. *)
Inductive match_mode : Type := prefix | suffix.

(** [list[str] | None | Literal[False]]. *)
Inductive index_config : Type :=
| IndexNone
| IndexFalse
| IndexPaths (paths : list string).

(** A tabular row as the client hands it over ([row.to_dict()]). *)
Definition row : Type := list (string * pyval).

(** [(ordinal, chunk_string, vector)]. *)
Definition chunk : Type := (Z * string * list Q)%type.

Module MemoryGet.
Record t : Type := Make {
  namespace : string;
  namespace_match_type : match_mode;
  key : string;
  table_name : string
}.
End MemoryGet.

Module MemoryPut.
Record t : Type := Make {
  namespace : string;
  namespace_match_type : match_mode;
  key : string;
  value : pyval;
  tags : option (list (string * pyval));
  table_name : string;
  embeddings_table_name : string;
  index : index_config;
  embedding_chunks : option (list chunk);
  embedding_model_uri : option string
}.

(** The two assignments the enrichment makes on the command. *)
Definition set_embeddings (c : t) (chunks : list chunk) (uri : option string) : t :=
  Make (namespace c) (namespace_match_type c) (key c) (value c) (tags c)
       (table_name c) (embeddings_table_name c) (index c) (Some chunks) uri.
End MemoryPut.

Module MemorySearch.
Record t : Type := Make {
  namespace : string;
  namespace_match_type : match_mode;
  query : option string;
  limit : Z;
  offset : Z;
  table_name : string;
  embeddings_table_name : string;
  query_vector : option (list Q)
}.

Definition set_query_vector (c : t) (v : list Q) : t :=
  Make (namespace c) (namespace_match_type c) (query c) (limit c) (offset c)
       (table_name c) (embeddings_table_name c) (Some v).
End MemorySearch.

Module MemoryListNamespaces.
Record t : Type := Make {
  match_conditions : option (list (match_mode * list string));
  max_depth : option Z;
  limit : Z;
  offset : Z;
  table_name : string
}.
End MemoryListNamespaces.

Inductive MemoryOp : Type :=
| OpGet (c : MemoryGet.t)
| OpPut (c : MemoryPut.t)
| OpSearch (c : MemorySearch.t)
| OpListNamespaces (c : MemoryListNamespaces.t).

(* ===================================================================== *)
(** * What the builder's queries denote ([KqlBuilder]) *)
(* ===================================================================== *)

Module KqlBuilder.
Import Kusto.

(** [cond = "startswith" if namespace_mode == "prefix" else "endswith"],
    applied as [Namespace cond 'namespace']. *)
Definition cond (namespace_mode : match_mode) (stored namespace : string) : bool :=
  match namespace_mode with
  | prefix => startswith stored namespace
  | suffix => endswith stored namespace
  end.

(** [table | where Namespace cond ns and Key == key | project Value];
    the bare table name resolves to the live view.  The source writes
    ['{namespace}'] and ['{key}'] into the text unescaped: the filter is
    what the text denotes for a plain namespace and key. *)
Definition memory_get_by_key (namespace : string) (namespace_mode : match_mode)
    (key : string) (db : database) : list row :=
  map (fun r => [("Value", m_Value r)])
    (filter (fun r => cond namespace_mode (m_Namespace r) namespace
                      && String.eqb (m_Key r) key)
       (store_view db)).

(** [table() | where Namespace cond ns and Key == key | take 1
    | project CreatedAt], for a plain namespace and key. *)
Definition memory_get_created_at (namespace : string) (namespace_mode : match_mode)
    (key : string) (db : database) : list row :=
  map (fun r => [("CreatedAt", PDatetime (m_CreatedAt r))])
    (firstn 1
       (filter (fun r => cond namespace_mode (m_Namespace r) namespace
                         && String.eqb (m_Key r) key)
          (store_view db))).

(** [embeddings() | where Namespace cond ns and ParentKey == parent_key
    and ChunkOrdinal == ordinal | take 1 | project CreatedAt], for a plain
    namespace and parent key. *)
Definition memory_embedding_get_created_at (namespace : string)
    (namespace_mode : match_mode) (parent_key : string) (ordinal : Z)
    (db : database) : list row :=
  map (fun r => [("CreatedAt", PDatetime (e_CreatedAt r))])
    (firstn 1
       (filter (fun r => cond namespace_mode (e_Namespace r) namespace
                         && String.eqb (e_ParentKey r) parent_key
                         && (e_ChunkOrdinal r =? ordinal))
          (embeddings_view db))).

(** [table() | distinct Namespace]. *)
Definition memory_list_namespaces (db : database) : list row :=
  map (fun ns => [("Namespace", PStr ns)])
    (nodup string_dec (map m_Namespace (store_view db))).

End KqlBuilder.

(* ===================================================================== *)
(** * The memory execution engine ([store/memory_layer.py]) *)
(* ===================================================================== *)

(** What an operation can change: the store, and the record of the calls
    made to the injected embedding function (the text of each call, in
    order). *)
Record world : Type := World {
  db : Kusto.database;
  embedding_calls : list string
}.

(** Code that reads and changes the world and may raise.  A raise keeps
    the effects made before it. *)
Definition M (A : Type) : Type := world -> result A * world.

Definition ret {A} (a : A) : M A := fun w => (Ok a, w).

Definition bind {A B} (c : M A) (k : A -> M B) : M B :=
  fun w =>
    match c w with
    | (Ok a, w') => k a w'
    | (Raise e, w') => (Raise e, w')
    end.

Definition lift {A} (r : result A) : M A := fun w => (r, w).

Definition query {A} (q : Kusto.database -> A) : M A := fun w => (Ok (q (db w)), w).

Definition command (f : Kusto.database -> Kusto.database) : M unit :=
  fun w => (Ok tt, World (f (db w)) (embedding_calls w)).

Declare Scope exec_scope.
Delimit Scope exec_scope with exec.
Notation "x <- c ;; k" := (bind c (fun x => k))
  (at level 61, c at next level, right associativity) : exec_scope.
Notation "c ;; k" := (bind c (fun _ => k))
  (at level 61, right associativity) : exec_scope.

(** [EmbeddingFunction = Callable[[Any], tuple[list[float], str]]]. *)
Definition EmbeddingFunction : Type := string -> list Q * string.

(** One call of the embedding function. *)
Definition call_embedding (f : EmbeddingFunction) (text : string) : M (list Q * string) :=
  fun w => (Ok (f text), World (db w) (embedding_calls w ++ [text])).

Record KustoMemoryLayer : Type := MakeLayer {
  _embedding_fn : option EmbeddingFunction
}.

(** What [execute] hands back: [Any] in the source, one shape per kind of
    operation. *)
Inductive raw_result : Type :=
| RawGet (data : option row)
| RawPut
| RawSearch (items : list row)
| RawNamespaces (namespaces : list string).

(** [enumerate(xs)]. *)
Fixpoint enumerate_from {A} (i : Z) (xs : list A) : list (Z * A) :=
  match xs with
  | [] => []
  | x :: r => (i, x) :: enumerate_from (i + 1) r
  end.

Definition enumerate {A} (xs : list A) : list (Z * A) := enumerate_from 0 xs.

Section Engine.

(** [json.dumps]. *)
Variable json_dumps : pyval -> string.

(** The similarity and the text search run inside the store (cosine
    similarity, term matching); their tabular answers are taken as the
    store gives them.  Arguments as the builder receives them. *)
Variable similarity_rows :
  string -> match_mode -> list Q -> Z -> Kusto.database -> list row.
Variable content_rows :
  string -> match_mode -> string -> Z -> Kusto.database -> list row.

Import JsonPath.

Fixpoint _extract_fields (value : pyval) (paths : list string)
  : result (list (string * string)) :=
  match paths with
  | [] => Ok []
  | path :: rest =>
      (keys <- _parse_json_path path ;;
       let values := _traverse_json_path value keys in
       let here :=
         map (fun extracted_value =>
                match extracted_value with
                | PStr s => (path, s)
                | _ => (path, json_dumps extracted_value)
                end) values in
       more <- _extract_fields value rest ;;
       Ok (here ++ more)%list)%result
  end.

(** The loop over [enumerate(field_values)]: one call per field value. *)
Fixpoint embed_fields (f : EmbeddingFunction)
    (fields : list (Z * (string * string)))
    (chunks : list chunk) (metadata : option string)
  : M (list chunk * option string) :=
  match fields with
  | [] => ret (chunks, metadata)
  | (ordinal, (path, serialized_field_value)) :: rest =>
      (vm <- call_embedding f serialized_field_value ;;
       let '(vector, meta) := vm in
       embed_fields f rest
         (chunks ++ [(ordinal, serialized_field_value, vector)])
         (match metadata with None => Some meta | Some m => Some m end))%exec
  end.

(** [_enrich_command_with_embeddings] on a [MemoryPut]. *)
Definition _enrich_put (self : KustoMemoryLayer) (command : MemoryPut.t)
  : M MemoryPut.t :=
  match _embedding_fn self with
  | None => ret command
  | Some f =>
      match MemoryPut.index command with
      | IndexFalse => ret command
      | IndexNone =>
          let serialized_value := json_dumps (MemoryPut.value command) in
          (vm <- call_embedding f serialized_value ;;
           let '(vector, metadata) := vm in
           ret (MemoryPut.set_embeddings command
                  [(0, serialized_value, vector)] (Some metadata)))%exec
      | IndexPaths paths =>
          (field_values <- lift (_extract_fields (MemoryPut.value command) paths) ;;
           cm <- embed_fields f (enumerate field_values) [] None ;;
           let '(chunks, metadata) := cm in
           ret (MemoryPut.set_embeddings command chunks metadata))%exec
      end
  end.

(** [_enrich_command_with_embeddings] on a [MemorySearch]. *)
Definition _enrich_search (self : KustoMemoryLayer) (command : MemorySearch.t)
  : M MemorySearch.t :=
  match _embedding_fn self with
  | None => ret command
  | Some f =>
      match MemorySearch.query command with
      | Some q =>
          if String.eqb q EmptyString then ret command
          else
            (vm <- call_embedding f q ;;
             ret (MemorySearch.set_query_vector command (fst vm)))%exec
      | None => ret command
      end
  end.

(** [_ingest_rows]: one [.set-or-append] of all the rows, and no command
    at all for an empty list.  The table is given by its append.  The
    source prints each cell with [serialize_value]; the rows appended are
    those the command text denotes when the texts of the cells are
    plain. *)
Definition _ingest_rows {R} (table : list R -> Kusto.database -> Kusto.database)
    (rows : list R) : M unit :=
  match rows with
  | [] => ret tt
  | _ => command (table rows)
  end.

Definition _execute_get (cmd : MemoryGet.t) : M (option row) :=
  (rows <- query (KqlBuilder.memory_get_by_key
                    (MemoryGet.namespace cmd)
                    (MemoryGet.namespace_match_type cmd)
                    (MemoryGet.key cmd)) ;;
   match rows with
   | [] => ret None
   | data :: _ => ret (Some data)
   end)%exec.

(** The [CreatedAt] of the first row of a lookup, when there is a row and
    its cell is not null; otherwise the default. *)
Definition stored_created_at (rows : list row) (default : Z) : Z :=
  match rows with
  | data :: _ =>
      match dict_get data "CreatedAt" with
      | Some (PDatetime t) => t
      | _ => default
      end
  | [] => default
  end.

(** The loop of [_put_embeddings]: each chunk looks up its own earlier
    [CreatedAt] by ordinal; nothing is ingested before the loop ends. *)
Fixpoint embedding_rows_of (cmd : MemoryPut.t) (now : Z) (chunks : list chunk)
  : M (list Kusto.embedding_row) :=
  match chunks with
  | [] => ret []
  | (ordinal, chunk_string, vector) :: rest =>
      (emb_rows <- query (KqlBuilder.memory_embedding_get_created_at
                            (MemoryPut.namespace cmd)
                            (MemoryPut.namespace_match_type cmd)
                            (MemoryPut.key cmd) ordinal) ;;
       let chunk_created_at := stored_created_at emb_rows now in
       let r := Kusto.EmbeddingRow
                  (MemoryPut.namespace cmd) (MemoryPut.key cmd) ordinal
                  (Str.replace Str.dquote "'" chunk_string) vector
                  (match MemoryPut.embedding_model_uri cmd with
                   | Some u => u
                   | None => EmptyString
                   end)
                  chunk_created_at false in
       more <- embedding_rows_of cmd now rest ;;
       ret (r :: more))%exec
  end.

Definition _put_embeddings (cmd : MemoryPut.t) (now : Z) : M unit :=
  match MemoryPut.embedding_chunks cmd with
  | None | Some [] => ret tt
  | Some chunks =>
      (embedding_rows <- embedding_rows_of cmd now chunks ;;
       _ingest_rows Kusto.append_embeddings embedding_rows)%exec
  end.

Definition _put_raw (cmd : MemoryPut.t) (now : Z) : M unit :=
  (rows <- query (KqlBuilder.memory_get_created_at
                    (MemoryPut.namespace cmd)
                    (MemoryPut.namespace_match_type cmd)
                    (MemoryPut.key cmd)) ;;
   let created_at := stored_created_at rows now in
   _ingest_rows Kusto.append_store
     [Kusto.MemoryRow (MemoryPut.namespace cmd) (MemoryPut.key cmd)
        (MemoryPut.value cmd) created_at now
        (match MemoryPut.tags cmd with
         | Some tags => PDict tags
         | None => PDict []
         end)
        false] ;;
   _put_embeddings cmd now)%exec.

Definition _execute_put (cmd : MemoryPut.t) (now : Z) : M unit :=
  match MemoryPut.value cmd with
  | PNone =>
      _ingest_rows Kusto.append_store
        [Kusto.MemoryRow (MemoryPut.namespace cmd) (MemoryPut.key cmd)
           (PDict []) now now (PDict []) true]
  | _ => _put_raw cmd now
  end.

Definition _search_with_embeddings (cmd : MemorySearch.t) (q : string)
  : M (list row) :=
  let query_vector := match MemorySearch.query_vector cmd with
                      | Some v => v
                      | None => []
                      end in
  (rows <- query (similarity_rows (MemorySearch.namespace cmd)
                    (MemorySearch.namespace_match_type cmd)
                    query_vector (MemorySearch.limit cmd)) ;;
   ret (py_slice rows (MemorySearch.offset cmd)
          (MemorySearch.offset cmd + MemorySearch.limit cmd)))%exec.

Definition _search_with_text (cmd : MemorySearch.t) (q : string)
  : M (list row) :=
  let query_escaped := Str.replace Str.quote "''" q in
  (rows <- query (content_rows (MemorySearch.namespace cmd)
                    (MemorySearch.namespace_match_type cmd)
                    query_escaped (MemorySearch.limit cmd)) ;;
   ret (py_slice rows (MemorySearch.offset cmd)
          (MemorySearch.offset cmd + MemorySearch.limit cmd)))%exec.

Definition _execute_search (cmd : MemorySearch.t) : M (list row) :=
  let q := match MemorySearch.query cmd with
           | Some q => q
           | None => EmptyString
           end in
  match MemorySearch.query_vector cmd with
  | Some _ =>
      if String.eqb q EmptyString then _search_with_text cmd q
      else _search_with_embeddings cmd q
  | None => _search_with_text cmd q
  end.

Definition _execute_list_namespaces (cmd : MemoryListNamespaces.t)
  : M (list string) :=
  (rows <- query KqlBuilder.memory_list_namespaces ;;
   let namespaces :=
     flat_map (fun data =>
                 match dict_get data "Namespace" with
                 | Some (PStr ns) =>
                     if String.eqb ns EmptyString then [] else [ns]
                 | _ => []
                 end) rows in
   ret (py_slice namespaces (MemoryListNamespaces.offset cmd)
          (MemoryListNamespaces.offset cmd + MemoryListNamespaces.limit cmd)))%exec.

(** [execute]: enrich a put or a search, then dispatch on the kind. *)
Definition execute (self : KustoMemoryLayer) (op : MemoryOp) (now : Z)
  : M raw_result :=
  match op with
  | OpGet cmd =>
      (data <- _execute_get cmd ;; ret (RawGet data))%exec
  | OpPut cmd =>
      (cmd' <- _enrich_put self cmd ;;
       _execute_put cmd' now ;;
       ret RawPut)%exec
  | OpSearch cmd =>
      (cmd' <- _enrich_search self cmd ;;
       items <- _execute_search cmd' ;;
       ret (RawSearch items))%exec
  | OpListNamespaces cmd =>
      (ns <- _execute_list_namespaces cmd ;; ret (RawNamespaces ns))%exec
  end.

End Engine.

(* ===================================================================== *)
(** * The op translator and the store ([store/translator.py],
      [store/store.py]) *)
(* ===================================================================== *)

(** The runtime's operations ([langgraph.store.base]). *)
Module GetOp.
Record t : Type := Make {
  namespace : list string;
  key : string
}.
End GetOp.

Module PutOp.
Record t : Type := Make {
  namespace : list string;
  key : string;
  value : pyval;
  index : index_config
}.
End PutOp.

Module SearchOp.
Record t : Type := Make {
  namespace_prefix : list string;
  query : option string;
  limit : Z;
  offset : Z
}.
End SearchOp.

Module ListNamespacesOp.
Record t : Type := Make {
  match_conditions : option (list (match_mode * list string));
  max_depth : option Z;
  limit : Z;
  offset : Z
}.
End ListNamespacesOp.

Inductive Op : Type :=
| Get (op : GetOp.t)
| Put (op : PutOp.t)
| Search (op : SearchOp.t)
| ListNamespaces (op : ListNamespacesOp.t).

Record Item : Type := MakeItem {
  item_value : pyval;
  item_key : string;
  item_namespace : list string;
  item_created_at : pyval;
  item_updated_at : pyval
}.

Record SearchItem : Type := MakeSearchItem {
  si_namespace : list string;
  si_key : pyval;
  si_value : pyval;
  si_created_at : pyval;
  si_updated_at : pyval;
  si_score : pyval
}.

Inductive Result : Type :=
| ResultItem (item : option Item)
| ResultNone
| ResultSearch (items : list SearchItem)
| ResultNamespaces (namespaces : list (list string)).

Module Translator.

Section Translate.

(** [json.loads], [None] when it raises. *)
Variable json_loads : string -> option pyval.

Definition _namespace_to_str (namespace : list string) : string :=
  Str.join "/" namespace.

Definition _str_to_namespace (namespace : option string) : list string :=
  match namespace with
  | None => []
  | Some s => if String.eqb s EmptyString then [] else Str.split "/" s
  end.

(** [namespace_mode] keeps its default, [prefix], on every call the store
    makes. *)
Definition translate_op (op : Op) (table_name embeddings_table_name : string)
    (namespace_mode : match_mode) : MemoryOp :=
  match op with
  | Get op =>
      OpGet (MemoryGet.Make (_namespace_to_str (GetOp.namespace op))
               namespace_mode (GetOp.key op) table_name)
  | Put op =>
      OpPut (MemoryPut.Make (_namespace_to_str (PutOp.namespace op))
               namespace_mode (PutOp.key op) (PutOp.value op) None
               table_name embeddings_table_name (PutOp.index op) None None)
  | Search op =>
      OpSearch (MemorySearch.Make
                  (_namespace_to_str (SearchOp.namespace_prefix op))
                  namespace_mode (SearchOp.query op) (SearchOp.limit op)
                  (SearchOp.offset op) table_name embeddings_table_name None)
  | ListNamespaces op =>
      OpListNamespaces (MemoryListNamespaces.Make
                          (ListNamespacesOp.match_conditions op)
                          (ListNamespacesOp.max_depth op)
                          (ListNamespacesOp.limit op)
                          (ListNamespacesOp.offset op) table_name)
  end.

(** [row.get(name)]: [None] for a missing column. *)
Definition row_get (data : row) (name : string) : pyval :=
  match dict_get data name with
  | Some v => v
  | None => PNone
  end.

(** [a or b]. *)
Definition py_or (a b : pyval) : pyval := if py_truthy a then a else b.

(** The decoding of the [Value] cell, shared by get and search. *)
Definition decode_value (value_raw : pyval) : pyval :=
  match value_raw with
  | PStr s =>
      match json_loads s with
      | Some v => v
      | None => PDict [("value", value_raw)]
      end
  | PDict d => PDict d
  | _ => PDict [("value", value_raw)]
  end.

(** [now] is what [datetime.now(timezone.utc)] reads. *)
Definition translate_get_result (raw : option row) (op : GetOp.t) (now : Z)
  : option Item :=
  match raw with
  | None => None
  | Some data =>
      let value := decode_value (row_get data "Value") in
      let created_at := py_or (row_get data "CreatedAt") (PDatetime now) in
      let updated_at := py_or (row_get data "UpdatedAt") created_at in
      Some (MakeItem value (GetOp.key op) (GetOp.namespace op)
              created_at updated_at)
  end.

Definition translate_search_result (raw : list row) (op : SearchOp.t) (now : Z)
  : list SearchItem :=
  map (fun data =>
         let ns_tuple :=
           _str_to_namespace
             (match row_get data "Namespace" with
              | PStr s => Some s
              | _ => None
              end) in
         let value := decode_value (row_get data "Value") in
         let created_at := py_or (row_get data "CreatedAt") (PDatetime now) in
         let updated_at := py_or (row_get data "UpdatedAt") created_at in
         MakeSearchItem ns_tuple (row_get data "Key") value
           created_at updated_at (row_get data "Score"))
      raw.

Definition list_eqb (a b : list string) : bool :=
  if list_eq_dec string_dec a b then true else false.

Definition matches (conds : option (list (match_mode * list string)))
    (ns : list string) : bool :=
  match conds with
  | None => true
  | Some cs =>
      forallb (fun c =>
                 let '(match_type, path) := c in
                 let n := Z.of_nat (List.length path) in
                 match match_type with
                 | prefix => list_eqb (py_slice ns 0 n) path
                 | suffix =>
                     list_eqb (py_slice ns (- n) (Z.of_nat (List.length ns))) path
                 end) cs
  end.

Definition translate_list_namespaces_result (raw : list string)
    (op : ListNamespacesOp.t) : list (list string) :=
  let namespaces := map (fun ns => _str_to_namespace (Some ns)) raw in
  flat_map (fun ns =>
              if matches (ListNamespacesOp.match_conditions op) ns then
                match ListNamespacesOp.max_depth op with
                | Some d =>
                    if d <? Z.of_nat (List.length ns)
                    then [py_slice ns 0 d] else [ns]
                | None => [ns]
                end
              else []) namespaces.

(** [translate_result]: the shape of [raw] is the one [execute] gives for
    the kind of [op]; any other pairing cannot arise from [batch]. *)
Definition translate_result (raw : raw_result) (op : Op) (now : Z)
  : result Result :=
  match op, raw with
  | Get op, RawGet data => Ok (ResultItem (translate_get_result data op now))
  | Put _, RawPut => Ok ResultNone
  | Search op, RawSearch items =>
      Ok (ResultSearch (translate_search_result items op now))
  | ListNamespaces op, RawNamespaces ns =>
      Ok (ResultNamespaces (translate_list_namespaces_result ns op))
  | _, _ => Raise TypeError
  end.

End Translate.

End Translator.

Module KustoStore.

Section Store.

Variable json_dumps : pyval -> string.
Variable json_loads : string -> option pyval.
Variable similarity_rows :
  string -> match_mode -> list Q -> Z -> Kusto.database -> list row.
Variable content_rows :
  string -> match_mode -> string -> Z -> Kusto.database -> list row.

(** [KustoStoreConfig], without the client: the world stands for it. *)
Record t : Type := Make {
  _table_name : string;
  _embeddings_table_name : string;
  _memory : KustoMemoryLayer
}.

(** One turn of the loop of [batch]; [now] is the clock for this
    operation. *)
Definition batch_step (self : t) (op : Op) (now : Z) : M Result :=
  let command :=
    Translator.translate_op op (_table_name self)
      (_embeddings_table_name self) prefix in
  (raw_result <- execute json_dumps similarity_rows content_rows
                   (_memory self) command now ;;
   lift (Translator.translate_result json_loads raw_result op now))%exec.

(** [batch]: the operations in order, each with its clock reading; the
    first raise ends the batch. *)
Fixpoint batch (self : t) (ops : list (Op * Z)) : M (list Result) :=
  match ops with
  | [] => ret []
  | (op, now) :: rest =>
      (r <- batch_step self op now ;;
       rs <- batch self rest ;;
       ret (r :: rs))%exec
  end.

End Store.

End KustoStore.

(* ===================================================================== *)
(** * The checkpoint saver ([checkpoint/checkpoint.py]) *)
(* ===================================================================== *)

(** The serializers the saver calls: the injected [serde] and the
    [ormsgpack] and [json] libraries.  [bytes] is whatever they exchange. *)
Record Codec : Type := MakeCodec {
  bytes : Type;
  (** [serde.dumps_typed] *)
  dumps_typed : pyval -> string * bytes;
  (** [serde.loads_typed] *)
  loads_typed : string * bytes -> result pyval;
  (** [ormsgpack.packb] *)
  packb : pyval -> bytes;
  (** [ormsgpack.unpackb] with the hook that turns extensions into JSON *)
  unpackb : bytes -> pyval;
  (** [json.loads(b.decode("utf-8"))] *)
  json_loads_bytes : bytes -> result pyval;
  (** [s.encode("utf-8")] *)
  encode_utf8 : string -> bytes
}.

(** [config["configurable"]]: the three entries the saver reads; [None] is
    an absent key. *)
Record Configurable : Type := MakeConfigurable {
  thread_id : option string;
  checkpoint_ns : option string;
  checkpoint_id : option string
}.

(** [RunnableConfig]: the [configurable] entry may itself be absent. *)
Record RunnableConfig : Type := MakeConfig {
  configurable : option Configurable
}.

(** [Checkpoint]: a typed dict with an [id] and further entries. *)
Record Checkpoint : Type := MakeCheckpoint {
  cp_id : string;
  cp_fields : list (string * pyval)
}.

Definition checkpoint_dict (c : Checkpoint) : pyval :=
  PDict (("id", PStr (cp_id c)) :: cp_fields c).

Record CheckpointTuple : Type := MakeCheckpointTuple {
  ct_config : RunnableConfig;
  ct_checkpoint : pyval;
  ct_metadata : pyval;
  ct_parent_config : option RunnableConfig;
  ct_pending_writes : option (list pyval)
}.

Module KustoCheckpointSaver.
Import Kusto.

(** [d.get(k, default)] on an optional entry. *)
Definition get_or (v : option string) (default : string) : string :=
  match v with
  | Some s => s
  | None => default
  end.

(** [if s] for an optional string: present and not empty. *)
Definition truthy (v : option string) : bool :=
  match v with
  | Some s => negb (String.eqb s EmptyString)
  | None => false
  end.

(** [d[k]]: [KeyError] for an absent entry. *)
Definition subscript {A} (v : option A) : result A :=
  match v with
  | Some a => Ok a
  | None => Raise KeyError
  end.

Section Saver.

Variable codec : Codec.

(** The two inserts print their cells with [serialize_value]; the row
    appended is the one the command text denotes for plain identifiers. *)
Definition _insert_checkpoint_row (thread_id checkpoint_ns checkpoint_id
    parent_checkpoint_id : string) (snapshot : pyval) (deleted : bool)
    (now : Z) (db : database) : database :=
  append_checkpoint
    (CheckpointRow thread_id checkpoint_ns checkpoint_id
       parent_checkpoint_id snapshot now deleted) db.


(** The query of [get_tuple]: the row with the given id ([take 1]), or
    the latest row of the thread and namespace.  The source writes the
    three identifiers into the text between single quotes, unescaped; the
    filter is what the text denotes for plain identifiers. *)
Definition checkpoint_query (thread_id checkpoint_ns : string)
    (checkpoint_id : option string) (db : database) : list checkpoint_row :=
  if truthy checkpoint_id then
    firstn 1
      (filter (fun r => String.eqb (c_ThreadId r) thread_id
                        && String.eqb (c_CheckpointNamespace r) checkpoint_ns
                        && String.eqb (c_CheckpointId r) (get_or checkpoint_id EmptyString))
         (checkpoints_view db))
  else
    top1_by_CreatedAt
      (filter (fun r => String.eqb (c_ThreadId r) thread_id
                        && String.eqb (c_CheckpointNamespace r) checkpoint_ns)
         (checkpoints_view db)).

(** The query for the pending writes, with the same reading of its
    identifiers. *)
Definition writes_query (thread_id checkpoint_ns checkpoint_id : string)
    (db : database) : list writes_row :=
  filter (fun r => String.eqb (w_ThreadId r) thread_id
                   && String.eqb (w_CheckpointNamespace r) checkpoint_ns
                   && String.eqb (w_CheckpointId r) checkpoint_id)
    (checkpoint_writes_view db).

(** The decoding of a [Snapshot] cell. *)
Definition decode_snapshot (snapshot_data : pyval) : result pyval :=
  match snapshot_data with
  | PStr s => loads_typed codec ("json", encode_utf8 codec s)
  | PDict _ => loads_typed codec ("msgpack", packb codec snapshot_data)
  | _ => Raise TypeError
  end.

(** [tuple(item) if isinstance(item, list) else item], over a list. *)
Definition lists_to_tuples (writes_list : pyval) : pyval :=
  match writes_list with
  | PList items =>
      PList (map (fun item => match item with
                              | PList xs => PTuple xs
                              | _ => item
                              end) items)
  | _ => writes_list
  end.

Fixpoint chars (s : string) : list pyval :=
  match s with
  | EmptyString => []
  | String a r => PStr (String a EmptyString) :: chars r
  end.

(** What [list.extend] takes from its argument. *)
Definition py_iter (v : pyval) : result (list pyval) :=
  match v with
  | PList l | PTuple l => Ok l
  | PDict d => Ok (map (fun kv => PStr (fst kv)) d)
  | PStr s => Ok (chars s)
  | _ => Raise TypeError
  end.

(** The decoding of one [Writes] cell, for a cell that is truthy. *)
Definition decode_writes (writes_data : pyval) : result (list pyval) :=
  (writes_list <-
     match writes_data with
     | PStr s => loads_typed codec ("json", encode_utf8 codec s)
     | PDict _ | PList _ => loads_typed codec ("msgpack", packb codec writes_data)
     | _ => Ok writes_data
     end ;;
   py_iter (lists_to_tuples writes_list))%result.

(** The loop over the rows of the writes query. *)
Fixpoint collect_writes (rows : list writes_row) : result (list pyval) :=
  match rows with
  | [] => Ok []
  | writes_row :: rest =>
      (here <- (if py_truthy (w_Writes writes_row)
                then decode_writes (w_Writes writes_row)
                else Ok []) ;;
       more <- collect_writes rest ;;
       Ok (here ++ more)%list)%result
  end.

Definition config_for (thread_id checkpoint_ns checkpoint_id : string)
  : RunnableConfig :=
  MakeConfig (Some (MakeConfigurable (Some thread_id) (Some checkpoint_ns)
                      (Some checkpoint_id))).

Definition get_tuple (config : RunnableConfig) (db : database)
  : result (option CheckpointTuple) :=
  (c <- subscript (configurable config) ;;
   let checkpoint_ns := get_or (checkpoint_ns c) EmptyString in
   if negb (truthy (thread_id c)) then Ok None
   else
     let thread_id := get_or (thread_id c) EmptyString in
     match checkpoint_query thread_id checkpoint_ns (checkpoint_id c) db with
     | [] => Ok None
     | row :: _ =>
         checkpoint <- decode_snapshot (c_Snapshot row) ;;
         all_writes <- collect_writes
                         (writes_query thread_id checkpoint_ns
                            (c_CheckpointId row) db) ;;
         let pending_writes :=
           match all_writes with
           | [] => None
           | _ => Some all_writes
           end in
         let has_parent :=
           negb (String.eqb (c_ParentCheckpointId row) EmptyString) in
         let metadata :=
           PDict [("source", PStr "loop"); ("step", PInt (-1));
                  ("parents",
                   if has_parent
                   then PDict [(checkpoint_ns, PStr (c_ParentCheckpointId row))]
                   else PDict [])] in
         Ok (Some (MakeCheckpointTuple
                     (config_for thread_id checkpoint_ns (c_CheckpointId row))
                     checkpoint metadata
                     (if has_parent
                      then Some (config_for thread_id checkpoint_ns
                                   (c_ParentCheckpointId row))
                      else None)
                     pending_writes))
     end)%result.

(** The structural form of a serialized value, by the type tag. *)
Definition to_structural (typed : string * bytes codec) (null : pyval)
  : result pyval :=
  let '(type_, serialized_bytes) := typed in
  if String.eqb type_ "msgpack" then Ok (unpackb codec serialized_bytes)
  else if String.eqb type_ "json" then json_loads_bytes codec serialized_bytes
  else if String.eqb type_ "null" then Ok null
  else json_loads_bytes codec serialized_bytes.

Definition put (config : RunnableConfig) (checkpoint : Checkpoint) (now : Z)
    (db : database) : result RunnableConfig * database :=
  match
    (c <- subscript (configurable config) ;;
     thread_id <- subscript (thread_id c) ;;
     let checkpoint_ns := get_or (checkpoint_ns c) EmptyString in
     let parent_checkpoint_id := get_or (checkpoint_id c) EmptyString in
     let checkpoint_id := cp_id checkpoint in
     snapshot <- to_structural (dumps_typed codec (checkpoint_dict checkpoint))
                   (PDict []) ;;
     Ok (thread_id, checkpoint_ns, checkpoint_id, parent_checkpoint_id, snapshot))%result
  with
  | Ok (thread_id, checkpoint_ns, checkpoint_id, parent_checkpoint_id, snapshot) =>
      (Ok (config_for thread_id checkpoint_ns checkpoint_id),
       _insert_checkpoint_row thread_id checkpoint_ns checkpoint_id
         parent_checkpoint_id snapshot false now db)
  | Raise e => (Raise e, db)
  end.


Definition delete_thread (thread_id : string) (now : Z) (db : database)
  : database :=
  _insert_checkpoint_row thread_id EmptyString EmptyString EmptyString
    (PDict []) true now db.

End Saver.

End KustoCheckpointSaver.

(* ===================================================================== *)
(** * Vocabulary of the statements *)
(* ===================================================================== *)

(** The values a JSON path selects: the first two statements of the loop
    body of [_extract_fields]. *)
Definition json_path_values (path : string) (value : pyval) : result (list pyval) :=
  (keys <- JsonPath._parse_json_path path ;;
   Ok (JsonPath._traverse_json_path value keys))%result.

(** A field name that one segment carries as it is: not empty, no dot, no
    newline, and not the wildcard. *)
Definition plain_name (name : string) : bool :=
  negb (String.eqb name EmptyString)
  && negb (String.eqb name "*")
  && negb (Str.contains "." name)
  && negb (Str.contains Str.newline name).

(** A path without wildcard: it parses, and no key of it is the star. *)
Definition wildcard_free (path : string) : bool :=
  match JsonPath._parse_json_path path with
  | Ok keys => forallb (fun k => negb (JsonPath.is_wildcard k)) keys
  | Raise _ => false
  end.

(** The text of an extracted value, as [_extract_fields] serializes it. *)
Definition fragment_text (json_dumps : pyval -> string) (v : pyval) : string :=
  match v with
  | PStr s => s
  | _ => json_dumps v
  end.

(** The chunks for a list of fragments, numbered from [i]. *)
Fixpoint chunks_for (f : EmbeddingFunction) (i : Z) (texts : list string)
  : list chunk :=
  match texts with
  | [] => []
  | t :: rest => (i, t, fst (f t)) :: chunks_for f (i + 1) rest
  end.

Definition chunk_ordinal (c : chunk) : Z := fst (fst c).
Definition chunk_text (c : chunk) : string := snd (fst c).

(** The ordinals [0 .. n-1]. *)
Definition ordinals (n : nat) : list Z := map Z.of_nat (seq 0 n).

(** The spec's words for the quoted form: every character copied, each
    single quote written twice. *)
Definition double_each_quote (s : string) : string :=
  string_of_list_ascii
    (flat_map (fun c => if Ascii.eqb c Str.quote then [c; c] else [c])
       (list_ascii_of_string s)).

(** The characters that send a string to the raw block form. *)
Definition needs_raw_block (s : string) : Prop :=
  In Str.newline (list_ascii_of_string s)
  \/ In Str.carriage_return (list_ascii_of_string s)
  \/ In Str.backslash (list_ascii_of_string s).

(** The [Score] cell of a result row. *)
Definition score_of (r : row) : option Q :=
  match dict_get r "Score" with
  | Some (PFloat q) => Some q
  | _ => None
  end.

(** [a] comes before [b] in descending score order. *)
Definition score_ge (a b : row) : Prop :=
  match score_of a, score_of b with
  | Some x, Some y => (y <= x)%Q
  | _, _ => False
  end.

Definition descending_by_score (rows : list row) : Prop :=
  StronglySorted score_ge rows.

(** A row of the given score. *)
Definition scored_row (key : string) (q : Q) : row :=
  [("Key", PStr key); ("Score", PFloat q)].

(** The structural form of a value: what the binary encoding keeps of it,
    a tuple being written as a list. *)
Fixpoint structural (v : pyval) : pyval :=
  match v with
  | PList l => PList (map structural l)
  | PTuple l => PList (map structural l)
  | PDict d => PDict (map (fun kv => (fst kv, structural (snd kv))) d)
  | _ => v
  end.








(** The config carries no thread id: the entry is absent or empty. *)
Definition no_thread_id (c : Configurable) : Prop :=
  KustoCheckpointSaver.truthy (thread_id c) = false.

(** A live checkpoint row matches the request: same thread and namespace,
    and the requested id when one is given. *)
Definition row_matches (c : Configurable) (r : Kusto.checkpoint_row) : bool :=
  String.eqb (Kusto.c_ThreadId r)
    (KustoCheckpointSaver.get_or (thread_id c) EmptyString)
  && String.eqb (Kusto.c_CheckpointNamespace r)
       (KustoCheckpointSaver.get_or (checkpoint_ns c) EmptyString)
  && (if KustoCheckpointSaver.truthy (checkpoint_id c)
      then String.eqb (Kusto.c_CheckpointId r)
             (KustoCheckpointSaver.get_or (checkpoint_id c) EmptyString)
      else true).


(** ** Stand-ins for the outside world, for the concrete runs *)

(** A serializer that writes a value as itself. *)
Definition plain_codec : Codec :=
  MakeCodec pyval
    (fun v => match v with
              | PNone => ("null", PNone)
              | _ => ("msgpack", v)
              end)
    (fun tb => Ok (snd tb))
    (fun v => v)
    structural
    (fun b => Ok b)
    PStr.

(** An embedding function: the length of the text, and a model name. *)
Definition length_embedding : EmbeddingFunction :=
  fun text => ([inject_Z (Z.of_nat (String.length text))], "mock-model-uri").

(** A printer that tells the kinds of values apart. *)
Definition kind_dumps (v : pyval) : string :=
  match v with
  | PNone => "null"
  | PBool true => "true"
  | PBool false => "false"
  | PInt z => Kql.repr_int z
  | PStr s => String Str.dquote s ++ String Str.dquote EmptyString
  | PList _ | PTuple _ => "[...]"
  | PDict _ => "{...}"
  | _ => "?"
  end.

(** A store that answers no search. *)
Definition no_rows_3 : string -> match_mode -> list Q -> Z -> Kusto.database -> list row :=
  fun _ _ _ _ _ => [].
Definition no_rows_text : string -> match_mode -> string -> Z -> Kusto.database -> list row :=
  fun _ _ _ _ _ => [].
Definition no_json_loads : string -> option pyval := fun _ => None.

(** The texts that an explicit list of paths extracts from a value, path
    after path, each path's values in the order the traversal finds them. *)
Definition fragments (json_dumps : pyval -> string) (value : pyval)
    (paths : list string) : list string :=
  flat_map (fun path =>
              match json_path_values path value with
              | Ok values => map (fragment_text json_dumps) values
              | Raise _ => []
              end) paths.

(** The model name the enrichment records: that of the first call. *)
Definition first_model (f : EmbeddingFunction) (texts : list string)
  : option string :=
  match texts with
  | [] => None
  | t :: _ => Some (snd (f t))
  end.

(** Structural induction over values: the induction hypothesis holds for
    every element of a list or tuple and for every entry of a dict. *)
Section ValueInduction.

Variable P : pyval -> Prop.
Hypothesis P_none : P PNone.
Hypothesis P_bool : forall b, P (PBool b).
Hypothesis P_int : forall z, P (PInt z).
Hypothesis P_float : forall q, P (PFloat q).
Hypothesis P_str : forall s, P (PStr s).
Hypothesis P_datetime : forall t, P (PDatetime t).
Hypothesis P_list : forall l, Forall P l -> P (PList l).
Hypothesis P_tuple : forall l, Forall P l -> P (PTuple l).
Hypothesis P_dict : forall d, Forall (fun kv => P (snd kv)) d -> P (PDict d).


End ValueInduction.

(** A text made of decimal digits only. *)
Fixpoint digits_only (s : string) : bool :=
  match s with
  | EmptyString => true
  | String a r => JsonPath.is_digit a && digits_only r
  end.

(** Every path of an explicit index list parses. *)
Definition index_parses (index : index_config) : bool :=
  match index with
  | IndexPaths paths =>
      forallb (fun path => match JsonPath._parse_json_path path with
                           | Ok _ => true
                           | Raise _ => false
                           end) paths
  | _ => true
  end.

(** The texts a put hands to the embedding function, in order: none
    without a function or with indexing disabled, the serialized value by
    default, the extracted fragments for an explicit list of paths. *)
Definition indexed_texts (json_dumps : pyval -> string) (self : KustoMemoryLayer)
    (index : index_config) (value : pyval) : list string :=
  match _embedding_fn self, index with
  | Some _, IndexNone => [json_dumps value]
  | Some _, IndexPaths paths => fragments json_dumps value paths
  | _, _ => []
  end.

(** The key of the live store view: namespace and key. *)
Definition store_key (r : Kusto.memory_row) : string * string :=
  (Kusto.m_Namespace r, Kusto.m_Key r).

(** The key of the live checkpoint view: thread, namespace, id. *)
Definition checkpoint_key (r : Kusto.checkpoint_row) : string * string * string :=
  (Kusto.c_ThreadId r, Kusto.c_CheckpointNamespace r, Kusto.c_CheckpointId r).

(** A stored record answers a get for [namespace] and [key]: its key is
    equal and its namespace starts with the queried one. *)
Definition answers_get (namespace key : string) (r : Kusto.memory_row) : bool :=
  KqlBuilder.cond prefix (Kusto.m_Namespace r) namespace
  && String.eqb (Kusto.m_Key r) key.

(** A result is of the kind of its operation. *)
Definition result_matches_op (op : Op) (r : Result) : bool :=
  match op, r with
  | Get _, ResultItem _ => true
  | Put _, ResultNone => true
  | Search _, ResultSearch _ => true
  | ListNamespaces _, ResultNamespaces _ => true
  | _, _ => false
  end.

(** The namespace texts a listing starts from: the distinct namespaces of
    the live records, the empty text left out. *)
Definition listed_namespace_texts (d : Kusto.database) : list string :=
  filter (fun ns => negb (String.eqb ns EmptyString))
    (nodup string_dec (map Kusto.m_Namespace (Kusto.store_view d))).



(** The metadata [get_tuple] builds for a row. *)
Definition metadata_for (checkpoint_ns parent : string) : pyval :=
  PDict [("source", PStr "loop"); ("step", PInt (-1));
         ("parents",
          if negb (String.eqb parent EmptyString)
          then PDict [(checkpoint_ns, PStr parent)]
          else PDict [])].

(* ===================================================================== *)
(** * The text of the queries ([KqlBuilder]) *)
(* ===================================================================== *)

(** The queries as the builder writes them: the f-strings of the source,
    line by line.  The names are put between single quotes as they are. *)
Module KqlText.

Definition nl : string := String Str.newline EmptyString.

(** [cond = "startswith" if namespace_mode == "prefix" else "endswith"]. *)
Definition cond (namespace_mode : match_mode) : string :=
  match namespace_mode with
  | prefix => "startswith"
  | suffix => "endswith"
  end.

Definition memory_get_by_key (table_name namespace : string)
    (namespace_mode : match_mode) (key : string) : string :=
  nl ++ table_name ++ nl
  ++ "| where Namespace " ++ cond namespace_mode ++ " '" ++ namespace
  ++ "' and Key == '" ++ key ++ "'" ++ nl
  ++ "| project Value" ++ nl.

Definition memory_search_by_content (table_name namespace : string)
    (namespace_mode : match_mode) (query : string) (limit : Z) : string :=
  let query_escaped := Str.replace Str.quote "''" query in
  nl ++ table_name ++ "()" ++ nl
  ++ "| where Namespace " ++ cond namespace_mode ++ " '" ++ namespace ++ "'" ++ nl
  ++ "| where tostring(Value) has '" ++ query_escaped ++ "'" ++ nl
  ++ "| take " ++ Kql.repr_int limit ++ nl
  ++ "| project Namespace, Key, Value, Tags, CreatedAt, UpdatedAt" ++ nl.

(** The query [_execute_get] sends. *)
Definition execute_get_query (cmd : MemoryGet.t) : string :=
  memory_get_by_key (MemoryGet.table_name cmd) (MemoryGet.namespace cmd)
    (MemoryGet.namespace_match_type cmd) (MemoryGet.key cmd).

(** The query [_search_with_text] sends: the query is escaped, then
    handed to the builder. *)
Definition search_with_text_query (cmd : MemorySearch.t) (query : string) : string :=
  let query_escaped := Kql.escape_kql_string query in
  memory_search_by_content (MemorySearch.table_name cmd)
    (MemorySearch.namespace cmd) (MemorySearch.namespace_match_type cmd)
    query_escaped (MemorySearch.limit cmd).

End KqlText.

(** Every character copied, each single quote written four times. *)
Definition quadruple_each_quote (s : string) : string :=
  string_of_list_ascii
    (flat_map (fun c => if Ascii.eqb c Str.quote then [c; c; c; c] else [c])
       (list_ascii_of_string s)).

(* ===================================================================== *)
(** * The asynchronous path ([aexecute], [abatch]) *)
(* ===================================================================== *)

(** The asynchronous methods run the same steps with the client's
    asynchronous calls awaited in place.  They can raise what the
    synchronous code raises, and what the client raises. *)
Inductive aexn : Type :=
| PyExn (e : exn)
| NotImplementedError.

Inductive aresult (A : Type) : Type :=
| AOk (a : A)
| ARaise (e : aexn).
Arguments AOk {A} a.
Arguments ARaise {A} e.

Definition AM (A : Type) : Type := world -> aresult A * world.

Definition aret {A} (a : A) : AM A := fun w => (AOk a, w).

Definition abind {A B} (c : AM A) (k : A -> AM B) : AM B :=
  fun w =>
    match c w with
    | (AOk a, w') => k a w'
    | (ARaise e, w') => (ARaise e, w')
    end.

(** A synchronous call made from asynchronous code. *)
Definition of_sync {A} (c : M A) : AM A :=
  fun w =>
    match c w with
    | (Ok a, w') => (AOk a, w')
    | (Raise e, w') => (ARaise (PyExn e), w')
    end.

Declare Scope async_scope.
Delimit Scope async_scope with async.
Notation "x <- c ;; k" := (abind c (fun x => k))
  (at level 61, c at next level, right associativity) : async_scope.
Notation "c ;; k" := (abind c (fun _ => k))
  (at level 61, right associativity) : async_scope.

(** The embedding row the asynchronous put builds: its [Embedding] cell
    holds what [cmd.embedding_chunks] holds. *)
Record async_embedding_row : Type := AsyncEmbeddingRow {
  ae_Namespace : string;
  ae_ParentKey : string;
  ae_ChunkOrdinal : Z;
  ae_ChunkString : string;
  ae_Embedding : option (list chunk);
  ae_EmbeddingUri : string;
  ae_CreatedAt : Z;
  ae_Deleted : bool
}.

(** The asynchronous side of a client: [execute_query_async], given what
    the query denotes, and [execute_command_async], given the rows of the
    [.set-or-append] and told apart by the table it appends to. *)
Record AsyncClient : Type := MakeAsyncClient {
  execute_query_async : forall A : Type, (Kusto.database -> A) -> AM A;
  execute_store_command_async : list Kusto.memory_row -> AM unit;
  execute_embeddings_command_async : list async_embedding_row -> AM unit
}.

(** [KustoClient]: both asynchronous methods raise
    [NotImplementedError]. *)
Definition KustoClient : AsyncClient :=
  MakeAsyncClient
    (fun _ _ w => (ARaise NotImplementedError, w))
    (fun _ w => (ARaise NotImplementedError, w))
    (fun _ w => (ARaise NotImplementedError, w)).

Section AsyncEngine.

Variable json_dumps : pyval -> string.
Variable json_loads : string -> option pyval.
Variable similarity_rows :
  string -> match_mode -> list Q -> Z -> Kusto.database -> list row.
Variable content_rows :
  string -> match_mode -> string -> Z -> Kusto.database -> list row.
Variable client : AsyncClient.

(** [_ingest_rows_async]: nothing is sent for an empty list. *)
Definition _ingest_rows_async {R} (execute_command_async : list R -> AM unit)
    (rows : list R) : AM unit :=
  match rows with
  | [] => aret tt
  | _ => execute_command_async rows
  end.

Definition _aexecute_get (cmd : MemoryGet.t) : AM (option row) :=
  (rows <- execute_query_async client _
             (KqlBuilder.memory_get_by_key
                (MemoryGet.namespace cmd)
                (MemoryGet.namespace_match_type cmd)
                (MemoryGet.key cmd)) ;;
   match rows with
   | [] => aret None
   | data :: _ => aret (Some data)
   end)%async.

(** The loop of [_aput_embeddings]. *)
Fixpoint aembedding_rows_of (cmd : MemoryPut.t) (now : Z) (chunks : list chunk)
  : AM (list async_embedding_row) :=
  match chunks with
  | [] => aret []
  | (ordinal, chunk_string, vector) :: rest =>
      (emb_rows <- execute_query_async client _
                     (KqlBuilder.memory_embedding_get_created_at
                        (MemoryPut.namespace cmd)
                        (MemoryPut.namespace_match_type cmd)
                        (MemoryPut.key cmd) ordinal) ;;
       let chunk_created_at := stored_created_at emb_rows now in
       let vector := MemoryPut.embedding_chunks cmd in
       let r := AsyncEmbeddingRow
                  (MemoryPut.namespace cmd) (MemoryPut.key cmd) ordinal
                  chunk_string vector
                  (match MemoryPut.embedding_model_uri cmd with
                   | Some u => u
                   | None => EmptyString
                   end)
                  chunk_created_at false in
       more <- aembedding_rows_of cmd now rest ;;
       aret (r :: more))%async
  end.

Definition _aput_embeddings (cmd : MemoryPut.t) (now : Z) : AM unit :=
  match MemoryPut.embedding_chunks cmd with
  | None | Some [] => aret tt
  | Some chunks =>
      (embedding_rows <- aembedding_rows_of cmd now chunks ;;
       _ingest_rows_async (execute_embeddings_command_async client)
         embedding_rows)%async
  end.

Definition _aput_raw (cmd : MemoryPut.t) (now : Z) : AM unit :=
  let serialized_value := json_dumps (MemoryPut.value cmd) in
  let serialized_tags :=
    json_dumps (match MemoryPut.tags cmd with
                | Some tags => PDict tags
                | None => PDict []
                end) in
  (rows <- execute_query_async client _
             (KqlBuilder.memory_get_created_at
                (MemoryPut.namespace cmd)
                (MemoryPut.namespace_match_type cmd)
                (MemoryPut.key cmd)) ;;
   let created_at := stored_created_at rows now in
   _ingest_rows_async (execute_store_command_async client)
     [Kusto.MemoryRow (MemoryPut.namespace cmd) (MemoryPut.key cmd)
        (PStr serialized_value) created_at now (PStr serialized_tags) false] ;;
   _aput_embeddings cmd now)%async.

Definition _aexecute_put (cmd : MemoryPut.t) (now : Z) : AM unit :=
  match MemoryPut.value cmd with
  | PNone =>
      _ingest_rows_async (execute_store_command_async client)
        [Kusto.MemoryRow (MemoryPut.namespace cmd) (MemoryPut.key cmd)
           (PStr (json_dumps PNone)) now now (PStr (json_dumps (PDict []))) true]
  | _ => _aput_raw cmd now
  end.

Definition _asearch_with_embeddings (cmd : MemorySearch.t) (q : string)
  : AM (list row) :=
  let query_vector := match MemorySearch.query_vector cmd with
                      | Some v => v
                      | None => []
                      end in
  (rows <- execute_query_async client _
             (similarity_rows (MemorySearch.namespace cmd)
                (MemorySearch.namespace_match_type cmd)
                query_vector (MemorySearch.limit cmd)) ;;
   aret (py_slice rows (MemorySearch.offset cmd)
           (MemorySearch.offset cmd + MemorySearch.limit cmd)))%async.

Definition _asearch_with_text (cmd : MemorySearch.t) (q : string)
  : AM (list row) :=
  let query_escaped := Kql.escape_kql_string q in
  (rows <- execute_query_async client _
             (content_rows (MemorySearch.namespace cmd)
                (MemorySearch.namespace_match_type cmd)
                query_escaped (MemorySearch.limit cmd)) ;;
   aret (py_slice rows (MemorySearch.offset cmd)
           (MemorySearch.offset cmd + MemorySearch.limit cmd)))%async.

Definition _aexecute_search (cmd : MemorySearch.t) : AM (list row) :=
  let q := match MemorySearch.query cmd with
           | Some q => q
           | None => EmptyString
           end in
  match MemorySearch.query_vector cmd with
  | Some _ =>
      if String.eqb q EmptyString then _asearch_with_text cmd q
      else _asearch_with_embeddings cmd q
  | None => _asearch_with_text cmd q
  end.

Definition _aexecute_list_namespaces (cmd : MemoryListNamespaces.t)
  : AM (list string) :=
  (rows <- execute_query_async client _ KqlBuilder.memory_list_namespaces ;;
   let namespaces :=
     flat_map (fun data : row =>
                 match dict_get data "Namespace" with
                 | Some (PStr ns) =>
                     if String.eqb ns EmptyString then [] else [ns]
                 | _ => []
                 end) rows in
   aret (py_slice namespaces (MemoryListNamespaces.offset cmd)
           (MemoryListNamespaces.offset cmd + MemoryListNamespaces.limit cmd)))%async.

(** [aexecute]: the enrichment is the synchronous one. *)
Definition aexecute (self : KustoMemoryLayer) (op : MemoryOp) (now : Z)
  : AM raw_result :=
  match op with
  | OpGet cmd =>
      (data <- _aexecute_get cmd ;; aret (RawGet data))%async
  | OpPut cmd =>
      (cmd' <- of_sync (_enrich_put json_dumps self cmd) ;;
       _aexecute_put cmd' now ;;
       aret RawPut)%async
  | OpSearch cmd =>
      (cmd' <- of_sync (_enrich_search self cmd) ;;
       items <- _aexecute_search cmd' ;;
       aret (RawSearch items))%async
  | OpListNamespaces cmd =>
      (ns <- _aexecute_list_namespaces cmd ;; aret (RawNamespaces ns))%async
  end.

(** [abatch], for a store on this client. *)
Fixpoint abatch (self : KustoStore.t) (ops : list (Op * Z)) : AM (list Result) :=
  match ops with
  | [] => aret []
  | (op, now) :: rest =>
      let command :=
        Translator.translate_op op (KustoStore._table_name self)
          (KustoStore._embeddings_table_name self) prefix in
      (raw_result <- aexecute (KustoStore._memory self) command now ;;
       r <- of_sync (lift (Translator.translate_result json_loads raw_result op now)) ;;
       rs <- abatch self rest ;;
       aret (r :: rs))%async
  end.

End AsyncEngine.

(** A client that answers: queries are evaluated on the store, commands on
    the store table append their rows, commands on the embedding table are
    accepted. *)
Definition answering_client : AsyncClient :=
  MakeAsyncClient
    (fun _ q w => (AOk (q (db w)), w))
    (fun rows w => (AOk tt, World (Kusto.append_store rows (db w)) (embedding_calls w)))
    (fun _ w => (AOk tt, w)).


(** The fields of a put that make the request: all but the two the
    enrichment assigns. *)
Definition same_request (a b : MemoryPut.t) : Prop :=
  MemoryPut.namespace a = MemoryPut.namespace b
  /\ MemoryPut.namespace_match_type a = MemoryPut.namespace_match_type b
  /\ MemoryPut.key a = MemoryPut.key b
  /\ MemoryPut.value a = MemoryPut.value b
  /\ MemoryPut.tags a = MemoryPut.tags b
  /\ MemoryPut.table_name a = MemoryPut.table_name b
  /\ MemoryPut.embeddings_table_name a = MemoryPut.embeddings_table_name b
  /\ MemoryPut.index a = MemoryPut.index b.

(** ** Texts the store reads back as written *)

(** The code pastes an identifier into its query text between single
    quotes, as it is, and into its command text between double quotes,
    with each single quote doubled.  A character that both forms carry as
    it is: printable ASCII, neither of the two quotes, not the
    backslash. *)
Definition plain_char (c : ascii) : bool :=
  let n := nat_of_ascii c in
  (32 <=? n)%nat && (n <=? 126)%nat
  && negb (Ascii.eqb c Str.quote)
  && negb (Ascii.eqb c Str.dquote)
  && negb (Ascii.eqb c Str.backslash).

(** A text made of such characters.  The model of the store gives what
    the queries and commands of the code denote for such texts; the
    statements about lookups and appended rows are made for them. *)
Definition plain_text (s : string) : bool :=
  forallb plain_char (list_ascii_of_string s).

(** The three entries of a [configurable], each read with the empty text
    for an absent one, are plain. *)
Definition plain_configurable (c : Configurable) : bool :=
  plain_text (KustoCheckpointSaver.get_or (thread_id c) EmptyString)
  && plain_text (KustoCheckpointSaver.get_or (checkpoint_ns c) EmptyString)
  && plain_text (KustoCheckpointSaver.get_or (checkpoint_id c) EmptyString).

(** A config whose [configurable] entry, when it has one, is plain. *)
Definition plain_config (config : RunnableConfig) : bool :=
  match configurable config with
  | Some c => plain_configurable c
  | None => true
  end.

(** ASCII text.  [JsonPath.py_int] reads the numerals and the white space
    of ASCII; the numerals of other scripts, which [int] also reads, are
    not ASCII. *)
Definition ascii_text (s : string) : bool :=
  forallb (fun c => (nat_of_ascii c <? 128)%nat) (list_ascii_of_string s).

(** The config carries no thread id: it has no [configurable] entry, or
    the entry has no thread id or the empty one. *)
Definition carries_no_thread_id (config : RunnableConfig) : Prop :=
  match configurable config with
  | Some c => no_thread_id c
  | None => True
  end.

(* ===================================================================== *)
(** * Facts about strings *)
(* ===================================================================== *)

Lemma append_assoc (a b c : string) : (a ++ b) ++ c = a ++ b ++ c.
Proof. induction a as [|x a IH]; simpl; [reflexivity | now rewrite IH]. Qed.

Lemma contains_app (c : ascii) (a b : string) :
  Str.contains c (a ++ b) = Str.contains c a || Str.contains c b.
Proof.
  induction a as [|x a IH]; simpl; [reflexivity|].
  rewrite IH. now rewrite orb_assoc.
Qed.

Lemma replace_without (c : ascii) (new s : string) :
  Str.contains c s = false -> Str.replace c new s = s.
Proof.
  induction s as [|x s IH]; [reflexivity|]. cbn [Str.contains Str.replace].
  intros H. apply orb_false_iff in H as [Hx Hs]. now rewrite Hx, IH.
Qed.

(** A plain text holds no character that is not plain. *)
Lemma plain_text_without (c : ascii) (s : string) :
  plain_char c = false -> plain_text s = true -> Str.contains c s = false.
Proof.
  intros Hc. unfold plain_text.
  induction s as [|x s IH]; [reflexivity|].
  cbn [list_ascii_of_string forallb Str.contains].
  intros H. apply andb_true_iff in H as [Hx Hs].
  rewrite (IH Hs), orb_false_r.
  destruct (Ascii.eqb_spec x c) as [-> | Hne]; [congruence | reflexivity].
Qed.

(** The command text of a plain text is the text itself between double
    quotes: the escape finds nothing to double. *)
Lemma serialize_plain_text (py_repr : pyval -> string) (isoformat : Z -> string)
    (s : string) :
  plain_text s = true ->
  Kql.serialize_value py_repr isoformat (PStr s)
  = String Str.dquote s ++ String Str.dquote EmptyString.
Proof.
  intros H. cbn [Kql.serialize_value]. unfold Kql.escape_kql_string.
  rewrite replace_without; [reflexivity|].
  apply plain_text_without; [reflexivity | exact H].
Qed.

(** A plain text holds neither quote, so that the text between the quotes
    of a query or of a command ends where the code ends it. *)
Lemma plain_text_quote_free (s : string) :
  plain_text s = true ->
  Str.contains Str.quote s = false
  /\ Str.contains Str.dquote s = false
  /\ Str.contains Str.backslash s = false
  /\ Str.contains Str.newline s = false.
Proof.
  intros H. repeat split; apply plain_text_without; auto.
Qed.

Lemma contains_In (c : ascii) (s : string) :
  Str.contains c s = true <-> In c (list_ascii_of_string s).
Proof.
  induction s as [|x s IH]; simpl.
  - split; [discriminate | tauto].
  - rewrite orb_true_iff, IH. split; intros [H|H]; auto.
    + left. now apply Ascii.eqb_eq.
    + left. now apply Ascii.eqb_eq.
Qed.

Lemma split_without_separator (c : ascii) (s : string) :
  Str.contains c s = false -> Str.split c s = [s].
Proof.
  induction s as [|x s IH]; simpl; [reflexivity|].
  intros H. apply orb_false_iff in H as [Hx Hs].
  rewrite Hx, (IH Hs). reflexivity.
Qed.

Lemma strip_last_snoc (c : ascii) (s : string) :
  Str.strip_last c (s ++ String c EmptyString) = Some s.
Proof.
  induction s as [|x s IH]; simpl.
  - now rewrite Ascii.eqb_refl.
  - rewrite IH. destruct (s ++ String c EmptyString) eqn:E; [|reflexivity].
    destruct s; discriminate.
Qed.

Lemma strip_last_snoc_other (c d : ascii) (s : string) :
  Ascii.eqb d c = false ->
  Str.strip_last c (s ++ String d EmptyString) = None.
Proof.
  intros Hd. induction s as [|x s IH]; simpl.
  - now rewrite Hd.
  - rewrite IH. destruct (s ++ String d EmptyString) eqn:E; [|reflexivity].
    destruct s; discriminate.
Qed.

Lemma rsplit_once_absent (c : ascii) (s : string) :
  Str.contains c s = false -> Str.rsplit_once c s = None.
Proof.
  induction s as [|x s IH]; simpl; [reflexivity|].
  intros H. apply orb_false_iff in H as [Hx Hs].
  now rewrite (IH Hs), Hx.
Qed.

Lemma rsplit_once_last (c : ascii) (pre post : string) :
  Str.contains c post = false ->
  Str.rsplit_once c (pre ++ String c post) = Some (pre, post).
Proof.
  intros H. induction pre as [|x pre IH]; simpl.
  - now rewrite (rsplit_once_absent _ _ H), Ascii.eqb_refl.
  - now rewrite IH.
Qed.

(** ** Decimal numerals *)

Lemma string_of_uint_digits (d : Decimal.uint) :
  digits_only (NilEmpty.string_of_uint d) = true.
Proof. induction d; simpl; auto. Qed.

Lemma digit_is_not (a c : ascii) :
  JsonPath.is_digit a = true -> JsonPath.is_digit c = false -> Ascii.eqb a c = false.
Proof.
  intros Ha Hc. destruct (Ascii.eqb_spec a c) as [-> | ]; [congruence | reflexivity].
Qed.

Lemma digits_only_contains (c : ascii) (s : string) :
  JsonPath.is_digit c = false -> digits_only s = true -> Str.contains c s = false.
Proof.
  intros Hc. induction s as [|x s IH]; simpl; [reflexivity|].
  intros H. apply andb_true_iff in H as [Hx Hs].
  now rewrite (digit_is_not _ _ Hx Hc), (IH Hs).
Qed.

Lemma scan_digits_all (s : string) (prev : bool) :
  digits_only s = true -> (s <> EmptyString \/ prev = true) ->
  JsonPath.scan_digits prev s = Some (s, EmptyString).
Proof.
  revert prev. induction s as [|x s IH]; simpl; intros prev Hd Hne.
  - destruct Hne as [Hne | ->]; [congruence | reflexivity].
  - apply andb_true_iff in Hd as [Hx Hs]. rewrite Hx.
    now rewrite (IH true Hs (or_intror eq_refl)).
Qed.

Lemma uint_nonnil_string (d : Decimal.uint) :
  d <> Decimal.Nil -> NilEmpty.string_of_uint d <> EmptyString.
Proof. destruct d; simpl; congruence. Qed.

(** [int] reads back what [repr] prints for a negative integer. *)
Lemma py_int_repr_neg (p : positive) :
  JsonPath.py_int (Kql.repr_int (Z.neg p)) = Some (Z.neg p).
Proof.
  unfold Kql.repr_int. simpl Z.to_int.
  pose proof (DecimalPos.Unsigned.to_uint_nonnil p) as Hnil.
  unfold NilZero.string_of_int, NilZero.string_of_uint.
  destruct (Pos.to_uint p) eqn:E; try congruence;
    rewrite <- E in *;
    unfold JsonPath.py_int; simpl JsonPath.lstrip; cbv iota beta;
    rewrite (scan_digits_all _ false (string_of_uint_digits _)
               (or_introl (uint_nonnil_string _ Hnil)));
    simpl JsonPath.all_space; cbv iota;
    rewrite NilEmpty.usu; unfold Z.of_uint; rewrite DecimalPos.Unsigned.of_to;
    reflexivity.
Qed.

(* ===================================================================== *)
(** * JSON paths *)
(* ===================================================================== *)

Import JsonPath.

Lemma strip_last_contains (c : ascii) (s t : string) :
  Str.strip_last c s = Some t -> Str.contains c s = true.
Proof.
  revert t. induction s as [|x s IH]; simpl; intros t H; [discriminate|].
  destruct s as [|y s'].
  - destruct (Ascii.eqb x c); [reflexivity | discriminate].
  - destruct (Str.strip_last c (String y s')) eqn:E; [|discriminate].
    rewrite (IH _ eq_refl). apply orb_true_r.
Qed.

Lemma strip_last_absent (c : ascii) (s : string) :
  Str.contains c s = false -> Str.strip_last c s = None.
Proof.
  intros H. destruct (Str.strip_last c s) eqn:E; [|reflexivity].
  apply strip_last_contains in E. congruence.
Qed.

(** A segment without closing bracket and without newline is a field
    name. *)
Lemma match_segment_field (segment : string) :
  Str.contains "]" segment = false ->
  Str.contains Str.newline segment = false ->
  match_segment segment = None.
Proof.
  intros Hb Hn. unfold match_segment.
  now rewrite (strip_last_absent _ _ Hn), (strip_last_absent _ _ Hb).
Qed.

Lemma contains_indexed (c : ascii) (name index : string) :
  Str.contains c (name ++ "[" ++ index ++ "]")
  = Str.contains c name
    || (Ascii.eqb "[" c || (Str.contains c index || (Ascii.eqb "]" c || false))).
Proof.
  rewrite contains_app. cbn [append Str.contains].
  now rewrite contains_app.
Qed.

(** A name followed by a bracketed index is read as the two groups. *)
Lemma match_segment_indexed (name index : string) :
  name <> EmptyString ->
  Str.contains Str.newline name = false ->
  Str.contains Str.newline index = false ->
  Str.contains "[" index = false ->
  match_segment (name ++ "[" ++ index ++ "]") = Some (name, index).
Proof.
  intros Hne Hn Hi Hb. unfold match_segment.
  assert (E : name ++ "[" ++ index ++ "]"
              = (name ++ String "[" index) ++ String "]" EmptyString).
  { rewrite append_assoc. reflexivity. }
  rewrite E.
  rewrite strip_last_snoc_other by reflexivity.
  rewrite strip_last_snoc.
  rewrite contains_app. cbn [Str.contains]. rewrite Hn, Hi.
  replace (Ascii.eqb "[" Str.newline) with false by reflexivity.
  cbn [orb].
  rewrite (rsplit_once_last _ _ _ Hb).
  destruct name; [congruence | reflexivity].
Qed.

Lemma repr_int_neg_shape (p : positive) :
  exists ds, Kql.repr_int (Z.neg p) = String "-" ds /\ digits_only ds = true.
Proof.
  unfold Kql.repr_int. simpl.
  pose proof (DecimalPos.Unsigned.to_uint_nonnil p) as Hnil.
  exists (NilEmpty.string_of_uint (Pos.to_uint p)). split.
  - unfold NilZero.string_of_uint. destruct (Pos.to_uint p); congruence.
  - apply string_of_uint_digits.
Qed.

Lemma repr_int_neg_contains (c : ascii) (p : positive) :
  is_digit c = false -> Ascii.eqb "-" c = false ->
  Str.contains c (Kql.repr_int (Z.neg p)) = false.
Proof.
  intros Hc Hm. destruct (repr_int_neg_shape p) as (ds & -> & Hd).
  cbn [Str.contains]. now rewrite Hm, (digits_only_contains _ _ Hc Hd).
Qed.

Lemma plain_name_facts (name : string) :
  plain_name name = true ->
  name <> EmptyString /\ is_wildcard (KStr name) = false
  /\ Str.contains "." name = false /\ Str.contains Str.newline name = false.
Proof.
  unfold plain_name. intros H.
  repeat (apply andb_true_iff in H as [H ?]).
  repeat split.
  - intros ->. discriminate.
  - simpl. now destruct (String.eqb name "*").
  - now destruct (Str.contains "." name).
  - now destruct (Str.contains Str.newline name).
Qed.

(** The parser accepts a negative bracket index. *)
Lemma parse_negative_index (name : string) (p : positive) :
  plain_name name = true ->
  _parse_json_path (name ++ "[" ++ Kql.repr_int (Z.neg p) ++ "]")
  = Ok [KStr name; KInt (Z.neg p)].
Proof.
  intros Hname. destruct (plain_name_facts _ Hname) as (Hne & _ & Hdot & Hnl).
  unfold _parse_json_path.
  rewrite split_without_separator.
  2:{ rewrite contains_indexed, Hdot, repr_int_neg_contains by reflexivity.
      reflexivity. }
  cbn [parse_segments]. unfold parse_segment.
  rewrite match_segment_indexed; auto using repr_int_neg_contains.
  destruct (repr_int_neg_shape p) as (ds & E & _).
  assert (Hstar : String.eqb (Kql.repr_int (Z.neg p)) "*" = false)
    by (rewrite E; reflexivity).
  rewrite Hstar, py_int_repr_neg. reflexivity.
Qed.

(** ** Traversal *)

Lemma traverse_missing_field (name : string) (rest : list key)
    (d : list (string * pyval)) :
  dict_get d name = None ->
  _traverse_json_path (PDict d) (KStr name :: rest) = [].
Proof.
  intros H. simpl. rewrite H. now destruct (String.eqb name "*").
Qed.

Lemma traverse_index_out_of_range (i : Z) (rest : list key) (items : list pyval) :
  Z.of_nat (length items) <= i \/ i < - Z.of_nat (length items) ->
  _traverse_json_path (PList items) (KInt i :: rest) = [].
Proof.
  intros H. simpl. unfold py_list_getitem.
  destruct (i <? 0) eqn:Hneg.
  - apply Z.ltb_lt in Hneg.
    destruct ((0 <=? i + Z.of_nat (length items))
              && (i + Z.of_nat (length items) <? Z.of_nat (length items))) eqn:E;
      [|reflexivity].
    apply andb_true_iff in E as [E1 E2]. apply Z.leb_le in E1. lia.
  - apply Z.ltb_ge in Hneg.
    destruct ((0 <=? i) && (i <? Z.of_nat (length items))) eqn:E; [|reflexivity].
    apply andb_true_iff in E as [E1 E2]. apply Z.ltb_lt in E2. lia.
Qed.

Lemma getitem_negative (items : list pyval) (i : Z) :
  i < 0 -> - Z.of_nat (length items) <= i ->
  exists x, nth_error items (Z.to_nat (Z.of_nat (length items) + i)) = Some x
            /\ py_list_getitem items i = Some x.
Proof.
  intros Hneg Hlo. unfold py_list_getitem.
  apply Z.ltb_lt in Hneg as Hb. rewrite Hb.
  assert (Hr : (0 <=? i + Z.of_nat (length items))
               && (i + Z.of_nat (length items) <? Z.of_nat (length items)) = true).
  { apply andb_true_iff. split; [apply Z.leb_le | apply Z.ltb_lt]; lia. }
  rewrite Hr. rewrite (Z.add_comm (Z.of_nat (length items)) i).
  destruct (nth_error items (Z.to_nat (i + Z.of_nat (length items)))) eqn:E.
  - eauto.
  - apply nth_error_None in E. lia.
Qed.

(** C4: the wildcard path of the example yields the two texts in order; a
    path naming a missing field yields the empty list; an index outside
    the array yields the empty list; none of them raises. *)
Theorem json_path_traversal_examples :
  json_path_values "items[*].text"
    (PDict [("items", PList [PDict [("text", PStr "a")];
                             PDict [("text", PStr "b")]])])
  = Ok [PStr "a"; PStr "b"]
  /\ (forall d, dict_get d "missing" = None ->
        json_path_values "missing" (PDict d) = Ok [])
  /\ (forall name rest d, dict_get d name = None ->
        _traverse_json_path (PDict d) (KStr name :: rest) = [])
  /\ (forall a b,
        json_path_values "arr[5]" (PDict [("arr", PList [a; b])]) = Ok [])
  /\ (forall i rest items,
        Z.of_nat (length items) <= i \/ i < - Z.of_nat (length items) ->
        _traverse_json_path (PList items) (KInt i :: rest) = []).
Proof.
  split; [reflexivity|].
  split; [intros d H; unfold json_path_values; simpl; now rewrite H|].
  split; [exact traverse_missing_field|].
  split; [reflexivity|].
  intros i rest items. apply traverse_index_out_of_range.
Qed.

Lemma json_path_traversal_examples_witness :
  json_path_values "missing" (PDict [("field", PStr "value")]) = Ok []
  /\ _traverse_json_path (PList [PStr "a"; PStr "b"]) [KInt 5] = [].
Proof.
  split.
  - apply (proj1 (proj2 json_path_traversal_examples)). reflexivity.
  - apply (proj2 (proj2 (proj2 (proj2 json_path_traversal_examples)))).
    simpl. lia.
Defined.

(** C10: a negative bracket index is accepted by the parser and counts
    from the end of the array: on an array of length n it selects the
    element at n + index when the index is at least -n, and nothing
    otherwise. *)
Theorem negative_index_counts_from_end :
  forall (name : string) (p : positive) (items : list pyval),
    plain_name name = true ->
    let i := Z.neg p in
    let n := Z.of_nat (length items) in
    let path := name ++ "[" ++ Kql.repr_int i ++ "]" in
    _parse_json_path path = Ok [KStr name; KInt i]
    /\ (- n <= i ->
        exists x, nth_error items (Z.to_nat (n + i)) = Some x
                  /\ json_path_values path (PDict [(name, PList items)]) = Ok [x])
    /\ (i < - n ->
        json_path_values path (PDict [(name, PList items)]) = Ok []).
Proof.
  intros name p items Hname i n path.
  pose proof (parse_negative_index name p Hname) as Hparse.
  destruct (plain_name_facts _ Hname) as (_ & Hw & _ & _).
  split; [exact Hparse|].
  unfold json_path_values, path, i. rewrite Hparse.
  cbn [rbind _traverse_json_path]. rewrite Hw.
  cbn [dict_get]. rewrite String.eqb_refl. cbn [is_wildcard].
  split.
  - intros Hlo.
    destruct (getitem_negative items (Z.neg p)) as (x & Hx & Hg); [lia | exact Hlo |].
    exists x. split; [exact Hx|]. now rewrite Hg.
  - intros Hout.
    pose proof (traverse_index_out_of_range (Z.neg p) [] items (or_intror Hout)) as H.
    simpl in H. now rewrite H.
Qed.

Lemma negative_index_counts_from_end_witness :
  json_path_values "arr[-1]" (PDict [("arr", PList [PStr "a"; PStr "b"; PStr "c"])])
  = Ok [PStr "c"].
Proof.
  destruct (negative_index_counts_from_end "arr" 1
              [PStr "a"; PStr "b"; PStr "c"] eq_refl) as (_ & H & _).
  destruct H as (x & Hx & Hv); [simpl; lia|].
  simpl in Hx. injection Hx as <-. exact Hv.
Defined.

(* ===================================================================== *)
(** * The literal encoder *)
(* ===================================================================== *)

Lemma string_of_list_ascii_app (a b : list ascii) :
  string_of_list_ascii (a ++ b)%list
  = string_of_list_ascii a ++ string_of_list_ascii b.
Proof. induction a as [|x a IH]; simpl; [reflexivity | now rewrite IH]. Qed.

(** The replacement the encoder makes is the doubling of each quote. *)
Lemma replace_quote_doubles (s : string) :
  Str.replace Str.quote "''" s = double_each_quote s.
Proof.
  unfold double_each_quote. induction s as [|x s IH]; simpl; [reflexivity|].
  rewrite string_of_list_ascii_app, <- IH.
  destruct (Ascii.eqb_spec x Str.quote) as [-> | _]; reflexivity.
Qed.

Lemma needs_raw_block_test (s : string) :
  Str.contains Str.newline s
  || Str.contains Str.carriage_return s
  || existsb (fun c => Str.contains c s) Kql.SPECIAL_CHARS = true
  <-> needs_raw_block s.
Proof.
  unfold needs_raw_block, Kql.SPECIAL_CHARS. simpl existsb.
  rewrite orb_false_r, !orb_true_iff, !contains_In. tauto.
Qed.

(** C8: a string without newline, carriage return and backslash is
    written between single quotes with each quote of it doubled; any other
    string is written between triple backticks, copied as it is. *)
Theorem kusto_literal_of_string :
  forall (py_repr : pyval -> string) (s : string),
    (~ needs_raw_block s ->
       Kql._kusto_literal py_repr (PStr s) = "'" ++ double_each_quote s ++ "'")
    /\ (needs_raw_block s ->
       Kql._kusto_literal py_repr (PStr s) = "```" ++ s ++ "```").
Proof.
  intros py_repr s. cbn [Kql._kusto_literal]. unfold Kql._kusto_literal_str.
  destruct (Str.contains Str.newline s
            || Str.contains Str.carriage_return s
            || existsb (fun c => Str.contains c s) Kql.SPECIAL_CHARS) eqn:E.
  - apply needs_raw_block_test in E. split; [tauto | reflexivity].
  - split.
    + intros _. now rewrite replace_quote_doubles.
    + intros H. apply needs_raw_block_test in H. congruence.
Qed.

Lemma kusto_literal_of_string_witness :
  Kql._kusto_literal kind_dumps (PStr "it's") = "'it''s'"
  /\ Kql._kusto_literal kind_dumps (PStr "a\b") = "```a\b```".
Proof.
  split.
  - apply (proj1 (kusto_literal_of_string kind_dumps "it's")).
    unfold needs_raw_block. simpl.
    intros [H | [H | H]]; repeat (destruct H as [H | H]; [discriminate|]); exact H.
  - apply (proj2 (kusto_literal_of_string kind_dumps "a\b")).
    unfold needs_raw_block. simpl. right. right. right. left. reflexivity.
Defined.

(* ===================================================================== *)
(** * Embedding enrichment *)
(* ===================================================================== *)

(** Without wildcard a path selects at most one value. *)
Lemma traverse_at_most_one (keys : list JsonPath.key) :
  forallb (fun k => negb (JsonPath.is_wildcard k)) keys = true ->
  forall data, (length (JsonPath._traverse_json_path data keys) <= 1)%nat.
Proof.
  induction keys as [|k keys IH]; intros Hw data; [simpl; lia|].
  cbn [forallb] in Hw. apply andb_true_iff in Hw as [Hk Hrest].
  apply negb_true_iff in Hk.
  cbn [JsonPath._traverse_json_path]. rewrite Hk.
  destruct k as [name | i];
    destruct data as [ | b | z | q | s | t | items | items | d ];
    cbn iota; try (simpl; lia).
  - destruct (dict_get d name); [apply IH; assumption | simpl; lia].
  - destruct (py_list_getitem items i); [apply IH; assumption | simpl; lia].
Qed.

Lemma extract_fields_wildcard_free (json_dumps : pyval -> string)
    (value : pyval) (paths : list string) :
  forallb wildcard_free paths = true ->
  exists fields,
    _extract_fields json_dumps value paths = Ok fields
    /\ map snd fields = fragments json_dumps value paths
    /\ (length fields <= length paths)%nat.
Proof.
  induction paths as [|path paths IH]; intros Hw.
  - exists []. repeat split; simpl; lia.
  - cbn [forallb] in Hw. apply andb_true_iff in Hw as [Hp Hrest].
    destruct (IH Hrest) as (more & Hmore & Htexts & Hlen).
    unfold wildcard_free in Hp.
    destruct (JsonPath._parse_json_path path) as [keys|] eqn:Hparse;
      [|discriminate].
    pose proof (traverse_at_most_one keys Hp value) as Hone.
    cbn [_extract_fields]. rewrite Hparse. cbn [rbind]. rewrite Hmore.
    eexists. split; [reflexivity|]. split.
    + rewrite map_app, Htexts. cbn [fragments flat_map].
      unfold json_path_values. rewrite Hparse. cbn [rbind].
      f_equal. rewrite !map_map. apply map_ext.
      intros v. now destruct v.
    + rewrite length_app, length_map. simpl. lia.
Qed.

Lemma embed_fields_run (f : EmbeddingFunction) (fields : list (string * string)) :
  forall (i : Z) (chunks : list chunk) (metadata : option string) (w : world),
    embed_fields f (enumerate_from i fields) chunks metadata w
    = (Ok ((chunks ++ chunks_for f i (map snd fields))%list,
           match metadata with
           | Some m => Some m
           | None => first_model f (map snd fields)
           end),
       World (db w) (embedding_calls w ++ map snd fields)).
Proof.
  induction fields as [|[path text] fields IH]; intros i chunks metadata w.
  - simpl. unfold ret. rewrite !app_nil_r. destruct w, metadata; reflexivity.
  - cbn [enumerate_from embed_fields map snd chunks_for first_model].
    unfold bind at 1. unfold call_embedding at 1.
    destruct (f text) as [vector meta] eqn:Hf.
    rewrite IH. cbn [db embedding_calls fst snd].
    rewrite <- !app_assoc. cbn [app].
    destruct metadata; reflexivity.
Qed.

Lemma chunk_ordinals_from (f : EmbeddingFunction) (texts : list string) (i : Z) :
  map chunk_ordinal (chunks_for f i texts)
  = map (fun k => i + Z.of_nat k) (seq 0 (length texts)).
Proof.
  revert i. induction texts as [|t texts IH]; intros i; [reflexivity|].
  cbn [chunks_for map length seq]. unfold chunk_ordinal at 1. cbn [fst].
  rewrite IH, <- seq_shift, map_map. f_equal; [lia|].
  apply map_ext. intros k. lia.
Qed.

Lemma chunk_texts (f : EmbeddingFunction) (texts : list string) (i : Z) :
  map chunk_text (chunks_for f i texts) = texts.
Proof.
  revert i. induction texts as [|t texts IH]; intros i; [reflexivity|].
  cbn [chunks_for map]. now rewrite IH.
Qed.

Lemma chunk_vectors (f : EmbeddingFunction) (texts : list string) (i : Z) :
  map snd (chunks_for f i texts) = map (fun t => fst (f t)) texts.
Proof.
  revert i. induction texts as [|t texts IH]; intros i; [reflexivity|].
  cbn [chunks_for map snd]. now rewrite IH.
Qed.

(** C3: with an embedding function configured, the enrichment of a put
    makes no call when indexing is disabled; one call, on the whole
    serialized value, by default, and the command it returns holds the one
    chunk of ordinal 0 with that text and the vector of the call; and for
    a list of N paths without wildcard one call per extracted fragment, at
    most N of them, and the command it returns holds one chunk per
    fragment, numbered from 0 in the order the fragments are met, each
    with its fragment and the vector of its call.  The request itself is
    returned as it was. *)
Theorem enrichment_calls_by_index_config :
  forall (json_dumps : pyval -> string) (f : EmbeddingFunction)
         (cmd : MemoryPut.t) (w : world),
    let self := MakeLayer (Some f) in
    let value := MemoryPut.value cmd in
    (MemoryPut.index cmd = IndexFalse ->
       _enrich_put json_dumps self cmd w = (Ok cmd, w))
    /\ (MemoryPut.index cmd = IndexNone ->
        let text := json_dumps value in
        exists cmd',
          _enrich_put json_dumps self cmd w
          = (Ok cmd', World (db w) (embedding_calls w ++ [text]))
          /\ MemoryPut.embedding_chunks cmd' = Some [(0, text, fst (f text))]
          /\ MemoryPut.embedding_model_uri cmd' = Some (snd (f text))
          /\ same_request cmd cmd')
    /\ (forall paths,
          MemoryPut.index cmd = IndexPaths paths ->
          forallb wildcard_free paths = true ->
          let texts := fragments json_dumps value paths in
          exists cmd' chunks,
            _enrich_put json_dumps self cmd w
            = (Ok cmd', World (db w) (embedding_calls w ++ texts))
            /\ (length texts <= length paths)%nat
            /\ MemoryPut.embedding_chunks cmd' = Some chunks
            /\ map chunk_ordinal chunks = ordinals (length texts)
            /\ map chunk_text chunks = texts
            /\ map snd chunks = map (fun t => fst (f t)) texts
            /\ MemoryPut.embedding_model_uri cmd' = first_model f texts
            /\ same_request cmd cmd').
Proof.
  intros json_dumps f cmd w self value.
  unfold _enrich_put. cbn [_embedding_fn self].
  split; [intros ->; reflexivity|].
  split.
  - intros ->. subst value. cbn zeta. unfold bind, call_embedding.
    destruct (f (json_dumps (MemoryPut.value cmd))) as [vector metadata].
    eexists. split; [reflexivity|].
    repeat split.
  - intros paths -> Hfree. cbn zeta.
    destruct (extract_fields_wildcard_free json_dumps value paths Hfree)
      as (fields & Hfields & Htexts & Hlen).
    fold value. unfold bind at 1, lift. rewrite Hfields.
    unfold enumerate, bind. rewrite embed_fields_run.
    cbn [app]. rewrite Htexts.
    eexists. exists (chunks_for f 0 (fragments json_dumps value paths)).
    split; [reflexivity|].
    split; [rewrite <- Htexts, length_map; exact Hlen|].
    split; [reflexivity|].
    split; [rewrite chunk_ordinals_from; unfold ordinals; apply map_ext; intros; lia|].
    split; [apply chunk_texts|].
    split; [apply chunk_vectors|].
    repeat split.
Qed.

Lemma enrichment_calls_by_index_config_witness :
  let cmd :=
    MemoryPut.Make "test" prefix "k1"
      (PDict [("metadata", PDict [("title", PStr "Test Title")]);
              ("content", PStr "Test Content")])
      None "TestTable" "TestEmbeddings"
      (IndexPaths ["metadata.title"; "content"; "missing"]) None None in
  exists cmd',
    _enrich_put kind_dumps (MakeLayer (Some length_embedding)) cmd
      (World Kusto.empty [])
    = (Ok cmd', World Kusto.empty ["Test Title"; "Test Content"])
    /\ option_map (map chunk_ordinal) (MemoryPut.embedding_chunks cmd')
       = Some [0; 1]
    /\ option_map (map chunk_text) (MemoryPut.embedding_chunks cmd')
       = Some ["Test Title"; "Test Content"].
Proof.
  intros cmd.
  destruct (enrichment_calls_by_index_config kind_dumps length_embedding cmd
              (World Kusto.empty [])) as (_ & _ & H).
  destruct (H ["metadata.title"; "content"; "missing"] eq_refl eq_refl)
    as (cmd' & chunks & Hrun & _ & Hchunks & Hord & Htext & _).
  exists cmd'. split; [exact Hrun|].
  rewrite Hchunks. cbn [option_map]. rewrite Hord, Htext. split; reflexivity.
Defined.

(* ===================================================================== *)
(** * The memory execution engine *)
(* ===================================================================== *)

(** The tombstone a put of [None] writes. *)
Lemma null_put_without_embedding :
  forall json_dumps similarity_rows content_rows
         (self : KustoMemoryLayer) (cmd : MemoryPut.t) (now : Z) (w : world),
    MemoryPut.value cmd = PNone ->
    _embedding_fn self = None \/ MemoryPut.index cmd = IndexFalse ->
    execute json_dumps similarity_rows content_rows self (OpPut cmd) now w
    = (Ok RawPut,
       World (Kusto.append_store
                [Kusto.MemoryRow (MemoryPut.namespace cmd) (MemoryPut.key cmd)
                   (PDict []) now now (PDict []) true] (db w))
             (embedding_calls w)).
Proof.
  intros json_dumps sim content self cmd now w Hnull Hoff.
  unfold execute, bind at 1 2.
  assert (E : _enrich_put json_dumps self cmd w = (Ok cmd, w)).
  { unfold _enrich_put. destruct Hoff as [-> | Hidx]; [reflexivity|].
    rewrite Hidx. now destruct (_embedding_fn self). }
  rewrite E. unfold _execute_put. rewrite Hnull. reflexivity.
Qed.

(** C2, at the input where the code departs from it: an embedding
    function is configured, the index configuration is the default, the
    value is [None].  The tombstone is the only row written, and the
    embedding function has been called once, on the serialized [None]. *)
Theorem null_put_calls_embedding_function :
  forall json_dumps similarity_rows content_rows (f : EmbeddingFunction)
         (namespace key : string) (now : Z) (w : world),
    let cmd := MemoryPut.Make namespace prefix key PNone None
                 "LangGraphStore" "LangGraphStoreEmbeddings" IndexNone None None in
    execute json_dumps similarity_rows content_rows (MakeLayer (Some f))
      (OpPut cmd) now w
    = (Ok RawPut,
       World (Kusto.append_store
                [Kusto.MemoryRow namespace key (PDict []) now now (PDict []) true]
                (db w))
             (embedding_calls w ++ [json_dumps PNone])).
Proof.
  intros json_dumps sim content f namespace key now w cmd.
  unfold execute, bind at 1 2, _enrich_put, cmd.
  cbn [_embedding_fn MemoryPut.index MemoryPut.value].
  unfold bind, call_embedding. destruct (f (json_dumps PNone)). reflexivity.
Qed.

(** C1, at an input where the code departs from it: two puts of the same
    key at ticks 10 and 20, then a get at tick 30.  The live view holds the
    second value with the first CreatedAt and the second UpdatedAt, but the
    get projects the Value column only, and the item it returns carries the
    tick of the get in both timestamps. *)
Theorem get_after_two_puts_loses_timestamps :
  forall json_dumps json_loads similarity_rows content_rows
         (d1 d2 : list (string * pyval)),
    let store := KustoStore.Make "LangGraphStore" "LangGraphStoreEmbeddings"
                   (MakeLayer None) in
    let ns := ["users"; "u1"] in
    let run :=
      KustoStore.batch json_dumps json_loads similarity_rows content_rows store
        [(Put (PutOp.Make ns "profile" (PDict d1) IndexNone), 10);
         (Put (PutOp.Make ns "profile" (PDict d2) IndexNone), 20);
         (Get (GetOp.Make ns "profile"), 30)]
        (World Kusto.empty []) in
    fst run
    = Ok [ResultNone; ResultNone;
          ResultItem (Some (MakeItem (PDict d2) "profile" ns
                              (PDatetime 30) (PDatetime 30)))]
    /\ Kusto.store_view (db (snd run))
       = [Kusto.MemoryRow "users/u1" "profile" (PDict d2) 10 20 (PDict []) false].
Proof.
  intros. split; reflexivity.
Qed.

(** ** Search *)

Lemma py_slice_window_length {A} (l : list A) (a lim : Z) :
  0 <= lim -> Z.of_nat (length (py_slice l a (a + lim))) <= lim.
Proof.
  intros Hlim. unfold py_slice.
  set (n := Z.of_nat (length l)).
  set (lo := py_slice_bound n a). set (hi := py_slice_bound n (a + lim)).
  assert (Hd : hi - lo <= lim).
  { subst lo hi. unfold py_slice_bound.
    destruct (Z.ltb_spec a 0), (Z.ltb_spec (a + lim) 0); lia. }
  pose proof (firstn_le_length (Z.to_nat (hi - lo)) (skipn (Z.to_nat lo) l)).
  lia.
Qed.

Lemma Forall_firstn {A} (P : A -> Prop) (k : nat) (l : list A) :
  Forall P l -> Forall P (firstn k l).
Proof.
  revert k. induction l as [|x l IH]; intros [|k] H; simpl; auto.
  inversion H; subst. constructor; auto.
Qed.

Lemma StronglySorted_firstn {A} (R : A -> A -> Prop) (k : nat) (l : list A) :
  StronglySorted R l -> StronglySorted R (firstn k l).
Proof.
  revert k. induction l as [|x l IH]; intros [|k] H; simpl;
    try constructor.
  - inversion H; subst. auto.
  - inversion H; subst. now apply Forall_firstn.
Qed.

Lemma StronglySorted_skipn {A} (R : A -> A -> Prop) (k : nat) (l : list A) :
  StronglySorted R l -> StronglySorted R (skipn k l).
Proof.
  revert l. induction k as [|k IH]; intros [|x l] H; simpl; auto.
  inversion H; subst. auto.
Qed.

Lemma py_slice_keeps_order (rows : list row) (a b : Z) :
  descending_by_score rows -> descending_by_score (py_slice rows a b).
Proof.
  intros H. unfold py_slice.
  now apply StronglySorted_firstn, StronglySorted_skipn.
Qed.

(** C9 as the code has it: for a limit that is not negative, the engine
    delivers the window from offset to offset + limit of the rows the store
    returned, in the store's order: at most limit items, and in descending
    score order whenever the store's rows are. *)
Theorem similarity_search_is_window_of_store_rows :
  forall similarity_rows (cmd : MemorySearch.t) (q : string) (w : world),
    0 <= MemorySearch.limit cmd ->
    let rows :=
      similarity_rows (MemorySearch.namespace cmd)
        (MemorySearch.namespace_match_type cmd)
        (match MemorySearch.query_vector cmd with Some v => v | None => [] end)
        (MemorySearch.limit cmd) (db w) in
    let items :=
      py_slice rows (MemorySearch.offset cmd)
        (MemorySearch.offset cmd + MemorySearch.limit cmd) in
    _search_with_embeddings similarity_rows cmd q w = (Ok items, w)
    /\ Z.of_nat (length items) <= MemorySearch.limit cmd
    /\ (descending_by_score rows -> descending_by_score items).
Proof.
  intros sim cmd q w Hlim rows items.
  split; [reflexivity|].
  split; [now apply py_slice_window_length | apply py_slice_keeps_order].
Qed.

Lemma similarity_search_is_window_of_store_rows_witness :
  let rows := [scored_row "a" (9 # 10); scored_row "b" (5 # 10);
               scored_row "c" (1 # 10)] in
  let cmd := MemorySearch.Make "users" prefix (Some "find") 2 0
               "LangGraphStore" "LangGraphStoreEmbeddings" (Some [1 # 1]) in
  _search_with_embeddings (fun _ _ _ _ _ => rows) cmd "find"
    (World Kusto.empty [])
  = (Ok [scored_row "a" (9 # 10); scored_row "b" (5 # 10)],
     World Kusto.empty []).
Proof.
  intros rows cmd.
  apply (proj1 (similarity_search_is_window_of_store_rows
                  (fun _ _ _ _ _ => rows) cmd "find" (World Kusto.empty [])
                  ltac:(simpl; lia))).
Defined.

(** C9 as stated fails: the engine does not order what the store returns,
    and a negative limit does not bound the result. *)
Lemma similarity_search_not_ordered_by_engine :
  ~ (forall similarity_rows (cmd : MemorySearch.t) (q : string) (w : world)
            (items : list row),
        0 <= MemorySearch.limit cmd ->
        fst (_search_with_embeddings similarity_rows cmd q w) = Ok items ->
        descending_by_score items)
  /\ ~ (forall similarity_rows (cmd : MemorySearch.t) (q : string) (w : world)
               (items : list row),
          fst (_search_with_embeddings similarity_rows cmd q w) = Ok items ->
          Z.of_nat (length items) <= MemorySearch.limit cmd).
Proof.
  split.
  - intros H.
    specialize (H (fun _ _ _ _ _ => [scored_row "a" (1 # 10); scored_row "b" (9 # 10)])
                  (MemorySearch.Make "users" prefix (Some "find") 10 0
                     "LangGraphStore" "LangGraphStoreEmbeddings" (Some [1 # 1]))
                  "find" (World Kusto.empty []) _ ltac:(simpl; lia) eq_refl).
    inversion H as [|? ? _ Hall]; subst.
    inversion Hall as [|? ? Hge _]; subst.
    unfold score_ge in Hge. simpl in Hge. unfold Qle in Hge. simpl in Hge. lia.
  - intros H.
    specialize (H (fun _ _ _ _ _ => [scored_row "a" (9 # 10); scored_row "b" (5 # 10);
                                     scored_row "c" (1 # 10)])
                  (MemorySearch.Make "users" prefix (Some "find") (-1) 0
                     "LangGraphStore" "LangGraphStoreEmbeddings" (Some [1 # 1]))
                  "find" (World Kusto.empty []) _ eq_refl).
    simpl in H. lia.
Qed.

(* ===================================================================== *)
(** * The checkpoint saver *)
(* ===================================================================== *)

(** ** The structural form *)



(** ** The live views *)

Section SummarizeFacts.

Context {A : Type}.
Variable same_key : A -> A -> bool.
Variable metric : A -> Z.

Lemma upsert_max_In (r x : A) (reps : list A) :
  In x (Kusto.upsert_max same_key metric r reps) -> x = r \/ In x reps.
Proof.
  induction reps as [|y reps IH]; simpl.
  - intros [<- | []]. now left.
  - destruct (same_key y r).
    + destruct (metric y <? metric r); intros [<- | H]; auto.
    + intros [<- | H]; auto. destruct (IH H); auto.
Qed.

Lemma upsert_max_fresh (r : A) (reps : list A) :
  (forall x, In x reps -> same_key x r = false) ->
  Kusto.upsert_max same_key metric r reps = (reps ++ [r])%list.
Proof.
  induction reps as [|y reps IH]; intros H; simpl; [reflexivity|].
  rewrite (H y (or_introl eq_refl)), IH; [reflexivity|].
  intros x Hx. apply H. now right.
Qed.

Lemma fold_upsert_In (rows reps : list A) (x : A) :
  In x (fold_left (fun reps r => Kusto.upsert_max same_key metric r reps) rows reps) ->
  In x reps \/ In x rows.
Proof.
  revert reps. induction rows as [|r rows IH]; intros reps; simpl; auto.
  intros H. destruct (IH _ H) as [H' | H']; auto.
  destruct (upsert_max_In _ _ _ H'); auto.
Qed.

Lemma summarize_In (rows : list A) (x : A) :
  In x (Kusto.summarize_arg_max same_key metric rows) -> In x rows.
Proof.
  intros H. destruct (fold_upsert_In rows [] x H) as [[] | H']; exact H'.
Qed.

Lemma summarize_fresh (rows : list A) (r : A) :
  (forall x, In x rows -> same_key x r = false) ->
  Kusto.summarize_arg_max same_key metric (rows ++ [r])
  = (Kusto.summarize_arg_max same_key metric rows ++ [r])%list.
Proof.
  intros H. unfold Kusto.summarize_arg_max. rewrite fold_left_app. simpl.
  apply upsert_max_fresh. intros x Hx. apply H. now apply summarize_In.
Qed.

End SummarizeFacts.

Lemma filter_nil_iff {A} (f : A -> bool) (l : list A) :
  filter f l = [] <-> forall x, In x l -> f x = false.
Proof.
  induction l as [|y l IH]; simpl.
  - split; [intros _ x [] | reflexivity].
  - destruct (f y) eqn:E.
    + split; [discriminate|]. intros H. specialize (H y (or_introl eq_refl)). congruence.
    + rewrite IH. split.
      * intros H x [<- | Hx]; auto.
      * intros H x Hx. apply H. now right.
Qed.


Lemma top1_nil (rows : list Kusto.checkpoint_row) :
  Kusto.top1_by_CreatedAt rows = [] <-> rows = [].
Proof.
  destruct rows as [|r rows]; simpl; [tauto|].
  split; [|discriminate].
  destruct (Kusto.top1_by_CreatedAt rows) as [|best ?]; [discriminate|].
  destruct (Kusto.c_CreatedAt r <? Kusto.c_CreatedAt best); discriminate.
Qed.

Lemma firstn1_nil {A} (l : list A) : firstn 1 l = [] <-> l = [].
Proof. destruct l; simpl; split; congruence. Qed.

(** The query of [get_tuple] is empty exactly when no live row matches. *)
Lemma checkpoint_query_nil (c : Configurable) (db : Kusto.database) :
  KustoCheckpointSaver.checkpoint_query
    (KustoCheckpointSaver.get_or (thread_id c) EmptyString)
    (KustoCheckpointSaver.get_or (checkpoint_ns c) EmptyString)
    (checkpoint_id c) db = []
  <-> forall r, In r (Kusto.checkpoints_view db) -> row_matches c r = false.
Proof.
  unfold KustoCheckpointSaver.checkpoint_query, row_matches.
  destruct (KustoCheckpointSaver.truthy (checkpoint_id c)).
  - rewrite firstn1_nil, filter_nil_iff. reflexivity.
  - rewrite top1_nil, filter_nil_iff.
    split; intros H r Hr; specialize (H r Hr);
      rewrite ?andb_true_r in *; exact H.
Qed.

(** C6: a config without its configurable entry makes [get_tuple] raise
    [KeyError].  On a config with the entry, and plain identifiers in it,
    [get_tuple] returns the absent result, without raising, exactly when
    the config carries no thread id or no live checkpoint row matches the
    thread, the namespace and the requested (or latest) checkpoint id. *)
Theorem get_tuple_absent_iff :
  forall (codec : Codec) (config : RunnableConfig) (db : Kusto.database),
    (configurable config = None ->
       KustoCheckpointSaver.get_tuple codec config db = Raise KeyError)
    /\ (forall c,
          configurable config = Some c ->
          plain_configurable c = true ->
          (KustoCheckpointSaver.get_tuple codec config db = Ok None
           <-> (no_thread_id c
                \/ forall r, In r (Kusto.checkpoints_view db) ->
                     row_matches c r = false))).
Proof.
  intros codec config db. unfold KustoCheckpointSaver.get_tuple, no_thread_id.
  split; [intros ->; reflexivity|].
  intros c -> _.
  cbn [configurable KustoCheckpointSaver.subscript rbind].
  destruct (KustoCheckpointSaver.truthy (thread_id c)) eqn:Ht; cbn [negb].
  - rewrite <- checkpoint_query_nil.
    destruct (KustoCheckpointSaver.checkpoint_query _ _ _ db) as [|row rest].
    + split; auto.
    + split.
      * destruct (KustoCheckpointSaver.decode_snapshot codec (Kusto.c_Snapshot row));
          cbn [rbind]; [|discriminate].
        destruct (KustoCheckpointSaver.collect_writes codec _);
          cbn [rbind]; discriminate.
      * intros [H | H]; discriminate.
  - split; auto.
Qed.

Lemma get_tuple_absent_iff_witness :
  let stored :=
    Kusto.Database [] []
      [Kusto.CheckpointRow "thread-1" EmptyString "c1" EmptyString
         (PDict [("id", PStr "c1")]) 1 false] [] in
  KustoCheckpointSaver.get_tuple plain_codec
    (KustoCheckpointSaver.config_for "thread-2" EmptyString "c1") stored
  = Ok None
  /\ KustoCheckpointSaver.get_tuple plain_codec
       (MakeConfig (Some (MakeConfigurable None None (Some "c1")))) stored
     = Ok None
  /\ KustoCheckpointSaver.get_tuple plain_codec
       (KustoCheckpointSaver.config_for "thread-1" EmptyString "c1") stored
     <> Ok None.
Proof.
  intros stored. split; [|split].
  - apply (proj2 (get_tuple_absent_iff plain_codec
                    (KustoCheckpointSaver.config_for "thread-2" EmptyString "c1")
                    stored) _ eq_refl eq_refl).
    right. cbn. intros r [<- | []]. reflexivity.
  - apply (proj2 (get_tuple_absent_iff plain_codec
                    (MakeConfig (Some (MakeConfigurable None None (Some "c1"))))
                    stored) _ eq_refl eq_refl).
    left. reflexivity.
  - intros H.
    apply (proj2 (get_tuple_absent_iff plain_codec
                    (KustoCheckpointSaver.config_for "thread-1" EmptyString "c1")
                    stored) _ eq_refl eq_refl) in H.
    destruct H as [H | H]; [discriminate|].
    specialize (H _ (or_introl eq_refl)). discriminate.
Defined.

(** C6 as stated fails: a config without the configurable entry carries no
    thread id, and [get_tuple] raises on it. *)
Lemma get_tuple_raises_without_configurable :
  ~ (forall (codec : Codec) (config : RunnableConfig) (db : Kusto.database),
       carries_no_thread_id config ->
       KustoCheckpointSaver.get_tuple codec config db = Ok None).
Proof.
  intros H. specialize (H plain_codec (MakeConfig None) Kusto.empty I).
  discriminate.
Qed.




(** ** The round trip of pending writes *)

(** Reads the entries of a concrete [configurable]. *)
Ltac read_config :=
  cbn [configurable thread_id checkpoint_ns checkpoint_id
       KustoCheckpointSaver.subscript rbind KustoCheckpointSaver.truthy
       KustoCheckpointSaver.get_or].










(* ===================================================================== *)
(** * Further properties of JSON paths *)
(* ===================================================================== *)

Lemma strip_last_keeps_absent (c d : ascii) (s t : string) :
  Str.strip_last c s = Some t -> Str.contains d s = false ->
  Str.contains d t = false.
Proof.
  revert t. induction s as [|x s IH]; intros t H Hd; [discriminate|].
  cbn [Str.contains] in Hd. apply orb_false_iff in Hd as [Hx Hs].
  cbn [Str.strip_last] in H. destruct s as [|y s'].
  - destruct (Ascii.eqb x c); inversion H. reflexivity.
  - destruct (Str.strip_last c (String y s')) as [t'|] eqn:E; [|discriminate].
    inversion H; subst. cbn [Str.contains]. now rewrite Hx, (IH t' eq_refl Hs).
Qed.

(** A segment without closing bracket is a field name, whatever else it
    holds. *)
Lemma match_segment_no_bracket (segment : string) :
  Str.contains "]" segment = false -> match_segment segment = None.
Proof.
  intros Hb. unfold match_segment.
  destruct (Str.strip_last Str.newline segment) as [t|] eqn:E.
  - now rewrite (strip_last_absent _ _ (strip_last_keeps_absent _ _ _ _ E Hb)).
  - now rewrite (strip_last_absent _ _ Hb).
Qed.

Lemma split_cons_name (c : ascii) (x : string) (rest : string) :
  Str.contains c x = false ->
  Str.split c (x ++ String c rest) = x :: Str.split c rest.
Proof.
  induction x as [|a x IH]; intros H.
  - cbn. now rewrite Ascii.eqb_refl.
  - cbn [Str.contains] in H. apply orb_false_iff in H as [Ha Hx].
    cbn [append Str.split]. now rewrite Ha, (IH Hx).
Qed.

(** Splitting undoes joining, for parts that are free of the separator. *)
Lemma split_join (c : ascii) (parts : list string) :
  parts <> [] ->
  Forall (fun p => Str.contains c p = false) parts ->
  Str.split c (Str.join (String c EmptyString) parts) = parts.
Proof.
  induction parts as [|x parts IH]; intros Hne Hall; [congruence|].
  inversion Hall as [|? ? Hx Hrest]; subst.
  destruct parts as [|y parts'].
  - cbn [Str.join]. now apply split_without_separator.
  - cbn [Str.join]. cbn [append].
    rewrite (split_cons_name c x _ Hx). f_equal.
    apply IH; [discriminate | exact Hrest].
Qed.

Lemma parse_segments_fields (names : list string) :
  Forall (fun n => Str.contains "]" n = false) names ->
  parse_segments names = Ok (map KStr names).
Proof.
  induction names as [|n names IH]; intros H; [reflexivity|].
  inversion H as [|? ? Hn Hrest]; subst.
  cbn [parse_segments]. unfold parse_segment.
  rewrite (match_segment_no_bracket _ Hn). cbn [rbind].
  now rewrite (IH Hrest).
Qed.

(** X1: a dotted path of field names parses to those names, in order. *)
Theorem parse_dotted_field_names :
  forall names : list string,
    names <> [] ->
    Forall (fun n => Str.contains "." n = false /\ Str.contains "]" n = false)
      names ->
    _parse_json_path (Str.join "." names) = Ok (map KStr names).
Proof.
  intros names Hne Hall. unfold _parse_json_path.
  rewrite split_join; [| exact Hne |].
  - apply parse_segments_fields.
    eapply Forall_impl; [|exact Hall]. now intros n [_ H].
  - eapply Forall_impl; [|exact Hall]. now intros n [H _].
Qed.

Lemma parse_dotted_field_names_witness :
  _parse_json_path "parent.child.grandchild"
  = Ok [KStr "parent"; KStr "child"; KStr "grandchild"].
Proof.
  apply (parse_dotted_field_names ["parent"; "child"; "grandchild"]).
  - discriminate.
  - repeat constructor.
Defined.

(** [int] on a numeral of digits only. *)
Lemma py_int_digits (ds : string) :
  digits_only ds = true -> ds <> EmptyString ->
  py_int ds = option_map Z.of_uint (NilEmpty.uint_of_string ds).
Proof.
  intros Hd Hne. destruct ds as [|a r]; [congruence|].
  assert (Hscan : scan_digits false (String a r) = Some (String a r, EmptyString)).
  { apply scan_digits_all; [exact Hd | left; discriminate]. }
  assert (Ha : is_digit a = true) by (cbn in Hd; now apply andb_true_iff in Hd).
  assert (Hsp : is_space a = false).
  { destruct (is_space a) eqn:Esp; [|reflexivity].
    revert Ha Esp. unfold is_digit, is_space.
    destruct (Nat.leb_spec 48 (nat_of_ascii a)); [|discriminate].
    destruct (Nat.leb_spec 9 (nat_of_ascii a)), (Nat.leb_spec (nat_of_ascii a) 13),
      (Nat.eqb_spec (nat_of_ascii a) 32); cbn; intros; try discriminate; lia. }
  unfold py_int. cbn [lstrip]. rewrite Hsp.
  assert (Eu : match String a r with
               | String "-" r' => (true, r')
               | String "+" r' => (false, r')
               | _ => (false, String a r)
               end = (false, String a r)).
  { destruct (Ascii.eqb_spec a "-") as [-> |]; [discriminate|].
    destruct (Ascii.eqb_spec a "+") as [-> |]; [discriminate|].
    destruct a as [[|] [|] [|] [|] [|] [|] [|] [|]]; try reflexivity; congruence. }
  rewrite Eu, Hscan. cbn [all_space].
  destruct (NilEmpty.uint_of_string (String a r)); reflexivity.
Qed.

(** [int] reads back what [repr] prints, for every integer. *)
Lemma py_int_repr (z : Z) : py_int (Kql.repr_int z) = Some z.
Proof.
  destruct z as [|p|p]; [reflexivity | | apply py_int_repr_neg].
  unfold Kql.repr_int. simpl Z.to_int.
  pose proof (DecimalPos.Unsigned.to_uint_nonnil p) as Hnil.
  unfold NilZero.string_of_int, NilZero.string_of_uint.
  assert (E : match Pos.to_uint p with
              | Decimal.Nil => "0"
              | _ => NilEmpty.string_of_uint (Pos.to_uint p)
              end = NilEmpty.string_of_uint (Pos.to_uint p))
    by (destruct (Pos.to_uint p); congruence).
  rewrite E.
  rewrite py_int_digits;
    [| apply string_of_uint_digits | now apply uint_nonnil_string].
  rewrite NilEmpty.usu. cbn [option_map]. unfold Z.of_uint.
  now rewrite DecimalPos.Unsigned.of_to.
Qed.

Lemma repr_int_shape (z : Z) :
  exists sign ds, Kql.repr_int z = (sign ++ ds)%string
                  /\ (sign = EmptyString \/ sign = "-")
                  /\ ds <> EmptyString /\ digits_only ds = true.
Proof.
  destruct z as [|p|p].
  - exists EmptyString, "0". repeat split; auto. discriminate.
  - exists EmptyString, (NilEmpty.string_of_uint (Pos.to_uint p)).
    pose proof (DecimalPos.Unsigned.to_uint_nonnil p) as Hnil.
    repeat split; auto.
    + unfold Kql.repr_int. simpl. unfold NilZero.string_of_uint.
      destruct (Pos.to_uint p); congruence.
    + now apply uint_nonnil_string.
    + apply string_of_uint_digits.
  - destruct (repr_int_neg_shape p) as (ds & E & Hd).
    exists "-", (NilEmpty.string_of_uint (Pos.to_uint p)).
    pose proof (DecimalPos.Unsigned.to_uint_nonnil p) as Hnil.
    repeat split; auto.
    + unfold Kql.repr_int. simpl. unfold NilZero.string_of_uint.
      destruct (Pos.to_uint p); congruence.
    + now apply uint_nonnil_string.
    + apply string_of_uint_digits.
Qed.

Lemma repr_int_contains (c : ascii) (z : Z) :
  is_digit c = false -> Ascii.eqb "-" c = false ->
  Str.contains c (Kql.repr_int z) = false.
Proof.
  intros Hc Hm. destruct (repr_int_shape z) as (sign & ds & -> & Hs & _ & Hd).
  rewrite contains_app, (digits_only_contains _ _ Hc Hd).
  destruct Hs as [-> | ->]; cbn [Str.contains]; [reflexivity | now rewrite Hm].
Qed.

Lemma repr_int_not_star (z : Z) : String.eqb (Kql.repr_int z) "*" = false.
Proof.
  apply String.eqb_neq. intros E.
  pose proof (repr_int_contains "*" z eq_refl eq_refl) as H.
  rewrite E in H. discriminate.
Qed.

(** A name followed by a bracketed integer parses to the name and the
    integer. *)
Lemma parse_indexed (name : string) (z : Z) :
  plain_name name = true ->
  _parse_json_path (name ++ "[" ++ Kql.repr_int z ++ "]")
  = Ok [KStr name; KInt z].
Proof.
  intros Hname. destruct (plain_name_facts _ Hname) as (Hne & _ & Hdot & Hnl).
  unfold _parse_json_path.
  rewrite split_without_separator.
  2:{ rewrite contains_indexed, Hdot, repr_int_contains by reflexivity.
      reflexivity. }
  cbn [parse_segments]. unfold parse_segment.
  rewrite match_segment_indexed; auto using repr_int_contains.
  now rewrite repr_int_not_star, py_int_repr.
Qed.

(** X2: an index from 0 up to the length selects that element; an index
    at or past the length selects nothing. *)
Theorem index_selects_element :
  forall (name : string) (z : Z) (items : list pyval),
    plain_name name = true ->
    0 <= z ->
    let path := name ++ "[" ++ Kql.repr_int z ++ "]" in
    let n := Z.of_nat (length items) in
    (z < n ->
       exists x, nth_error items (Z.to_nat z) = Some x
                 /\ json_path_values path (PDict [(name, PList items)]) = Ok [x])
    /\ (n <= z ->
        json_path_values path (PDict [(name, PList items)]) = Ok []).
Proof.
  intros name z items Hname Hz path n.
  destruct (plain_name_facts _ Hname) as (_ & Hw & _ & _).
  unfold json_path_values, path. rewrite (parse_indexed name z Hname).
  cbn [rbind _traverse_json_path]. rewrite Hw.
  cbn [dict_get]. rewrite String.eqb_refl. cbn [is_wildcard].
  split.
  - intros Hlt. unfold py_list_getitem.
    assert (E1 : (z <? 0) = false) by now apply Z.ltb_ge.
    assert (E2 : (0 <=? z) && (z <? Z.of_nat (length items)) = true).
    { apply andb_true_iff. split; [now apply Z.leb_le | now apply Z.ltb_lt]. }
    rewrite E1, E2.
    destruct (nth_error items (Z.to_nat z)) as [x|] eqn:E.
    + exists x. split; [reflexivity|]. reflexivity.
    + apply nth_error_None in E. subst n. lia.
  - intros Hge.
    pose proof (traverse_index_out_of_range z [] items (or_introl Hge)) as H.
    cbn [_traverse_json_path is_wildcard] in H. exact (f_equal Ok H).
Qed.

Lemma index_selects_element_witness :
  json_path_values "authors[0]" (PDict [("authors", PList [PStr "Alice"; PStr "Bob"])])
  = Ok [PStr "Alice"].
Proof.
  destruct (index_selects_element "authors" 0 [PStr "Alice"; PStr "Bob"]
              eq_refl ltac:(lia)) as (H & _).
  destruct H as (x & Hx & Hv); [simpl; lia|].
  simpl in Hx. injection Hx as <-. exact Hv.
Defined.

Lemma flat_map_singleton {A} (l : list A) : flat_map (fun x => [x]) l = l.
Proof. induction l as [|x l IH]; simpl; [reflexivity | now rewrite IH]. Qed.

(** X3: the bracket wildcard selects every element of the array, in the
    order of the array; on anything that is no array it selects nothing. *)
Theorem wildcard_selects_all_elements :
  forall (name : string) (d : list (string * pyval)),
    plain_name name = true ->
    (forall items, dict_get d name = Some (PList items) ->
       json_path_values (name ++ "[*]") (PDict d) = Ok items)
    /\ (forall v, dict_get d name = Some v ->
          (forall items, v <> PList items) ->
          json_path_values (name ++ "[*]") (PDict d) = Ok []).
Proof.
  intros name d Hname.
  destruct (plain_name_facts _ Hname) as (Hne & Hw & Hdot & Hnl).
  assert (Hparse : _parse_json_path (name ++ "[*]") = Ok [KStr name; KStr "*"]).
  { unfold _parse_json_path.
    rewrite split_without_separator.
    2:{ change (name ++ "[*]") with (name ++ "[" ++ "*" ++ "]").
        now rewrite contains_indexed, Hdot. }
    cbn [parse_segments]. unfold parse_segment.
    change (name ++ "[*]") with (name ++ "[" ++ "*" ++ "]").
    rewrite match_segment_indexed; auto. }
  unfold json_path_values. rewrite Hparse.
  cbn [rbind _traverse_json_path]. rewrite Hw. cbn [is_wildcard String.eqb].
  split.
  - intros items ->. change (is_wildcard (KStr "*")) with true. cbn iota.
    now rewrite flat_map_singleton.
  - intros v -> Hv. change (is_wildcard (KStr "*")) with true. cbn iota.
    destruct v; try reflexivity. exfalso. now apply (Hv l).
Qed.

Lemma wildcard_selects_all_elements_witness :
  json_path_values "tags[*]"
    (PDict [("tags", PList [PStr "wireless"; PStr "bluetooth"])])
  = Ok [PStr "wireless"; PStr "bluetooth"].
Proof.
  apply (proj1 (wildcard_selects_all_elements "tags"
                  [("tags", PList [PStr "wireless"; PStr "bluetooth"])] eq_refl)).
  reflexivity.
Defined.

(* ===================================================================== *)
(** * Namespaces ([LanggraphOpToKustoOpTranslator]) *)
(* ===================================================================== *)

Lemma join_not_empty (sep : string) (parts : list string) :
  sep <> EmptyString -> parts <> [] -> parts <> [EmptyString] ->
  Str.join sep parts <> EmptyString.
Proof.
  intros Hsep Hne Hone. destruct parts as [|x [|y rest]]; [congruence | |].
  - cbn [Str.join]. intros ->. congruence.
  - cbn [Str.join]. destruct x as [|a x]; [|discriminate].
    cbn [append]. destruct sep; [congruence | discriminate].
Qed.

(** X4: a namespace tuple survives the passage through its stored text,
    when no segment holds a slash; the exception is the tuple of one empty
    segment, whose text is empty and reads back as the empty tuple. *)
Theorem namespace_text_round_trip :
  forall ns : list string,
    Forall (fun segment => Str.contains "/" segment = false) ns ->
    (ns <> [EmptyString] ->
       Translator._str_to_namespace (Some (Translator._namespace_to_str ns)) = ns)
    /\ (ns = [EmptyString] ->
        Translator._str_to_namespace (Some (Translator._namespace_to_str ns)) = []).
Proof.
  intros ns Hall. split.
  - intros Hone. unfold Translator._str_to_namespace, Translator._namespace_to_str.
    destruct ns as [|x rest]; [reflexivity|].
    assert (Hj : Str.join "/" (x :: rest) <> EmptyString).
    { apply join_not_empty; [discriminate | discriminate | exact Hone]. }
    apply String.eqb_neq in Hj. rewrite Hj.
    apply (split_join "/"); [discriminate | exact Hall].
  - intros ->. reflexivity.
Qed.

Lemma namespace_text_round_trip_witness :
  Translator._str_to_namespace (Some (Translator._namespace_to_str ["users"; "u1"; ""]))
  = ["users"; "u1"; ""].
Proof.
  apply (proj1 (namespace_text_round_trip ["users"; "u1"; ""]
                  ltac:(repeat constructor))).
  discriminate.
Defined.

(* ===================================================================== *)
(** * Malformed bracket indexes *)
(* ===================================================================== *)

(** The parser raises nothing but [ValueError]. *)
Lemma parse_segments_raises_ValueError (segments : list string) (e : exn) :
  parse_segments segments = Raise e -> e = ValueError.
Proof.
  induction segments as [|s rest IH]; cbn [parse_segments]; [discriminate|].
  unfold parse_segment.
  destruct (match_segment s) as [[name index]|]; cbn [rbind].
  - destruct (String.eqb index "*"); cbn [rbind].
    + destruct (parse_segments rest); cbn [rbind]; [discriminate|].
      intros H. apply IH. congruence.
    + destruct (py_int index); cbn [rbind].
      * destruct (parse_segments rest); cbn [rbind]; [discriminate|].
        intros H. apply IH. congruence.
      * congruence.
  - destruct (parse_segments rest); cbn [rbind]; [discriminate|].
    intros H. apply IH. congruence.
Qed.

(** X5: a bracket whose ASCII text is neither the star nor an integer
    numeral makes the parser raise [ValueError]; the empty bracket is one
    of them. *)
Theorem malformed_index_raises :
  forall name index : string,
    plain_name name = true ->
    ascii_text index = true ->
    Str.contains "." index = false ->
    Str.contains "[" index = false ->
    Str.contains Str.newline index = false ->
    index <> "*" ->
    py_int index = None ->
    _parse_json_path (name ++ "[" ++ index ++ "]") = Raise ValueError.
Proof.
  intros name index Hname _ Hdot Hb Hnl Hstar Hint.
  destruct (plain_name_facts _ Hname) as (Hne & _ & Hndot & Hnnl).
  unfold _parse_json_path.
  rewrite split_without_separator.
  2:{ rewrite contains_indexed, Hndot, Hdot. reflexivity. }
  cbn [parse_segments]. unfold parse_segment.
  rewrite match_segment_indexed by assumption.
  apply String.eqb_neq in Hstar. rewrite Hstar, Hint. reflexivity.
Qed.

Lemma malformed_index_raises_witness :
  _parse_json_path "items[]" = Raise ValueError
  /\ _parse_json_path "items[first]" = Raise ValueError
  /\ _parse_json_path "items[1_]" = Raise ValueError.
Proof.
  split; [|split].
  - apply (malformed_index_raises "items" ""); try reflexivity. discriminate.
  - apply (malformed_index_raises "items" "first"); try reflexivity. discriminate.
  - apply (malformed_index_raises "items" "1_"); try reflexivity. discriminate.
Defined.

(* ===================================================================== *)
(** * The string literal is unambiguous *)
(* ===================================================================== *)

Lemma append_inv_head (a b c : string) : a ++ b = a ++ c -> b = c.
Proof. induction a as [|x a IH]; simpl; intros H; [exact H | apply IH; congruence]. Qed.

Lemma string_length_app (a b : string) :
  String.length (a ++ b) = (String.length a + String.length b)%nat.
Proof. induction a as [|x a IH]; simpl; [reflexivity | now rewrite IH]. Qed.

Lemma append_inv_tail (a b c : string) : a ++ c = b ++ c -> a = b.
Proof.
  revert b. induction a as [|x a IH]; intros [|y b] H; cbn [append] in H.
  - reflexivity.
  - apply (f_equal String.length) in H. cbn [String.length] in H.
    rewrite string_length_app in H. lia.
  - apply (f_equal String.length) in H. cbn [String.length] in H.
    rewrite string_length_app in H. lia.
  - injection H as -> H. f_equal. now apply IH.
Qed.

(** The doubling of quotes loses nothing. *)
Lemma replace_quote_injective (s t : string) :
  Str.replace Str.quote "''" s = Str.replace Str.quote "''" t -> s = t.
Proof.
  revert t. induction s as [|x s IH]; intros [|y t]; cbn [Str.replace].
  - reflexivity.
  - destruct (Ascii.eqb y Str.quote); discriminate.
  - destruct (Ascii.eqb x Str.quote); discriminate.
  - destruct (Ascii.eqb_spec x Str.quote) as [-> | Hx],
             (Ascii.eqb_spec y Str.quote) as [-> | Hy]; cbn [append].
    + intros H. f_equal. apply IH. congruence.
    + intros H. injection H as H1 H2. exfalso. apply Hy. symmetry. exact H1.
    + intros H. injection H as H1 H2. exfalso. apply Hx. exact H1.
    + intros H. injection H as -> H. f_equal. now apply IH.
Qed.

Lemma kusto_literal_str_injective (s t : string) :
  Kql._kusto_literal_str s = Kql._kusto_literal_str t -> s = t.
Proof.
  unfold Kql._kusto_literal_str.
  destruct (Str.contains Str.newline s || Str.contains Str.carriage_return s
            || existsb (fun c => Str.contains c s) Kql.SPECIAL_CHARS);
    destruct (Str.contains Str.newline t || Str.contains Str.carriage_return t
              || existsb (fun c => Str.contains c t) Kql.SPECIAL_CHARS);
    cbv zeta; intros H.
  - apply append_inv_head in H. now apply append_inv_tail in H.
  - discriminate.
  - discriminate.
  - apply append_inv_head in H. apply append_inv_tail in H.
    now apply replace_quote_injective.
Qed.

(** X6: two different strings never have the same literal, whichever of
    the two forms each of them takes. *)
Theorem kusto_string_literal_injective :
  forall (py_repr : pyval -> string) (s t : string),
    s <> t ->
    Kql._kusto_literal py_repr (PStr s) <> Kql._kusto_literal py_repr (PStr t).
Proof.
  intros py_repr s t Hne H. apply Hne.
  cbn [Kql._kusto_literal] in H. now apply kusto_literal_str_injective.
Qed.

Lemma kusto_string_literal_injective_witness :
  Kql._kusto_literal kind_dumps (PStr "it's")
  <> Kql._kusto_literal kind_dumps (PStr "it''s").
Proof.
  apply (kusto_string_literal_injective kind_dumps "it's" "it''s").
  discriminate.
Defined.

(* ===================================================================== *)
(** * The live views keep the latest row of each key *)
(* ===================================================================== *)

Section KeyedSummarize.

Context {A K : Type}.
Variable key_of : A -> K.
Variable same_key : A -> A -> bool.
Variable metric : A -> Z.
Hypothesis same_key_spec :
  forall a b, same_key a b = true <-> key_of a = key_of b.

Lemma same_key_false (a b : A) : same_key a b = false <-> key_of a <> key_of b.
Proof.
  split.
  - intros H E. apply same_key_spec in E. congruence.
  - intros H. destruct (same_key a b) eqn:E; [|reflexivity].
    apply same_key_spec in E. contradiction.
Qed.

Lemma upsert_max_keys (r : A) (reps : list A) :
  NoDup (map key_of reps) ->
  NoDup (map key_of (Kusto.upsert_max same_key metric r reps)).
Proof.
  induction reps as [|y reps IH]; intros Hnd; cbn [Kusto.upsert_max].
  - cbn. constructor; [intros [] | constructor].
  - cbn [map] in Hnd. inversion Hnd as [|? ? Hy Hrest]; subst.
    destruct (same_key y r) eqn:E.
    + apply same_key_spec in E.
      destruct (metric y <? metric r); cbn [map]; [rewrite <- E|]; exact Hnd.
    + apply same_key_false in E. cbn [map]. constructor; [|now apply IH].
      intros Hin. apply in_map_iff in Hin as (x & Hk & Hx).
      apply upsert_max_In in Hx as [-> | Hx]; [congruence|].
      apply Hy. rewrite <- Hk. now apply in_map.
Qed.

Lemma fold_upsert_keys (rows reps : list A) :
  NoDup (map key_of reps) ->
  NoDup (map key_of
           (fold_left (fun reps r => Kusto.upsert_max same_key metric r reps)
              rows reps)).
Proof.
  revert reps. induction rows as [|r rows IH]; intros reps H; cbn [fold_left];
    [exact H|].
  apply IH. now apply upsert_max_keys.
Qed.

(** One row per key. *)
Lemma summarize_keys (rows : list A) :
  NoDup (map key_of (Kusto.summarize_arg_max same_key metric rows)).
Proof. apply fold_upsert_keys. constructor. Qed.

Lemma upsert_max_latest (r : A) (reps : list A) :
  NoDup (map key_of reps) ->
  (forall x, In x reps -> key_of x = key_of r -> metric x < metric r) ->
  forall x,
    In x (Kusto.upsert_max same_key metric r reps)
    <-> x = r \/ (In x reps /\ key_of x <> key_of r).
Proof.
  induction reps as [|y reps IH]; intros Hnd Hlate x; cbn [Kusto.upsert_max].
  - cbn. intuition.
  - cbn [map] in Hnd. inversion Hnd as [|? ? Hy Hrest]; subst.
    destruct (same_key y r) eqn:E.
    + apply same_key_spec in E.
      pose proof (Hlate y (or_introl eq_refl) E) as Hlt.
      apply Z.ltb_lt in Hlt. rewrite Hlt. cbn [In]. split.
      * intros [<- | Hx]; [now left|]. right. split; [now right|].
        intros Hk. apply Hy. rewrite E, <- Hk. now apply in_map.
      * intros [-> | [[<- | Hx] Hk]]; [now left | contradiction | now right].
    + apply same_key_false in E. cbn [In].
      rewrite IH; [| exact Hrest | intros z Hz; apply Hlate; now right].
      split.
      * intros [<- | [-> | [Hx Hk]]]; auto.
      * intros [-> | [[<- | Hx] Hk]]; auto.
Qed.

(** A row later than every stored row of its key takes the place of its
    key's row; the rows of the other keys stay. *)
Lemma summarize_latest (rows : list A) (r : A) :
  (forall x, In x rows -> key_of x = key_of r -> metric x < metric r) ->
  forall x,
    In x (Kusto.summarize_arg_max same_key metric (rows ++ [r]))
    <-> x = r
        \/ (In x (Kusto.summarize_arg_max same_key metric rows)
            /\ key_of x <> key_of r).
Proof.
  intros Hlate x. unfold Kusto.summarize_arg_max. rewrite fold_left_app.
  cbn [fold_left]. apply upsert_max_latest.
  - apply summarize_keys.
  - intros z Hz. apply Hlate. eapply summarize_In. exact Hz.
Qed.

End KeyedSummarize.

Lemma store_same_key_spec (a b : Kusto.memory_row) :
  String.eqb (Kusto.m_Namespace a) (Kusto.m_Namespace b)
  && String.eqb (Kusto.m_Key a) (Kusto.m_Key b) = true
  <-> store_key a = store_key b.
Proof.
  unfold store_key. rewrite andb_true_iff, !String.eqb_eq.
  split; [intros [-> ->]; reflexivity | intros H; inversion H; auto].
Qed.

Lemma checkpoint_same_key_spec (a b : Kusto.checkpoint_row) :
  String.eqb (Kusto.c_ThreadId a) (Kusto.c_ThreadId b)
  && String.eqb (Kusto.c_CheckpointNamespace a) (Kusto.c_CheckpointNamespace b)
  && String.eqb (Kusto.c_CheckpointId a) (Kusto.c_CheckpointId b) = true
  <-> checkpoint_key a = checkpoint_key b.
Proof.
  unfold checkpoint_key. rewrite !andb_true_iff, !String.eqb_eq.
  split; [intros [[-> ->] ->]; reflexivity | intros H; inversion H; auto].
Qed.

Lemma store_view_In (db : Kusto.database) (r : Kusto.memory_row) :
  In r (Kusto.store_view db) -> In r (Kusto.store_raw db).
Proof.
  unfold Kusto.store_view. intros H. apply filter_In in H as [H _].
  eapply summarize_In. exact H.
Qed.

(** The live store view after the append of a row that is later than
    every stored row of its key. *)
Lemma store_view_after_append (db : Kusto.database) (r : Kusto.memory_row) :
  (forall x, In x (Kusto.store_raw db) -> store_key x = store_key r ->
     Kusto.m_UpdatedAt x < Kusto.m_UpdatedAt r) ->
  forall x,
    In x (Kusto.store_view (Kusto.append_store [r] db))
    <-> (x = r /\ Kusto.m_Deleted r = false)
        \/ (In x (Kusto.store_view db) /\ store_key x <> store_key r).
Proof.
  intros Hlate x. unfold Kusto.store_view.
  cbn [Kusto.append_store Kusto.store_raw].
  rewrite !filter_In.
  rewrite (summarize_latest store_key _ _ store_same_key_spec _ r Hlate).
  split.
  - intros [[-> | [Hx Hk]] Hd].
    + left. split; [reflexivity|]. now apply negb_true_iff.
    + right. auto.
  - intros [[-> Hd] | [[Hx Hd] Hk]].
    + split; [now left | now apply negb_true_iff].
    + split; [right; auto | exact Hd].
Qed.


(* ===================================================================== *)
(** * What a put writes *)
(* ===================================================================== *)

Lemma extract_fields_parsed (json_dumps : pyval -> string) (value : pyval)
    (paths : list string) :
  index_parses (IndexPaths paths) = true ->
  exists fields,
    _extract_fields json_dumps value paths = Ok fields
    /\ map snd fields = fragments json_dumps value paths.
Proof.
  cbn [index_parses].
  induction paths as [|path paths IH]; intros Hp.
  - exists []. split; reflexivity.
  - cbn [forallb] in Hp. apply andb_true_iff in Hp as [Hp Hrest].
    destruct (IH Hrest) as (more & Hmore & Htexts).
    destruct (_parse_json_path path) as [keys|] eqn:Hparse; [|discriminate].
    cbn [_extract_fields]. rewrite Hparse. cbn [rbind]. rewrite Hmore.
    eexists. split; [reflexivity|].
    rewrite map_app, Htexts. cbn [fragments flat_map].
    unfold json_path_values. rewrite Hparse. cbn [rbind].
    f_equal. rewrite !map_map. apply map_ext.
    intros v. now destruct v.
Qed.


(** The enrichment of a put whose paths parse: the calls it makes and the
    command it leaves. *)
Lemma enrich_put_parsed (json_dumps : pyval -> string) (self : KustoMemoryLayer)
    (cmd : MemoryPut.t) (w : world) :
  _embedding_fn self = None \/ index_parses (MemoryPut.index cmd) = true ->
  let texts := indexed_texts json_dumps self (MemoryPut.index cmd)
                 (MemoryPut.value cmd) in
  exists cmd',
    _enrich_put json_dumps self cmd w
    = (Ok cmd', World (db w) (embedding_calls w ++ texts))
    /\ MemoryPut.namespace cmd' = MemoryPut.namespace cmd
    /\ MemoryPut.namespace_match_type cmd' = MemoryPut.namespace_match_type cmd
    /\ MemoryPut.key cmd' = MemoryPut.key cmd
    /\ MemoryPut.value cmd' = MemoryPut.value cmd
    /\ MemoryPut.tags cmd' = MemoryPut.tags cmd
    /\ (forall f, _embedding_fn self = Some f ->
          MemoryPut.index cmd <> IndexFalse ->
          MemoryPut.embedding_chunks cmd' = Some (chunks_for f 0 texts))
    /\ (_embedding_fn self = None \/ MemoryPut.index cmd = IndexFalse ->
        cmd' = cmd).
Proof.
  intros Hp texts. subst texts. unfold _enrich_put, indexed_texts.
  destruct (_embedding_fn self) as [f|] eqn:Hf.
  - destruct Hp as [Hp | Hp]; [discriminate|].
    destruct (MemoryPut.index cmd) as [ | | paths] eqn:Hi.
    + cbv zeta. unfold bind, call_embedding.
      destruct (f (json_dumps (MemoryPut.value cmd))) as [vector metadata] eqn:Ef.
      unfold ret. cbn [db embedding_calls].
      eexists. split; [reflexivity|].
      repeat split; try reflexivity.
      * intros f' Hf' _. injection Hf' as <-.
        cbn [MemoryPut.set_embeddings MemoryPut.embedding_chunks chunks_for].
        now rewrite Ef.
      * intros [H | H]; discriminate.
    + exists cmd. unfold ret. rewrite app_nil_r. destruct w.
      repeat split; try reflexivity. intros f' _ H. congruence.
    + destruct (extract_fields_parsed json_dumps (MemoryPut.value cmd) paths Hp)
        as (fields & Hfields & Htexts).
      unfold bind at 1, lift. rewrite Hfields.
      unfold enumerate, bind. rewrite embed_fields_run.
      cbn [app]. rewrite Htexts. unfold ret. cbn [db embedding_calls].
      eexists. split; [reflexivity|].
      repeat split; try reflexivity.
      * intros f' Hf' _. injection Hf' as <-. reflexivity.
      * intros [H | H]; discriminate.
  - exists cmd. unfold ret. rewrite app_nil_r. destruct w.
    repeat split; try reflexivity. intros f' H. discriminate.
Qed.









(** One step of a batch, for the put of [None]. *)
Lemma put_step_null :
  forall json_dumps json_loads similarity_rows content_rows
         (store : KustoStore.t) (op : PutOp.t) (now : Z) (w : world),
    PutOp.value op = PNone ->
    _embedding_fn (KustoStore._memory store) = None
    \/ index_parses (PutOp.index op) = true ->
    KustoStore.batch_step json_dumps json_loads similarity_rows content_rows
      store (Put op) now w
    = (Ok ResultNone,
       World (Kusto.append_store
                [Kusto.MemoryRow (Translator._namespace_to_str (PutOp.namespace op))
                   (PutOp.key op) (PDict []) now now (PDict []) true] (db w))
             (embedding_calls w
              ++ indexed_texts json_dumps (KustoStore._memory store)
                   (PutOp.index op) (PutOp.value op))).
Proof.
  intros json_dumps json_loads sim content store op now w Hval Hparse.
  unfold KustoStore.batch_step. cbn [Translator.translate_op].
  set (cmd := MemoryPut.Make _ _ _ _ _ _ _ _ _ _).
  destruct (enrich_put_parsed json_dumps (KustoStore._memory store) cmd w Hparse)
    as (cmd' & Hen & Hns & _ & Hkey & Hv & _).
  cbn [cmd MemoryPut.index MemoryPut.value MemoryPut.namespace MemoryPut.key]
    in Hen, Hns, Hkey, Hv.
  unfold execute. unfold bind at 1 2. rewrite Hen.
  unfold bind at 1. unfold _execute_put. rewrite Hv, Hval, Hns, Hkey.
  reflexivity.
Qed.

(* ===================================================================== *)
(** * Get, put and delete through the store *)
(* ===================================================================== *)

Lemma startswith_app (a b : string) : Kusto.startswith (a ++ b) a = true.
Proof.
  induction a as [|x a IH]; cbn [append Kusto.startswith]; [now destruct b|].
  now rewrite Ascii.eqb_refl, IH.
Qed.

Lemma startswith_refl (s : string) : Kusto.startswith s s = true.
Proof.
  induction s as [|x s IH]; cbn [Kusto.startswith]; [reflexivity|].
  now rewrite Ascii.eqb_refl, IH.
Qed.



(** A get step: the first row the lookup finds, translated; the world is
    left as it is. *)
Lemma batch_step_get :
  forall json_dumps json_loads similarity_rows content_rows
         (store : KustoStore.t) (op : GetOp.t) (now : Z) (w : world),
    KustoStore.batch_step json_dumps json_loads similarity_rows content_rows
      store (Get op) now w
    = (Ok (ResultItem
             (Translator.translate_get_result json_loads
                (hd_error
                   (KqlBuilder.memory_get_by_key
                      (Translator._namespace_to_str (GetOp.namespace op))
                      prefix (GetOp.key op) (db w)))
                op now)),
       w).
Proof.
  intros. unfold KustoStore.batch_step. cbn [Translator.translate_op].
  unfold execute, _execute_get, bind, query.
  cbn [MemoryGet.namespace MemoryGet.namespace_match_type MemoryGet.key].
  destruct (KqlBuilder.memory_get_by_key _ _ _ (db w)); reflexivity.
Qed.

(** One turn of the loop of [batch]. *)
Lemma batch_cons :
  forall json_dumps json_loads similarity_rows content_rows
         (store : KustoStore.t) (op : Op) (now : Z) (rest : list (Op * Z))
         (w : world),
    KustoStore.batch json_dumps json_loads similarity_rows content_rows store
      ((op, now) :: rest) w
    = match KustoStore.batch_step json_dumps json_loads similarity_rows
              content_rows store op now w with
      | (Ok r, w1) =>
          match KustoStore.batch json_dumps json_loads similarity_rows
                  content_rows store rest w1 with
          | (Ok rs, w2) => (Ok (r :: rs), w2)
          | (Raise e, w2) => (Raise e, w2)
          end
      | (Raise e, w1) => (Raise e, w1)
      end.
Proof.
  intros. cbn [KustoStore.batch]. unfold bind, ret.
  destruct (KustoStore.batch_step _ _ _ _ store op now w) as [[r|e] w1];
    [|reflexivity].
  destruct (KustoStore.batch _ _ _ _ store rest w1) as [[rs|e] w2]; reflexivity.
Qed.


Lemma get_by_key_nil (d : Kusto.database) (namespace key : string) :
  hd_error (KqlBuilder.memory_get_by_key namespace prefix key d) = None
  <-> forall r, In r (Kusto.store_view d) -> answers_get namespace key r = false.
Proof.
  unfold KqlBuilder.memory_get_by_key.
  rewrite <- (filter_nil_iff (answers_get namespace key)).
  unfold answers_get.
  destruct (filter _ (Kusto.store_view d)); cbn; split; congruence.
Qed.

(** X8: a get for a plain namespace text and a plain key leaves the store
    and the call log as they are, and it returns the absent item exactly
    when no live record has the key in a namespace that starts with the
    queried one. *)
Theorem get_absent_iff :
  forall json_dumps json_loads similarity_rows content_rows
         (store : KustoStore.t) (op : GetOp.t) (now : Z) (w : world),
    plain_text (Translator._namespace_to_str (GetOp.namespace op)) = true ->
    plain_text (GetOp.key op) = true ->
    let step :=
      KustoStore.batch_step json_dumps json_loads similarity_rows content_rows
        store (Get op) now w in
    snd step = w
    /\ (fst step = Ok (ResultItem None)
        <-> forall r, In r (Kusto.store_view (db w)) ->
              answers_get (Translator._namespace_to_str (GetOp.namespace op))
                (GetOp.key op) r = false).
Proof.
  intros json_dumps json_loads sim content store op now w _ _ step.
  subst step. rewrite batch_step_get. cbn [fst snd].
  split; [reflexivity|].
  rewrite <- get_by_key_nil.
  destruct (hd_error _) as [data|]; cbn [Translator.translate_get_result].
  - split; intros H; [inversion H | discriminate].
  - split; reflexivity.
Qed.

Lemma get_absent_iff_witness :
  let store := KustoStore.Make "LangGraphStore" "LangGraphStoreEmbeddings"
                 (MakeLayer None) in
  let w := World (Kusto.Database
                    [Kusto.MemoryRow "users/u1" "profile"
                       (PDict [("name", PStr "Ann")]) 10 20 (PDict []) false]
                    [] [] []) [] in
  fst (KustoStore.batch_step kind_dumps no_json_loads no_rows_3 no_rows_text
         store (Get (GetOp.Make ["teams"] "profile")) 30 w)
  = Ok (ResultItem None)
  /\ fst (KustoStore.batch_step kind_dumps no_json_loads no_rows_3 no_rows_text
            store (Get (GetOp.Make ["users"] "profile")) 30 w)
     <> Ok (ResultItem None).
Proof.
  intros store w. split.
  - apply (proj2 (proj2 (get_absent_iff kind_dumps no_json_loads no_rows_3
                           no_rows_text store (GetOp.Make ["teams"] "profile")
                           30 w eq_refl eq_refl))).
    cbn. intros r [<- | []]. reflexivity.
  - intros H.
    pose proof (proj1 (proj2 (get_absent_iff kind_dumps no_json_loads no_rows_3
                                no_rows_text store
                                (GetOp.Make ["users"] "profile")
                                30 w eq_refl eq_refl)) H) as Hnone.
    cbn in Hnone. specialize (Hnone _ (or_introl eq_refl)). discriminate.
Defined.


Lemma answers_get_key (namespace key : string) (r : Kusto.memory_row) :
  answers_get namespace key r = true ->
  Kusto.startswith (Kusto.m_Namespace r) namespace = true /\ Kusto.m_Key r = key.
Proof.
  unfold answers_get. cbn [KqlBuilder.cond]. intros H.
  apply andb_true_iff in H as [H1 H2]. now apply String.eqb_eq in H2.
Qed.




(** X10: for a plain namespace text and a plain key, a get that follows
    the put of [None] returns the absent item; the put has appended one
    row, the tombstone, and removed none. *)
Theorem delete_then_get_returns_none :
  forall json_dumps json_loads similarity_rows content_rows
         (store : KustoStore.t) (namespace : list string) (key : string)
         (index : index_config) (t1 t2 : Z) (w : world),
    _embedding_fn (KustoStore._memory store) = None
    \/ index_parses index = true ->
    plain_text (Translator._namespace_to_str namespace) = true ->
    plain_text key = true ->
    (forall r, In r (Kusto.store_raw (db w)) -> Kusto.m_Key r = key ->
       Kusto.startswith (Kusto.m_Namespace r)
         (Translator._namespace_to_str namespace) = true ->
       Kusto.m_Namespace r = Translator._namespace_to_str namespace
       /\ Kusto.m_UpdatedAt r < t1) ->
    let run :=
      KustoStore.batch json_dumps json_loads similarity_rows content_rows store
        [(Put (PutOp.Make namespace key PNone index), t1);
         (Get (GetOp.Make namespace key), t2)] w in
    fst run = Ok [ResultNone; ResultItem None]
    /\ Kusto.store_raw (db (snd run))
       = (Kusto.store_raw (db w)
          ++ [Kusto.MemoryRow (Translator._namespace_to_str namespace) key
                (PDict []) t1 t1 (PDict []) true])%list.
Proof.
  intros json_dumps json_loads sim content store namespace key index t1 t2 w
         Hparse _ _ Hothers run.
  pose proof (put_step_null json_dumps json_loads sim content store
                (PutOp.Make namespace key PNone index) t1 w eq_refl Hparse)
    as Hput.
  cbn [PutOp.namespace PutOp.key PutOp.value PutOp.index] in Hput.
  subst run. rewrite batch_cons, Hput, batch_cons, batch_step_get.
  cbn [GetOp.namespace GetOp.key KustoStore.batch db]. unfold ret.
  set (tomb := Kusto.MemoryRow _ key (PDict []) t1 t1 (PDict []) true).
  set (d' := Kusto.append_store [tomb] (db w)).
  assert (Hnone : hd_error (KqlBuilder.memory_get_by_key
                              (Translator._namespace_to_str namespace) prefix key d')
                  = None).
  { apply get_by_key_nil. intros x Hx.
    assert (Hlate : forall y, In y (Kusto.store_raw (db w)) ->
                      store_key y = store_key tomb ->
                      Kusto.m_UpdatedAt y < Kusto.m_UpdatedAt tomb).
    { intros y Hy Hk. unfold store_key in Hk. cbn in Hk. injection Hk as Hn Hkey.
      apply (Hothers y Hy Hkey). rewrite Hn. apply startswith_refl. }
    apply (store_view_after_append (db w) tomb Hlate) in Hx
      as [[_ Hd] | [Hx Hk]]; [discriminate|].
    destruct (answers_get _ key x) eqn:Hans; [|reflexivity].
    exfalso. apply Hk. apply answers_get_key in Hans as [Hs Hkey].
    destruct (Hothers x (store_view_In _ _ Hx) Hkey Hs) as [Hn _].
    unfold store_key. cbn. now rewrite Hn, Hkey. }
  rewrite Hnone. split; reflexivity.
Qed.

Lemma delete_then_get_returns_none_witness :
  let store := KustoStore.Make "LangGraphStore" "LangGraphStoreEmbeddings"
                 (MakeLayer None) in
  fst (KustoStore.batch kind_dumps no_json_loads no_rows_3 no_rows_text store
         [(Put (PutOp.Make ["users"] "profile" PNone IndexNone), 30);
          (Get (GetOp.Make ["users"] "profile"), 40)]
         (World (Kusto.Database
                   [Kusto.MemoryRow "users" "profile" (PDict [("name", PStr "Ann")])
                      10 20 (PDict []) false] [] [] []) []))
  = Ok [ResultNone; ResultItem None].
Proof.
  intros store.
  refine (proj1 (delete_then_get_returns_none kind_dumps no_json_loads no_rows_3
                   no_rows_text store ["users"] "profile" IndexNone 30 40
                   (World (Kusto.Database
                             [Kusto.MemoryRow "users" "profile"
                                (PDict [("name", PStr "Ann")]) 10 20 (PDict []) false]
                             [] [] []) [])
                   (or_introl eq_refl) eq_refl eq_refl _)).
  cbn. intros r [<- | []] _ _. split; [reflexivity | cbn; lia].
Defined.






(* ===================================================================== *)
(** * Search through the store *)
(* ===================================================================== *)

Lemma translate_search_result_length (json_loads : string -> option pyval)
    (raw : list row) (op : SearchOp.t) (now : Z) :
  length (Translator.translate_search_result json_loads raw op now) = length raw.
Proof. unfold Translator.translate_search_result. apply length_map. Qed.

(** X13: the two ways of a search.  With an embedding function configured
    and a query that is not empty, the function is called once, on the
    query, and the answer is the window of the similarity rows for the
    vector it returned.  Without a function, or with no query or the empty
    query, no call is made and the answer is the window of the text-search
    rows for the query with its single quotes doubled.  Either way the
    store is left as it is, and for a limit that is not negative the answer
    has at most that many items. *)
Theorem search_dispatch :
  forall json_dumps json_loads similarity_rows content_rows
         (store : KustoStore.t) (op : SearchOp.t) (now : Z) (w : world),
    let namespace := Translator._namespace_to_str (SearchOp.namespace_prefix op) in
    let q := match SearchOp.query op with Some q => q | None => EmptyString end in
    let window (rows : list row) :=
      py_slice rows (SearchOp.offset op) (SearchOp.offset op + SearchOp.limit op) in
    let step :=
      KustoStore.batch_step json_dumps json_loads similarity_rows content_rows
        store (Search op) now w in
    (forall f, _embedding_fn (KustoStore._memory store) = Some f ->
       q <> EmptyString ->
       step
       = (Ok (ResultSearch
                (Translator.translate_search_result json_loads
                   (window (similarity_rows namespace prefix (fst (f q))
                              (SearchOp.limit op) (db w)))
                   op now)),
          World (db w) (embedding_calls w ++ [q])))
    /\ (_embedding_fn (KustoStore._memory store) = None \/ q = EmptyString ->
        step
        = (Ok (ResultSearch
                 (Translator.translate_search_result json_loads
                    (window (content_rows namespace prefix
                               (Str.replace Str.quote "''" q)
                               (SearchOp.limit op) (db w)))
                    op now)),
           w))
    /\ (0 <= SearchOp.limit op ->
        exists items,
          fst step = Ok (ResultSearch items)
          /\ Z.of_nat (length items) <= SearchOp.limit op).
Proof.
  intros json_dumps json_loads sim content store op now w namespace q window step.
  assert (Hsem : forall f, _embedding_fn (KustoStore._memory store) = Some f ->
                   q <> EmptyString ->
                   step
                   = (Ok (ResultSearch
                            (Translator.translate_search_result json_loads
                               (window (sim namespace prefix (fst (f q))
                                          (SearchOp.limit op) (db w)))
                               op now)),
                      World (db w) (embedding_calls w ++ [q]))).
  { intros f Hf Hq. subst step. unfold KustoStore.batch_step.
    cbn [Translator.translate_op]. unfold execute, _enrich_search.
    rewrite Hf. cbn [MemorySearch.query]. subst q.
    destruct (SearchOp.query op) as [q|]; [|congruence].
    apply String.eqb_neq in Hq. rewrite Hq.
    unfold bind, call_embedding, ret, _execute_search.
    cbn [MemorySearch.set_query_vector MemorySearch.query_vector MemorySearch.query].
    rewrite Hq. reflexivity. }
  assert (Htext : _embedding_fn (KustoStore._memory store) = None \/ q = EmptyString ->
                  step
                  = (Ok (ResultSearch
                           (Translator.translate_search_result json_loads
                              (window (content namespace prefix
                                         (Str.replace Str.quote "''" q)
                                         (SearchOp.limit op) (db w)))
                              op now)),
                     w)).
  { intros Hcase. subst step. unfold KustoStore.batch_step.
    cbn [Translator.translate_op]. unfold execute, _enrich_search.
    cbn [MemorySearch.query]. subst q.
    destruct (_embedding_fn (KustoStore._memory store)) as [f|] eqn:Hf.
    - destruct Hcase as [Hcase | Hq]; [discriminate|].
      destruct (SearchOp.query op) as [q|]; [subst q|]; reflexivity.
    - destruct (SearchOp.query op) as [q|]; reflexivity. }
  split; [exact Hsem|]. split; [exact Htext|].
  intros Hlim.
  destruct (_embedding_fn (KustoStore._memory store)) as [f|] eqn:Hf.
  - destruct (String.eqb_spec q EmptyString) as [Hq | Hq].
    + rewrite (Htext (or_intror Hq)). eexists. split; [reflexivity|].
      rewrite translate_search_result_length. now apply py_slice_window_length.
    + rewrite (Hsem f eq_refl Hq). eexists. split; [reflexivity|].
      rewrite translate_search_result_length. now apply py_slice_window_length.
  - rewrite (Htext (or_introl eq_refl)). eexists. split; [reflexivity|].
    rewrite translate_search_result_length. now apply py_slice_window_length.
Qed.

Lemma search_dispatch_witness :
  let store := KustoStore.Make "LangGraphStore" "LangGraphStoreEmbeddings"
                 (MakeLayer (Some length_embedding)) in
  let op := SearchOp.Make ["docs"] (Some "blue car") 2 0 in
  snd (KustoStore.batch_step kind_dumps no_json_loads no_rows_3 no_rows_text
         store (Search op) 5 (World Kusto.empty []))
  = World Kusto.empty ["blue car"].
Proof.
  intros store op.
  rewrite (proj1 (search_dispatch kind_dumps no_json_loads no_rows_3 no_rows_text
                    store op 5 (World Kusto.empty []))
             length_embedding eq_refl ltac:(discriminate)).
  reflexivity.
Defined.

(* ===================================================================== *)
(** * Listing namespaces *)
(* ===================================================================== *)

Lemma list_namespaces_texts (d : Kusto.database) :
  flat_map (fun data : row =>
              match dict_get data "Namespace" with
              | Some (PStr ns) => if String.eqb ns EmptyString then [] else [ns]
              | _ => []
              end)
    (KqlBuilder.memory_list_namespaces d)
  = listed_namespace_texts d.
Proof.
  unfold KqlBuilder.memory_list_namespaces, listed_namespace_texts.
  induction (nodup string_dec (map Kusto.m_Namespace (Kusto.store_view d)))
    as [|ns l IH]; [reflexivity|].
  cbn [map flat_map filter]. rewrite IH.
  change (dict_get [("Namespace", PStr ns)] "Namespace") with (Some (PStr ns)).
  cbv beta iota. destruct (String.eqb ns EmptyString) eqn:E; cbn; rewrite ?E;
    reflexivity.
Qed.

Lemma In_firstn {A} (k : nat) (l : list A) (x : A) : In x (firstn k l) -> In x l.
Proof.
  revert k. induction l as [|y l IH]; intros k H.
  - destruct k; cbn in H; contradiction.
  - destruct k; cbn in H; [contradiction|].
    destruct H as [-> | H]; [now left | right; eauto].
Qed.

Lemma In_skipn {A} (k : nat) (l : list A) (x : A) : In x (skipn k l) -> In x l.
Proof.
  revert l. induction k as [|k IH]; intros l H; [exact H|].
  destruct l as [|y l]; cbn in H; [contradiction|]. right. auto.
Qed.

Lemma In_py_slice {A} (l : list A) (a b : Z) (x : A) :
  In x (py_slice l a b) -> In x l.
Proof.
  unfold py_slice. intros H. apply In_firstn in H. now apply In_skipn in H.
Qed.

Lemma py_slice_prefix {A} (l : list A) (d : Z) :
  exists k, py_slice l 0 d = firstn k l
            /\ (0 <= d -> Z.of_nat (length (py_slice l 0 d)) <= d).
Proof.
  unfold py_slice.
  assert (E0 : py_slice_bound (Z.of_nat (length l)) 0 = 0).
  { unfold py_slice_bound. cbn. lia. }
  rewrite E0. cbn [Z.to_nat skipn]. eexists. split; [reflexivity|].
  intros Hd. rewrite length_firstn. unfold py_slice_bound.
  destruct (Z.ltb_spec d 0); lia.
Qed.

Lemma length_flat_map_le {A B} (f : A -> list B) (l : list A) :
  (forall x, length (f x) <= 1)%nat -> (length (flat_map f l) <= length l)%nat.
Proof.
  intros H. induction l as [|x l IH]; [reflexivity|].
  cbn [flat_map]. rewrite length_app. specialize (H x). cbn [length]. lia.
Qed.

(** X14: the listing of namespaces.  It starts from the distinct non-empty
    namespace texts of the live records, takes the window from offset to
    offset + limit of them, and only then applies the match conditions and
    the depth.  So it returns at most limit namespaces (for a limit that is
    not negative); each is a leading part of the namespace of a live record;
    and with a depth that is not negative none is longer than the depth. *)
Theorem list_namespaces_window_then_filter :
  forall json_dumps json_loads similarity_rows content_rows
         (store : KustoStore.t) (op : ListNamespacesOp.t) (now : Z) (w : world),
    let texts := listed_namespace_texts (db w) in
    let window :=
      py_slice texts (ListNamespacesOp.offset op)
        (ListNamespacesOp.offset op + ListNamespacesOp.limit op) in
    let result := Translator.translate_list_namespaces_result window op in
    KustoStore.batch_step json_dumps json_loads similarity_rows content_rows
      store (ListNamespaces op) now w
    = (Ok (ResultNamespaces result), w)
    /\ (0 <= ListNamespacesOp.limit op ->
        Z.of_nat (length result) <= ListNamespacesOp.limit op)
    /\ Forall (fun ns =>
                 exists r k,
                   In r (Kusto.store_view (db w))
                   /\ Kusto.m_Namespace r <> EmptyString
                   /\ ns = firstn k (Str.split "/" (Kusto.m_Namespace r)))
         result
    /\ (forall depth, ListNamespacesOp.max_depth op = Some depth -> 0 <= depth ->
          Forall (fun ns => Z.of_nat (length ns) <= depth) result).
Proof.
  intros json_dumps json_loads sim content store op now w texts window result.
  split.
  { unfold KustoStore.batch_step. cbn [Translator.translate_op].
    unfold execute, _execute_list_namespaces, bind, query, ret, lift.
    cbn [MemoryListNamespaces.offset MemoryListNamespaces.limit
         Translator.translate_result].
    now rewrite list_namespaces_texts. }
  split.
  { intros Hlim. subst result.
    unfold Translator.translate_list_namespaces_result.
    pose proof (py_slice_window_length texts (ListNamespacesOp.offset op)
                  (ListNamespacesOp.limit op) Hlim) as Hw.
    fold window in Hw.
    match goal with
    | |- Z.of_nat (length (flat_map ?f ?l)) <= _ =>
        assert (Hle : (length (flat_map f l) <= length l)%nat)
    end.
    { apply length_flat_map_le. intros ns.
      destruct (Translator.matches _ ns); [|cbn; lia].
      destruct (ListNamespacesOp.max_depth op) as [d|]; [|cbn; lia].
      destruct (d <? Z.of_nat (length ns)); cbn; lia. }
    rewrite length_map in Hle. lia. }
  split.
  { subst result. unfold Translator.translate_list_namespaces_result.
    apply Forall_forall. intros ns Hns.
    apply in_flat_map in Hns as (full & Hfull & Hns).
    apply in_map_iff in Hfull as (text & <- & Htext).
    apply In_py_slice in Htext. unfold texts, listed_namespace_texts in Htext.
    apply filter_In in Htext as [Htext Hne].
    apply nodup_In, in_map_iff in Htext as (r & <- & Hr).
    apply negb_true_iff in Hne. apply String.eqb_neq in Hne as Hne'.
    cbn [Translator._str_to_namespace] in Hns. rewrite Hne in Hns.
    exists r.
    destruct (Translator.matches _ _); [|contradiction].
    destruct (ListNamespacesOp.max_depth op) as [d|].
    - destruct (d <? _).
      + destruct Hns as [<- | []].
        destruct (py_slice_prefix (Str.split "/" (Kusto.m_Namespace r)) d)
          as (k & Hk & _).
        exists k. auto.
      + destruct Hns as [<- | []].
        exists (length (Str.split "/" (Kusto.m_Namespace r))).
        rewrite firstn_all. auto.
    - destruct Hns as [<- | []].
      exists (length (Str.split "/" (Kusto.m_Namespace r))).
      rewrite firstn_all. auto. }
  intros depth Hd Hpos. subst result.
  unfold Translator.translate_list_namespaces_result. rewrite Hd.
  apply Forall_forall. intros ns Hns.
  apply in_flat_map in Hns as (full & _ & Hns).
  destruct (Translator.matches _ _); [|contradiction].
  destruct (Z.ltb_spec depth (Z.of_nat (length full))) as [Hlt | Hge].
  - destruct Hns as [<- | []].
    destruct (py_slice_prefix full depth) as (k & _ & Hlen). auto.
  - destruct Hns as [<- | []]. exact Hge.
Qed.

Lemma list_namespaces_window_then_filter_witness :
  let d := Kusto.Database
             [Kusto.MemoryRow "a/b" "k1" (PDict []) 1 1 (PDict []) false;
              Kusto.MemoryRow "a/c" "k2" (PDict []) 2 2 (PDict []) false] [] [] [] in
  let op := ListNamespacesOp.Make None (Some 1) 10 0 in
  Translator.translate_list_namespaces_result
    (py_slice (listed_namespace_texts d) 0 10) op = [["a"]; ["a"]]
  /\ Forall (fun ns => Z.of_nat (length ns) <= 1)
       (Translator.translate_list_namespaces_result
          (py_slice (listed_namespace_texts d) 0 10) op).
Proof.
  intros d op. split; [reflexivity|].
  apply (proj2 (proj2 (proj2
           (list_namespaces_window_then_filter kind_dumps no_json_loads no_rows_3
              no_rows_text
              (KustoStore.Make "LangGraphStore" "LangGraphStoreEmbeddings"
                 (MakeLayer None))
              op 5 (World d [])))) 1 eq_refl).
  lia.
Defined.

(* ===================================================================== *)
(** * A batch runs its operations in order *)
(* ===================================================================== *)

Lemma batch_step_kind :
  forall json_dumps json_loads similarity_rows content_rows
         (store : KustoStore.t) (op : Op) (now : Z) (w : world) (r : Result)
         (w' : world),
    KustoStore.batch_step json_dumps json_loads similarity_rows content_rows
      store op now w = (Ok r, w') ->
    result_matches_op op r = true.
Proof.
  intros json_dumps json_loads sim content store op now w r w'.
  unfold KustoStore.batch_step, bind, lift.
  destruct op as [op | op | op | op]; cbn [Translator.translate_op execute];
    unfold bind, ret.
  - destruct (_execute_get _ w) as [[data|e] w1]; [|discriminate].
    cbn [Translator.translate_result]. intros H. now inversion H.
  - destruct (_enrich_put _ _ _ w) as [[cmd'|e] w1]; [|discriminate].
    destruct (_execute_put cmd' now w1) as [[[]|e] w2]; [|discriminate].
    cbn [Translator.translate_result]. intros H. now inversion H.
  - destruct (_enrich_search _ _ w) as [[cmd'|e] w1]; [|discriminate].
    destruct (_execute_search _ _ cmd' w1) as [[items|e] w2]; [|discriminate].
    cbn [Translator.translate_result]. intros H. now inversion H.
  - destruct (_execute_list_namespaces _ w) as [[ns|e] w1]; [|discriminate].
    cbn [Translator.translate_result]. intros H. now inversion H.
Qed.

(** X15: a batch is the sequence of its operations.  The batch of two lists
    of operations one after the other runs the first list, then the second
    on the store the first has left, and returns the results of both in
    order; when the first list raises, the batch raises and the store is the
    one left at the raise: what the earlier operations wrote stays written,
    and their results are lost.  A batch that returns gives one result per
    operation, each of the kind of its operation. *)
Theorem batch_is_sequential :
  forall json_dumps json_loads similarity_rows content_rows
         (store : KustoStore.t) (ops1 ops2 : list (Op * Z)) (w : world),
    let batch :=
      KustoStore.batch json_dumps json_loads similarity_rows content_rows store in
    batch (ops1 ++ ops2)%list w
    = match batch ops1 w with
      | (Ok rs1, w1) =>
          match batch ops2 w1 with
          | (Ok rs2, w2) => (Ok (rs1 ++ rs2)%list, w2)
          | (Raise e, w2) => (Raise e, w2)
          end
      | (Raise e, w1) => (Raise e, w1)
      end
    /\ (forall rs w', batch ops1 w = (Ok rs, w') ->
          Forall2 (fun op r => result_matches_op (fst op) r = true) ops1 rs).
Proof.
  intros json_dumps json_loads sim content store ops1 ops2 w batch. subst batch.
  split.
  - revert w. induction ops1 as [|[op now] ops1 IH]; intros w.
    + cbn [app KustoStore.batch]. unfold ret.
      destruct (KustoStore.batch _ _ _ _ store ops2 w) as [[rs2|e] w2]; reflexivity.
    + cbn [app]. rewrite !batch_cons.
      destruct (KustoStore.batch_step _ _ _ _ store op now w) as [[r|e] w1];
        [|reflexivity].
      rewrite IH.
      destruct (KustoStore.batch _ _ _ _ store ops1 w1) as [[rs1|e] w2];
        [|reflexivity].
      destruct (KustoStore.batch _ _ _ _ store ops2 w2) as [[rs2|e] w3];
        reflexivity.
  - revert w. induction ops1 as [|[op now] ops1 IH]; intros w rs w'.
    + cbn [KustoStore.batch]. unfold ret. intros H. inversion H. constructor.
    + rewrite batch_cons.
      destruct (KustoStore.batch_step _ _ _ _ store op now w) as [[r|e] w1] eqn:Hstep;
        [|discriminate].
      destruct (KustoStore.batch _ _ _ _ store ops1 w1) as [[rs1|e] w2] eqn:Hrest;
        [|discriminate].
      intros H. inversion H; subst. constructor.
      * cbn [fst]. eapply batch_step_kind. exact Hstep.
      * eapply IH. exact Hrest.
Qed.

Lemma batch_is_sequential_witness :
  let store := KustoStore.Make "LangGraphStore" "LangGraphStoreEmbeddings"
                 (MakeLayer None) in
  let ops := [(Put (PutOp.Make ["users"] "profile" (PDict []) IndexNone), 10);
              (Get (GetOp.Make ["users"] "profile"), 20)] in
  Forall2 (fun op r => result_matches_op (fst op) r = true) ops
    [ResultNone;
     ResultItem (Some (MakeItem (PDict []) "profile" ["users"]
                         (PDatetime 20) (PDatetime 20)))].
Proof.
  intros store ops.
  apply (proj2 (batch_is_sequential kind_dumps no_json_loads no_rows_3
                  no_rows_text store ops [] (World Kusto.empty []))
           _ _ eq_refl).
Defined.

(* ===================================================================== *)
(** * Further properties of the checkpoint saver *)
(* ===================================================================== *)



(** [get_tuple] reads the store through the live checkpoint view and the
    writes table only. *)
Lemma get_tuple_reads_views (codec : Codec) (config : RunnableConfig)
    (a b : Kusto.database) :
  Kusto.checkpoints_view a = Kusto.checkpoints_view b ->
  Kusto.checkpoint_writes_raw a = Kusto.checkpoint_writes_raw b ->
  KustoCheckpointSaver.get_tuple codec config a
  = KustoCheckpointSaver.get_tuple codec config b.
Proof.
  intros Hv Hw.
  unfold KustoCheckpointSaver.get_tuple, KustoCheckpointSaver.checkpoint_query,
    KustoCheckpointSaver.writes_query, Kusto.checkpoint_writes_view.
  now rewrite Hv, Hw.
Qed.

(** X16: the deletion of a thread, of a plain id, hides no checkpoint.  The
    marker row it appends has the empty namespace and the empty checkpoint
    id, and the live view keeps the latest row of each (thread, namespace,
    id); unless a row is stored under that very key, the view and the
    writes are what they were, and [get_tuple] returns what it returned
    before, for every config of plain identifiers. *)
Theorem delete_thread_keeps_checkpoints :
  forall (codec : Codec) (thread : string) (now : Z) (d : Kusto.database),
    plain_text thread = true ->
    (forall r, In r (Kusto.checkpoints_raw d) ->
       checkpoint_key r <> (thread, EmptyString, EmptyString)) ->
    let d' := KustoCheckpointSaver.delete_thread thread now d in
    Kusto.checkpoints_raw d'
    = (Kusto.checkpoints_raw d
       ++ [Kusto.CheckpointRow thread EmptyString EmptyString EmptyString
             (PDict []) now true])%list
    /\ Kusto.checkpoints_view d' = Kusto.checkpoints_view d
    /\ Kusto.checkpoint_writes_raw d' = Kusto.checkpoint_writes_raw d
    /\ forall config,
         plain_config config = true ->
         KustoCheckpointSaver.get_tuple codec config d'
         = KustoCheckpointSaver.get_tuple codec config d.
Proof.
  intros codec thread now d _ Hfresh d'.
  assert (Hview : Kusto.checkpoints_view d' = Kusto.checkpoints_view d).
  { subst d'. unfold Kusto.checkpoints_view, KustoCheckpointSaver.delete_thread,
      KustoCheckpointSaver._insert_checkpoint_row.
    cbn [Kusto.append_checkpoint Kusto.checkpoints_raw].
    rewrite summarize_fresh.
    - rewrite filter_app. cbn [filter Kusto.c_Deleted negb]. apply app_nil_r.
    - intros x Hx.
      destruct (String.eqb (Kusto.c_ThreadId x) _ && _ && _) eqn:E; [|reflexivity].
      apply checkpoint_same_key_spec in E. exfalso. apply (Hfresh x Hx).
      rewrite E. reflexivity. }
  split; [reflexivity|]. split; [exact Hview|]. split; [reflexivity|].
  intros config _. apply get_tuple_reads_views; [exact Hview | reflexivity].
Qed.

Lemma delete_thread_keeps_checkpoints_witness :
  let step1 :=
    KustoCheckpointSaver.put plain_codec
      (MakeConfig (Some (MakeConfigurable (Some "thread-1") None None)))
      (MakeCheckpoint "c1" [("v", PInt 1)]) 1 Kusto.empty in
  let config1 := KustoCheckpointSaver.config_for "thread-1" EmptyString "c1" in
  KustoCheckpointSaver.get_tuple plain_codec config1
    (KustoCheckpointSaver.delete_thread "thread-1" 2 (snd step1))
  = Ok (Some (MakeCheckpointTuple config1
                (PDict [("id", PStr "c1"); ("v", PInt 1)])
                (metadata_for EmptyString EmptyString) None None)).
Proof.
  intros step1 config1.
  rewrite (proj2 (proj2 (proj2
             (delete_thread_keeps_checkpoints plain_codec "thread-1" 2 (snd step1)
                eq_refl ltac:(cbn; intros r [<- | []]; discriminate))))
             config1 eq_refl).
  reflexivity.
Defined.




Lemma top1_latest (rows : list Kusto.checkpoint_row) :
  forall (r : Kusto.checkpoint_row) (tl : list Kusto.checkpoint_row),
    Kusto.top1_by_CreatedAt rows = r :: tl ->
    tl = [] /\ In r rows
    /\ forall x, In x rows -> Kusto.c_CreatedAt x <= Kusto.c_CreatedAt r.
Proof.
  induction rows as [|y rest IH]; intros r tl H; [discriminate|].
  cbn [Kusto.top1_by_CreatedAt] in H.
  destruct (Kusto.top1_by_CreatedAt rest) as [|best more] eqn:E.
  - injection H as <- <-. apply (proj1 (top1_nil rest)) in E. subst rest.
    repeat split; [now left|]. intros x [<- | []]. lia.
  - destruct (IH best more eq_refl) as (_ & Hin & Hmax).
    destruct (Z.ltb_spec (Kusto.c_CreatedAt y) (Kusto.c_CreatedAt best)) as [Hlt | Hge];
      injection H as <- <-.
    + repeat split; [now right|]. intros x [<- | Hx]; [lia | now apply Hmax].
    + repeat split; [now left|]. intros x [<- | Hx]; [lia|].
      specialize (Hmax x Hx). lia.
Qed.

(** X18: without a checkpoint id in the config, the tuple [get_tuple]
    returns is that of the latest live checkpoint of the thread and
    namespace: no live checkpoint of them was created later.  The thread
    id and the namespace are plain texts, and so are the checkpoint ids
    the store holds. *)
Theorem get_tuple_latest :
  forall (codec : Codec) (thread : string) (ns cid : option string)
         (d : Kusto.database) (tuple : CheckpointTuple),
    thread <> EmptyString ->
    KustoCheckpointSaver.truthy cid = false ->
    let nsv := KustoCheckpointSaver.get_or ns EmptyString in
    plain_text thread = true ->
    plain_text nsv = true ->
    (forall r, In r (Kusto.checkpoints_raw d) ->
       plain_text (Kusto.c_CheckpointId r) = true) ->
    KustoCheckpointSaver.get_tuple codec
      (MakeConfig (Some (MakeConfigurable (Some thread) ns cid))) d
    = Ok (Some tuple) ->
    exists r,
      In r (Kusto.checkpoints_view d)
      /\ Kusto.c_ThreadId r = thread
      /\ Kusto.c_CheckpointNamespace r = nsv
      /\ ct_config tuple
         = KustoCheckpointSaver.config_for thread nsv (Kusto.c_CheckpointId r)
      /\ forall x, In x (Kusto.checkpoints_view d) ->
           Kusto.c_ThreadId x = thread -> Kusto.c_CheckpointNamespace x = nsv ->
           Kusto.c_CreatedAt x <= Kusto.c_CreatedAt r.
Proof.
  intros codec thread ns cid d tuple Hthread Hcid nsv _ _ _.
  assert (Et : String.eqb thread EmptyString = false) by now apply String.eqb_neq.
  unfold KustoCheckpointSaver.get_tuple. read_config. rewrite Et. cbn [negb].
  unfold KustoCheckpointSaver.checkpoint_query. rewrite Hcid. fold nsv.
  destruct (Kusto.top1_by_CreatedAt _) as [|row rest] eqn:Eq; [discriminate|].
  destruct (top1_latest _ _ _ Eq) as (_ & Hin & Hmax).
  apply filter_In in Hin as [Hin Hat].
  apply andb_true_iff in Hat as [Ht Hn].
  apply String.eqb_eq in Ht. apply String.eqb_eq in Hn.
  destruct (KustoCheckpointSaver.decode_snapshot codec (Kusto.c_Snapshot row));
    cbn [rbind]; [|discriminate].
  destruct (KustoCheckpointSaver.collect_writes codec _); cbn [rbind];
    [|discriminate].
  intros H. injection H as <-. exists row. cbn [ct_config].
  repeat split; auto.
  intros x Hx Hxt Hxn. apply Hmax. apply filter_In. split; [exact Hx|].
  now rewrite Hxt, Hxn, !String.eqb_refl.
Qed.

Lemma get_tuple_latest_witness :
  let d :=
    Kusto.Database [] []
      [Kusto.CheckpointRow "thread-1" EmptyString "c1" EmptyString
         (PDict [("id", PStr "c1")]) 1 false;
       Kusto.CheckpointRow "thread-1" EmptyString "c2" "c1"
         (PDict [("id", PStr "c2")]) 2 false;
       Kusto.CheckpointRow "thread-2" EmptyString "c3" EmptyString
         (PDict [("id", PStr "c3")]) 3 false] [] in
  exists r,
    In r (Kusto.checkpoints_view d)
    /\ Kusto.c_CheckpointId r = "c2"
    /\ forall x, In x (Kusto.checkpoints_view d) ->
         Kusto.c_ThreadId x = "thread-1" ->
         Kusto.c_CheckpointNamespace x = EmptyString ->
         Kusto.c_CreatedAt x <= Kusto.c_CreatedAt r.
Proof.
  intros d.
  destruct (get_tuple_latest plain_codec "thread-1" None None d
              (MakeCheckpointTuple
                 (KustoCheckpointSaver.config_for "thread-1" EmptyString "c2")
                 (PDict [("id", PStr "c2")]) (metadata_for EmptyString "c1")
                 (Some (KustoCheckpointSaver.config_for "thread-1" EmptyString "c1"))
                 None))
    as (r & Hin & _ & _ & Hconfig & Hmax).
  - discriminate.
  - reflexivity.
  - reflexivity.
  - reflexivity.
  - cbn. intros r [<- | [<- | [<- | []]]]; reflexivity.
  - reflexivity.
  - exists r. split; [exact Hin|]. split; [|exact Hmax].
    cbn [ct_config] in Hconfig. unfold KustoCheckpointSaver.config_for in Hconfig.
    injection Hconfig as Hid. now symmetry.
Defined.







(* ===================================================================== *)
(** * The match conditions of a namespace listing *)
(* ===================================================================== *)

Lemma list_eqb_eq (a b : list string) : Translator.list_eqb a b = true <-> a = b.
Proof.
  unfold Translator.list_eqb. destruct (list_eq_dec string_dec a b); split;
    congruence.
Qed.

Lemma py_slice_head {A} (l : list A) (n : nat) :
  py_slice l 0 (Z.of_nat n) = firstn n l.
Proof.
  unfold py_slice, py_slice_bound.
  replace (0 <? 0) with false by reflexivity.
  replace (Z.of_nat n <? 0) with false by (symmetry; apply Z.ltb_ge; lia).
  rewrite (Z.min_l 0) by lia. cbn [Z.to_nat skipn]. rewrite Z.sub_0_r.
  destruct (Nat.le_ge_cases n (length l)) as [H | H].
  - rewrite Z.min_l by lia. now rewrite Nat2Z.id.
  - rewrite Z.min_r by lia. rewrite Nat2Z.id, !firstn_all2; auto.
Qed.

Lemma py_slice_tail {A} (l : list A) (n : nat) :
  py_slice l (- Z.of_nat n) (Z.of_nat (length l))
  = match n with
    | O => l
    | _ => skipn (length l - n) l
    end.
Proof.
  unfold py_slice, py_slice_bound.
  replace (Z.of_nat (length l) <? 0) with false by (symmetry; apply Z.ltb_ge; lia).
  rewrite Z.min_id.
  destruct n as [|n].
  - change (- Z.of_nat 0) with 0. replace (0 <? 0) with false by reflexivity.
    rewrite (Z.min_l 0) by lia. cbn [Z.to_nat skipn].
    rewrite Z.sub_0_r, Nat2Z.id. apply firstn_all.
  - replace (- Z.of_nat (S n) <? 0) with true by (symmetry; apply Z.ltb_lt; lia).
    set (lo := Z.max (- Z.of_nat (S n) + Z.of_nat (length l)) 0).
    assert (Hlo : Z.to_nat lo = (length l - S n)%nat) by (subst lo; lia).
    rewrite Hlo. apply firstn_all2. rewrite length_skipn. lia.
Qed.

Lemma firstn_is_prefix {A} (p l : list A) :
  firstn (length p) l = p <-> exists rest, l = (p ++ rest)%list.
Proof.
  split.
  - intros H. exists (skipn (length p) l).
    rewrite <- H at 1. symmetry. apply firstn_skipn.
  - intros [rest ->]. rewrite firstn_app, Nat.sub_diag, firstn_all. cbn.
    apply app_nil_r.
Qed.

Lemma skipn_is_suffix {A} (p l : list A) :
  p <> [] ->
  (skipn (length l - length p) l = p <-> exists pre, l = (pre ++ p)%list).
Proof.
  intros Hp. split.
  - intros H. exists (firstn (length l - length p) l).
    rewrite <- H at 2. symmetry. apply firstn_skipn.
  - intros [pre ->]. rewrite length_app.
    replace (length pre + length p - length p)%nat with (length pre) by lia.
    rewrite skipn_app, Nat.sub_diag, skipn_all. reflexivity.
Qed.

(** X21: what the match conditions of a namespace listing accept.  A
    prefix condition accepts the namespaces that begin with its path; a
    suffix condition with a path that is not empty accepts those that end
    with it; a suffix condition with the empty path accepts the empty
    namespace only, where the prefix condition with the empty path accepts
    every namespace.  Several conditions must all hold; no condition
    accepts all. *)
Theorem match_conditions_semantics :
  forall (ns : list string),
    Translator.matches None ns = true
    /\ forall conds : list (match_mode * list string),
         Translator.matches (Some conds) ns = true
         <-> Forall (fun c =>
                       match c with
                       | (prefix, path) => exists rest, ns = (path ++ rest)%list
                       | (suffix, []) => ns = []
                       | (suffix, path) => exists pre, ns = (pre ++ path)%list
                       end) conds.
Proof.
  intros ns. split; [reflexivity|].
  intros conds. unfold Translator.matches. rewrite forallb_forall, Forall_forall.
  assert (Hone : forall c : match_mode * list string,
             (let '(match_type, path) := c in
              let n := Z.of_nat (length path) in
              match match_type with
              | prefix => Translator.list_eqb (py_slice ns 0 n) path
              | suffix =>
                  Translator.list_eqb
                    (py_slice ns (- n) (Z.of_nat (length ns))) path
              end) = true
             <-> match c with
                 | (prefix, path) => exists rest, ns = (path ++ rest)%list
                 | (suffix, []) => ns = []
                 | (suffix, path) => exists pre, ns = (pre ++ path)%list
                 end).
  { intros [[|] path]; cbv zeta; rewrite list_eqb_eq.
    - rewrite py_slice_head. apply firstn_is_prefix.
    - rewrite py_slice_tail. destruct path as [|s path]; [reflexivity|].
      cbn [length]. apply (skipn_is_suffix (s :: path)). discriminate. }
  split; intros H c Hc.
  - apply (proj1 (Hone c)). exact (H c Hc).
  - apply (proj2 (Hone c)). exact (H c Hc).
Qed.

Lemma match_conditions_semantics_witness :
  Translator.matches (Some [(prefix, ["users"]); (suffix, ["notes"])])
    ["users"; "u1"; "notes"] = true
  /\ Translator.matches (Some [(suffix, [])]) ["users"] = false.
Proof.
  split.
  - apply (proj2 (match_conditions_semantics ["users"; "u1"; "notes"])).
    repeat constructor.
    + now exists ["u1"; "notes"].
    + now exists ["users"; "u1"].
  - destruct (Translator.matches (Some [(suffix, [])]) ["users"]) eqn:E;
      [|reflexivity].
    apply (proj2 (match_conditions_semantics ["users"])) in E.
    inversion E as [|? ? H _]. discriminate.
Defined.

(* ===================================================================== *)
(** * The text of the queries *)
(* ===================================================================== *)

Lemma string_append_length_neq (a b : string) :
  b <> EmptyString -> (a ++ b)%string <> a.
Proof.
  intros Hb E. apply (f_equal String.length) in E.
  rewrite string_length_app in E. destruct b; [congruence | cbn in E; lia].
Qed.

(** X22: the get query does not tell its namespace from its key.  The two
    names are written between single quotes as they are, so a namespace
    that holds the text that closes its quote and opens the key yields the
    query of another namespace and key. *)
Theorem get_query_is_ambiguous :
  forall (table_name a b c : string) (namespace_mode : match_mode),
    let between := "' and Key == '" in
    let first := MemoryGet.Make (a ++ between ++ b) namespace_mode c table_name in
    let second := MemoryGet.Make a namespace_mode (b ++ between ++ c) table_name in
    KqlText.execute_get_query first = KqlText.execute_get_query second
    /\ MemoryGet.namespace first <> MemoryGet.namespace second.
Proof.
  intros table_name a b c namespace_mode between first second. split.
  - unfold KqlText.execute_get_query, KqlText.memory_get_by_key.
    cbn [first second MemoryGet.table_name MemoryGet.namespace
         MemoryGet.namespace_match_type MemoryGet.key].
    subst between. repeat rewrite append_assoc. reflexivity.
  - cbn [first second MemoryGet.namespace].
    apply string_append_length_neq. subst between. discriminate.
Qed.

Lemma replace_twice_quadruples (s : string) :
  Str.replace Str.quote "''" (Str.replace Str.quote "''" s)
  = quadruple_each_quote s.
Proof.
  unfold quadruple_each_quote. induction s as [|x s IH]; [reflexivity|].
  cbn [Str.replace list_ascii_of_string flat_map].
  rewrite string_of_list_ascii_app, <- IH.
  destruct (Ascii.eqb_spec x Str.quote) as [-> | Hx].
  - reflexivity.
  - cbn [Str.replace]. apply Ascii.eqb_neq in Hx. now rewrite Hx.
Qed.

(** X23: the text search escapes its query twice, once in the engine and
    once in the builder: in the query sent, each single quote of the
    user's query stands four times.  A query without single quote is sent
    as it is. *)
Theorem text_search_escapes_twice :
  forall (cmd : MemorySearch.t) (q : string),
    let sent (term : string) :=
      KqlText.nl ++ MemorySearch.table_name cmd ++ "()" ++ KqlText.nl
      ++ "| where Namespace " ++ KqlText.cond (MemorySearch.namespace_match_type cmd)
      ++ " '" ++ MemorySearch.namespace cmd ++ "'" ++ KqlText.nl
      ++ "| where tostring(Value) has '" ++ term ++ "'" ++ KqlText.nl
      ++ "| take " ++ Kql.repr_int (MemorySearch.limit cmd) ++ KqlText.nl
      ++ "| project Namespace, Key, Value, Tags, CreatedAt, UpdatedAt"
      ++ KqlText.nl in
    KqlText.search_with_text_query cmd q = sent (quadruple_each_quote q)
    /\ (Str.contains Str.quote q = false ->
        KqlText.search_with_text_query cmd q = sent q).
Proof.
  intros cmd q sent.
  assert (H : KqlText.search_with_text_query cmd q = sent (quadruple_each_quote q)).
  { unfold KqlText.search_with_text_query, KqlText.memory_search_by_content,
      Kql.escape_kql_string. cbv zeta. now rewrite replace_twice_quadruples. }
  split; [exact H|].
  intros Hq. rewrite H. f_equal.
  rewrite <- replace_twice_quadruples.
  now rewrite (replace_without _ _ q Hq), (replace_without _ _ q Hq).
Qed.

Lemma text_search_escapes_twice_witness :
  KqlText.search_with_text_query
    (MemorySearch.Make "users" prefix (Some "it's") 5 0
       "LangGraphStore" "LangGraphStoreEmbeddings" None) "it's"
  = KqlText.nl ++ "LangGraphStore()" ++ KqlText.nl
    ++ "| where Namespace startswith 'users'" ++ KqlText.nl
    ++ "| where tostring(Value) has 'it''''s'" ++ KqlText.nl
    ++ "| take 5" ++ KqlText.nl
    ++ "| project Namespace, Key, Value, Tags, CreatedAt, UpdatedAt" ++ KqlText.nl.
Proof.
  rewrite (proj1 (text_search_escapes_twice
                    (MemorySearch.Make "users" prefix (Some "it's") 5 0
                       "LangGraphStore" "LangGraphStoreEmbeddings" None) "it's")).
  reflexivity.
Defined.

(* ===================================================================== *)
(** * The asynchronous path on the client of the package *)
(* ===================================================================== *)

Lemma extract_fields_raises_ValueError (json_dumps : pyval -> string)
    (value : pyval) (paths : list string) (e : exn) :
  _extract_fields json_dumps value paths = Raise e -> e = ValueError.
Proof.
  induction paths as [|path paths IH]; cbn [_extract_fields]; [discriminate|].
  destruct (_parse_json_path path) as [keys|e'] eqn:Hparse; cbn [rbind].
  - destruct (_extract_fields json_dumps value paths); cbn [rbind];
      [discriminate|].
    intros H. apply IH. congruence.
  - intros H. injection H as <-.
    eapply parse_segments_raises_ValueError. exact Hparse.
Qed.

(** The enrichment of a put leaves the store as it is, and raises nothing
    but [ValueError]. *)
Lemma enrich_put_outcome (json_dumps : pyval -> string) (self : KustoMemoryLayer)
    (cmd : MemoryPut.t) (w : world) :
  db (snd (_enrich_put json_dumps self cmd w)) = db w
  /\ forall e, fst (_enrich_put json_dumps self cmd w) = Raise e -> e = ValueError.
Proof.
  unfold _enrich_put.
  destruct (_embedding_fn self) as [f|]; [|split; [reflexivity | discriminate]].
  destruct (MemoryPut.index cmd) as [ | | paths].
  - unfold bind, call_embedding.
    destruct (f (json_dumps (MemoryPut.value cmd))).
    split; [reflexivity | discriminate].
  - split; [reflexivity | discriminate].
  - unfold bind at 1, lift.
    destruct (_extract_fields json_dumps (MemoryPut.value cmd) paths)
      as [fields|e] eqn:E.
    + unfold enumerate, bind. rewrite embed_fields_run.
      split; [reflexivity | discriminate].
    + split; [reflexivity|]. cbn [fst]. intros e' H. injection H as <-.
      eapply extract_fields_raises_ValueError. exact E.
Qed.

Lemma enrich_search_outcome (self : KustoMemoryLayer) (cmd : MemorySearch.t)
    (w : world) :
  exists cmd' w',
    _enrich_search self cmd w = (Ok cmd', w') /\ db w' = db w.
Proof.
  unfold _enrich_search.
  destruct (_embedding_fn self) as [f|]; [|now exists cmd, w].
  destruct (MemorySearch.query cmd) as [q|]; [|now exists cmd, w].
  destruct (String.eqb q EmptyString); [now exists cmd, w|].
  unfold bind, call_embedding, ret. eexists. eexists. split; reflexivity.
Qed.

(** On the client of the package no asynchronous operation returns. *)
Lemma aexecute_on_KustoClient :
  forall json_dumps similarity_rows content_rows
         (self : KustoMemoryLayer) (op : MemoryOp) (now : Z) (w : world),
  exists e w',
    aexecute json_dumps similarity_rows content_rows KustoClient self op now w
    = (ARaise e, w')
    /\ db w' = db w
    /\ (e = NotImplementedError \/ e = PyExn ValueError).
Proof.
  intros json_dumps sim content self op now w.
  destruct op as [cmd | cmd | cmd | cmd]; cbn [aexecute].
  - exists NotImplementedError, w. repeat split. now left.
  - unfold abind at 1, of_sync.
    destruct (enrich_put_outcome json_dumps self cmd w) as [Hdb Hexn].
    destruct (_enrich_put json_dumps self cmd w) as [[cmd'|e] w1];
      cbn [fst snd] in Hdb, Hexn.
    + exists NotImplementedError, w1. split; [|split; [exact Hdb | now left]].
      unfold abind, _aexecute_put.
      destruct (MemoryPut.value cmd'); reflexivity.
    + exists (PyExn e), w1. split; [reflexivity|]. split; [exact Hdb|].
      right. now rewrite (Hexn e eq_refl).
  - unfold abind at 1, of_sync.
    destruct (enrich_search_outcome self cmd w) as (cmd' & w1 & Hen & Hdb).
    rewrite Hen. exists NotImplementedError, w1.
    split; [|split; [exact Hdb | now left]].
    unfold abind, _aexecute_search.
    destruct (MemorySearch.query_vector cmd'); [|reflexivity].
    destruct (String.eqb _ EmptyString); reflexivity.
  - exists NotImplementedError, w. repeat split. now left.
Qed.

(** X24: on the client of the package, whose asynchronous methods raise
    [NotImplementedError], the asynchronous batch returns for the empty list
    of operations only.  For any other list it raises at its first
    operation, [NotImplementedError] or the [ValueError] of an index path
    that does not parse, and the store is left as it was.  A put has by then
    made its calls to the embedding function. *)
Theorem abatch_not_implemented :
  forall json_dumps json_loads similarity_rows content_rows
         (store : KustoStore.t) (ops : list (Op * Z)) (w : world),
    let run :=
      abatch json_dumps json_loads similarity_rows content_rows KustoClient
        store ops w in
    (ops = [] -> run = (AOk [], w))
    /\ (ops <> [] ->
        exists e,
          fst run = ARaise e
          /\ (e = NotImplementedError \/ e = PyExn ValueError)
          /\ db (snd run) = db w)
    /\ (forall op now rest,
          ops = (Put op, now) :: rest ->
          _embedding_fn (KustoStore._memory store) = None
          \/ index_parses (PutOp.index op) = true ->
          run
          = (ARaise NotImplementedError,
             World (db w)
               (embedding_calls w
                ++ indexed_texts json_dumps (KustoStore._memory store)
                     (PutOp.index op) (PutOp.value op)))).
Proof.
  intros json_dumps json_loads sim content store ops w run.
  split; [intros ->; reflexivity|]. split.
  - intros Hne. destruct ops as [|[op now] rest]; [congruence|].
    destruct (aexecute_on_KustoClient json_dumps sim content
                (KustoStore._memory store)
                (Translator.translate_op op (KustoStore._table_name store)
                   (KustoStore._embeddings_table_name store) prefix) now w)
      as (e & w' & Hrun & Hdb & He).
    assert (E : run = (ARaise e, w')).
    { subst run. cbn [abatch]. unfold abind at 1. now rewrite Hrun. }
    rewrite E. exists e. auto.
  - intros op now rest -> Hparse. subst run. cbn [abatch Translator.translate_op].
    set (cmd := MemoryPut.Make _ _ _ _ _ _ _ _ _ _).
    destruct (enrich_put_parsed json_dumps (KustoStore._memory store) cmd w Hparse)
      as (cmd' & Hen & _).
    cbn [cmd MemoryPut.index MemoryPut.value] in Hen.
    unfold abind at 1. cbn [aexecute]. unfold abind at 1, of_sync. rewrite Hen.
    unfold abind, _aexecute_put.
    destruct (MemoryPut.value cmd'); reflexivity.
Qed.

Lemma abatch_not_implemented_witness :
  let store := KustoStore.Make "LangGraphStore" "LangGraphStoreEmbeddings"
                 (MakeLayer (Some length_embedding)) in
  abatch kind_dumps no_json_loads no_rows_3 no_rows_text KustoClient store
    [(Put (PutOp.Make ["users"] "profile" (PDict []) IndexNone), 10);
     (Get (GetOp.Make ["users"] "profile"), 20)]
    (World Kusto.empty [])
  = (ARaise NotImplementedError, World Kusto.empty ["{...}"]).
Proof.
  intros store.
  apply (proj2 (proj2 (abatch_not_implemented kind_dumps no_json_loads no_rows_3
                         no_rows_text store
                         [(Put (PutOp.Make ["users"] "profile" (PDict []) IndexNone), 10);
                          (Get (GetOp.Make ["users"] "profile"), 20)]
                         (World Kusto.empty [])))
           (PutOp.Make ["users"] "profile" (PDict []) IndexNone) 10
           [(Get (GetOp.Make ["users"] "profile"), 20)] eq_refl).
  right. reflexivity.
Defined.


(** X25: the embedding rows of the asynchronous put.  Whatever the client,
    when the loop returns its rows, every row holds in its [Embedding] cell
    the whole list of chunks of the command, not the vector of its chunk,
    and the chunk text as it is; the synchronous put stores the vector, and
    the text with its double quotes replaced. *)
Theorem async_put_embedding_rows :
  forall (client : AsyncClient) (cmd : MemoryPut.t) (now : Z)
         (chunks : list chunk) (w w' : world) (rows : list async_embedding_row),
    aembedding_rows_of client cmd now chunks w = (AOk rows, w') ->
    Forall (fun r => ae_Embedding r = MemoryPut.embedding_chunks cmd) rows
    /\ map ae_ChunkString rows = map chunk_text chunks
    /\ map ae_ChunkOrdinal rows = map chunk_ordinal chunks.
Proof.
  intros client cmd now chunks.
  induction chunks as [|[[ordinal chunk_string] vector] chunks IH];
    intros w w' rows.
  - cbn [aembedding_rows_of]. unfold aret. intros H. injection H as <- _.
    repeat split. constructor.
  - cbn [aembedding_rows_of]. unfold abind at 1.
    destruct (execute_query_async client _ _ w) as [[emb_rows|e] w1];
      [|discriminate].
    unfold abind at 1.
    destruct (aembedding_rows_of client cmd now chunks w1) as [[more|e] w2] eqn:E;
      [|discriminate].
    unfold aret. intros H. injection H as <- _.
    destruct (IH w1 w2 more E) as (Hall & Hs & Ho).
    cbn [map ae_ChunkString ae_ChunkOrdinal]. rewrite Hs, Ho.
    repeat split. constructor; [reflexivity | exact Hall].
Qed.

Lemma async_put_embedding_rows_witness :
  let chunks := [(0, "a", [1 # 1]); (1, "b", [2 # 1])] in
  let cmd := MemoryPut.Make "docs" prefix "d1" (PDict []) None
               "LangGraphStore" "LangGraphStoreEmbeddings" IndexNone
               (Some chunks) (Some "mock-model-uri") in
  match fst (aembedding_rows_of answering_client cmd 5 chunks
               (World Kusto.empty [])) with
  | AOk rows => Forall (fun r => ae_Embedding r = Some chunks) rows
                /\ length rows = 2%nat
  | ARaise _ => False
  end.
Proof.
  intros chunks cmd. cbn [fst]. split; [|reflexivity].
  exact (proj1 (async_put_embedding_rows answering_client cmd 5 chunks
                  (World Kusto.empty []) _ _ eq_refl)).
Defined.

(* ===================================================================== *)
(** * The chunks a put leaves behind *)
(* ===================================================================== *)

Section KeyedSummarizeOthers.

Context {A K : Type}.
Variable key_of : A -> K.
Variable same_key : A -> A -> bool.
Variable metric : A -> Z.
Hypothesis same_key_spec :
  forall a b, same_key a b = true <-> key_of a = key_of b.




End KeyedSummarizeOthers.




